(** * SOOD chat server: session history and persona orchestration

    A shallow embedding of the three server variants of the repository

    - [Server1]: [src/server.js], lines 1-337,
    - [Server2]: [src/server.js], lines 338-671 (the second copy in that file),
    - [Part001]: [src/unnamed/part_001],

    and the properties of their [/init], [/chat] and [/voice-settings]
    handlers.  The handlers are written in a small state-and-exception monad
    over the in-memory [chatHistory] map and a log of the outbound API calls;
    the two remote services (completion and speech synthesis) are oracles of a
    [world] record. *)

From Stdlib Require Import Ascii String QArith.
From stdpp Require Import gmap strings list fin_maps.


(** ** JavaScript string primitives used by the handlers

    Strings are byte strings; every character the handlers test for (the
    space and the asterisk) is ASCII, so the byte view and the UTF-16 view
    of JavaScript agree on where they occur. *)

Module Js.

(** [s.startsWith(p)], on which the other searches are built. *)
Fixpoint starts_with (p s : string) : bool :=
  match p, s with
  | EmptyString, _ => true
  | String a p', String b s' => if Ascii.eqb a b then starts_with p' s' else false
  | String _ _, EmptyString => false
  end.

(** [s.includes(needle)] *)
Fixpoint includes (needle s : string) : bool :=
  starts_with needle s ||
  match s with
  | EmptyString => false
  | String _ s' => includes needle s'
  end.

(** [s.replace(/pat/g, '')] for a literal, non-empty pattern: matches are
    found left to right and do not overlap.  [skip] counts the characters of
    the current match that are still to be dropped. *)
Fixpoint replace_from (pat : string) (skip : nat) (s : string) : string :=
  match s with
  | EmptyString => EmptyString
  | String c s' =>
      match skip with
      | S k => replace_from pat k s'
      | O =>
          if starts_with pat s
          then replace_from pat (String.length pat - 1) s'
          else String c (replace_from pat 0 s')
      end
  end.

Definition replace_all (pat s : string) : string := replace_from pat 0 s.

(** [s.split(sep)] for a one-character separator; the result is never
    empty: [''.split(' ')] is [['']]. *)
Fixpoint split (sep : ascii) (s : string) : list string :=
  match s with
  | EmptyString => [EmptyString]
  | String c s' =>
      if Ascii.eqb c sep then EmptyString :: split sep s'
      else match split sep s' with
           | w :: ws => String c w :: ws
           | [] => [String c EmptyString]
           end
  end.

(** [a.join(sep)] *)
Fixpoint join (sep : string) (ws : list string) : string :=
  match ws with
  | [] => EmptyString
  | [w] => w
  | w :: ws' => w +:+ sep +:+ join sep ws'
  end.

(** [a.slice(-n)]: the last [n] elements, all of them when there are fewer. *)
Definition slice_last {A} (n : nat) (l : list A) : list A :=
  drop (length l - n) l.

(** [x || d] on a possibly missing string: the empty string is falsy. *)
Definition or_else (x : option string) (d : string) : string :=
  match x with
  | Some (String c s) => String c s
  | _ => d
  end.

(** Truthiness of a possibly missing string. *)
Definition truthy (x : option string) : bool :=
  match x with
  | Some (String _ _) => true
  | _ => false
  end.

End Js.

(** The characters of [s] that are not asterisks, in order: what is left of a
    text once its emphasis markers are gone. *)
Fixpoint without_stars (s : string) : string :=
  match s with
  | EmptyString => EmptyString
  | String c s' =>
      if Ascii.eqb c "*" then without_stars s' else String c (without_stars s')
  end.

(** [w] holds no occurrence of the separator. *)
Definition free_of (sep : ascii) (w : string) : Prop :=
  Js.includes (String sep EmptyString) w = false.

(** [botResponse.replace(/\*\*/g, '').replace(/\*/g, '')] *)
Definition clean_markdown (botResponse : string) : string :=
  Js.replace_all "*" (Js.replace_all "**" botResponse).


(** ** Data model *)

(** The role tag of a turn: ["system"], ["user"] or ["assistant"]. *)
Module Role.
Inductive t := system | user | assistant.
End Role.

(** One turn of a conversation: [{ role, content }]; a [content] that is
    [undefined] is [None]. *)
Record entry := { role : Role.t; content : option string }.

(** A persona of [presetPrompts]: [{ name, system }]. *)
Record persona := { name : string; system : string }.

(** The [voiceSettings] object of a request; a number is the rational value
    of the parsed JSON number, [None] a missing field. *)
Record voice_settings := { stability : option Q; similarity_boost : option Q }.

(** The [voiceSettings] of a request body as [generateSpeech] receives it:
    missing ([undefined]), [null], or an object. *)
Inductive voice_arg :=
| no_settings
| null_settings
| given_settings (v : voice_settings).

(** The object [{}]. *)
Definition empty_settings : voice_settings :=
  {| stability := None; similarity_boost := None |}.

(** The object whose fields [generateSpeech] reads when the argument is not
    [null]: the default parameter [voiceSettings = {}] stands in for a
    missing one. *)
Definition settings_value (a : voice_arg) : voice_settings :=
  match a with
  | given_settings v => v
  | _ => empty_settings
  end.

(** [x || 0.5] on a possibly missing number: zero is falsy. *)
Definition or_half (x : option Q) : Q :=
  match x with
  | Some q => if Qeq_bool q 0 then 1 # 2 else q
  | None => 1 # 2
  end.

(** A JavaScript [Error]; only its [message] is ever read. *)
Record error := { error_message : option string }.

(** The argument of [groq.chat.completions.create].  The constant
    [temperature], [top_p] and [stream] fields are left out. *)
Record completion_request := {
  messages : list entry;
  completion_model : string;
  max_tokens : nat
}.

(** The request [generateSpeech] posts to the text-to-speech API. *)
Record speech_request := {
  speech_voice : string;
  speech_text : string;
  model_id : string;
  speech_stability : Q;
  speech_similarity_boost : Q
}.

(** Outbound API calls, in the order they are issued. *)
Inductive call :=
| completion_call (r : completion_request)
| speech_call (r : speech_request).

(** The result of awaiting a promise. *)
Inductive outcome (A : Type) :=
| Resolved (a : A)
| Rejected (e : error).
Arguments Resolved {A} a.
Arguments Rejected {A} e.

(** What lies outside the process for the duration of one request: the
    completion API answers with the content of its first choice ([None]
    when there is none) or fails; the speech API answers with the bytes of
    an MPEG stream or fails (network error or a response that is not ok);
    and two environment variables. *)
Record world := {
  groq_create : completion_request -> outcome (option string);
  elevenlabs : speech_request -> option string;
  ELEVENLABS_VOICE_ID : option string;
  NODE_ENV : option string
}.

(** Audio as the handlers hand it on: [data_url b] is the string
    [data:audio/mpeg;base64,...] built from the bytes [b], [buffer b] the
    [Buffer] itself. *)
Inductive audio :=
| data_url (mpeg : string)
| buffer (mpeg : string).

(** The JSON bodies the handlers send. *)
Inductive json :=
| json_error (error : string) (retryAfter : option nat) (details : option string)
| json_init_data (message : string) (audioData : option audio)
| json_init_chunks (message : string) (audioChunks : list audio)
| json_reply (reply : string) (audioUrl : option audio)
| json_text (text : string) (audioChunks : list audio)
| json_status (status : string).

Record response := { status : nat; body : json }.

(** Request bodies, with the fields the client sends as strings.  A missing
    (or [null]) string field is [None]; a missing [message] is the empty
    string, which the handlers treat alike.  A missing [sessionId] is the
    key [undefined] of the map, [None], which differs from the empty
    string. *)
Record init_request := { init_role : option string; init_sessionId : option string }.

Record chat_request := {
  message : string;
  sessionId : option string;
  voiceSettings : voice_arg;
  model : option string;
  voiceId : option string;
  selectedRole : option string;
  ttsEnabled : bool
}.

(** ** The handler monad

    The process state is the [chatHistory] map and the log of outbound calls.
    A computation may throw; what it did to the state before throwing
    stays done. *)

Record server := {
  chatHistory : gmap (option string) (list entry);
  outbound : list call
}.

Definition handler (A : Type) : Type := server -> outcome A * server.

Global Instance handler_ret : MRet handler :=
  fun A (a : A) (s : server) => (Resolved a, s).

Global Instance handler_bind : MBind handler :=
  fun A B (f : A -> handler B) (m : handler A) (s : server) =>
    match m s with
    | (Resolved a, s') => f a s'
    | (Rejected e, s') => (Rejected e, s')
    end.

Definition throw {A} (e : error) : handler A :=
  fun s => (Rejected e, s).

(** [try { body } catch (error) { handle }] *)
Definition try_catch {A} (body : handler A) (handle : error -> handler A)
  : handler A :=
  fun s =>
    match body s with
    | (Resolved a, s') => (Resolved a, s')
    | (Rejected e, s') => handle e s'
    end.

(** [chatHistory.get(sessionId) || []] *)
Definition get_history (sessionId : option string) : handler (list entry) :=
  fun s => (Resolved (default [] (chatHistory s !! sessionId)), s).

(** [chatHistory.set(sessionId, h)] *)
Definition set_history (sessionId : option string) (h : list entry)
  : handler unit :=
  fun s => (Resolved tt,
            {| chatHistory := <[sessionId := h]> (chatHistory s);
               outbound := outbound s |}).

(** [history.push(e)] where [history] came from [get_history]: when the
    session has an entry, [history] is that very array and the push shows
    in the map; otherwise it is a fresh array known to the handler only. *)
Definition push_history (sessionId : option string) (e : entry)
  : handler unit :=
  fun s => (Resolved tt,
            {| chatHistory := alter (fun h => h ++ [e]) sessionId (chatHistory s);
               outbound := outbound s |}).

(** [chatHistory.delete(sessionId)] *)
Definition delete_history (sessionId : option string) : handler unit :=
  fun s => (Resolved tt,
            {| chatHistory := delete sessionId (chatHistory s);
               outbound := outbound s |}).

Definition log_call (c : call) : handler unit :=
  fun s => (Resolved tt,
            {| chatHistory := chatHistory s; outbound := outbound s ++ [c] |}).

(** [await groq.chat.completions.create(r)], giving
    [choices[0]?.message?.content]. *)
Definition create_completion (w : world) (r : completion_request)
  : handler (option string) :=
  log_call (completion_call r);;
  match groq_create w r with
  | Resolved c => mret c
  | Rejected e => throw e
  end.

(** Reading [choices[0].message.content] without the [?.] guards and then
    calling a string method on it: a [TypeError] when it is missing. *)
Definition require_content (c : option string) : handler string :=
  match c with
  | Some s => mret s
  | None => throw {| error_message := Some "Cannot read properties of undefined" |}
  end.

(** [await fetch(...)] of [generateSpeech] followed by the [response.ok]
    test and [response.arrayBuffer()]. *)
Definition fetch_speech (w : world) (r : speech_request) : handler string :=
  log_call (speech_call r);;
  match elevenlabs w r with
  | Some mpeg => mret mpeg
  | None => throw {| error_message := Some "ElevenLabs API error" |}
  end.

(** [Promise.all(ps)]: every computation of [ps] is started, in order,
    whether or not an earlier one fails; the result is the list of their
    values, or a rejection when one of them rejects. *)
Fixpoint promise_all {A} (ps : list (handler A)) : handler (list A) :=
  match ps with
  | [] => mret []
  | p :: ps' =>
      fun s =>
        let '(r, s1) := p s in
        let '(rs, s2) := promise_all ps' s1 in
        (match r, rs with
         | Resolved a, Resolved l => Resolved (a :: l)
         | Rejected e, _ => Rejected e
         | Resolved _, Rejected e => Rejected e
         end, s2)
  end.

Definition respond (code : nat) (b : json) : handler response :=
  mret {| status := code; body := b |}.

(** A handler catches everything it throws; should one not, Express answers
    500 itself. *)
Definition run (h : handler response) (s : server) : response * server :=
  match h s with
  | (Resolved r, s') => (r, s')
  | (Rejected _, s') =>
      ({| status := 500; body := json_error "Something went wrong!" None None |}, s')
  end.

Definition turn (r : Role.t) (c : string) : entry :=
  {| role := r; content := Some c |}.

(** A member of [Object.prototype], which every object literal inherits:
    its own [name] property ([None] when it has none) and the string it
    converts to.  None of them has a [system] property; all are truthy. *)
Record member := { member_name : option string; member_string : string }.

(** A built-in function named [f]. *)
Definition native (f : string) : member :=
  {| member_name := Some f;
     member_string := "function " +:+ f +:+ "() { [native code] }" |}.

Definition Object_prototype : gmap string member :=
  list_to_map
    [ ("constructor", native "Object");
      ("__defineGetter__", native "__defineGetter__");
      ("__defineSetter__", native "__defineSetter__");
      ("hasOwnProperty", native "hasOwnProperty");
      ("__lookupGetter__", native "__lookupGetter__");
      ("__lookupSetter__", native "__lookupSetter__");
      ("isPrototypeOf", native "isPrototypeOf");
      ("propertyIsEnumerable", native "propertyIsEnumerable");
      ("toString", native "toString");
      ("valueOf", native "valueOf");
      ("__proto__", {| member_name := None; member_string := "[object Object]" |});
      ("toLocaleString", native "toLocaleString") ].

(** What [table[key]] evaluates to on an object literal used as a table: an
    own property, or a member found along the prototype chain. *)
Inductive property (V : Type) :=
| own (v : V)
| inherited (m : member).
Arguments own {V} v.
Arguments inherited {V} m.

(** [table[key]]; [None] is [undefined]. *)
Definition get_property {V} (table : gmap string V) (key : string)
  : option (property V) :=
  match table !! key with
  | Some v => Some (own v)
  | None => inherited <$> Object_prototype !! key
  end.

(** [key && table[key]] for a possibly missing key. *)
Definition lookup_key {V} (table : gmap string V) (key : option string)
  : option (property V) :=
  match key with
  | Some k => if Js.truthy key then get_property table k else None
  | None => None
  end.

(** The entry of the table itself that a key names, if any: the registry
    proper, without the inherited members. *)
Definition lookup_role {V} (table : gmap string V) (key : option string) : option V :=
  match key with
  | Some k => if Js.truthy key then table !! k else None
  | None => None
  end.

(** [undefined] read as text, in a concatenation, a template literal or the
    argument of [includes]. *)
Definition as_text (x : option string) : string := default "undefined" x.

(** [roleConfig.system] and [roleConfig.name] of what a role key evaluates
    to; the name is only ever read as text. *)
Definition system_of (roleConfig : property persona) : option string :=
  match roleConfig with
  | own p => Some (system p)
  | inherited _ => None
  end.

Definition name_of (roleConfig : property persona) : string :=
  match roleConfig with
  | own p => name p
  | inherited m => as_text (member_name m)
  end.

(** A voice of [roleToVoice] as it goes into the URL of the speech API. *)
Definition voice_of (voice : property string) : string :=
  match voice with
  | own v => v
  | inherited m => member_string m
  end.

(** Whether the argument is [null]. *)
Definition is_null (a : voice_arg) : bool :=
  match a with
  | null_settings => true
  | _ => false
  end.

(** The default parameter [voiceSettings = {}] of [generateSpeech] and its
    reads [voiceSettings.stability] and [voiceSettings.similarity_boost],
    which are a [TypeError] on [null]. *)
Definition read_settings (voiceSettings : voice_arg) : handler voice_settings :=
  match voiceSettings with
  | null_settings =>
      throw {| error_message := Some "Cannot read properties of null (reading 'stability')" |}
  | _ => mret (settings_value voiceSettings)
  end.

Definition greeting_request : string := "Hello, could you introduce yourself?".

(** [x < y] on possibly missing numbers: false when either is missing. *)
Definition js_lt (x y : option Q) : bool :=
  match x, y with
  | Some p, Some q => negb (Qle_bool q p)
  | _, _ => false
  end.

(** [app.post('/voice-settings', ...)], the same text in the three variants. *)
Definition post_voice_settings (req : voice_settings) : handler response :=
  if js_lt (stability req) (Some 0%Q) || js_lt (Some 1%Q) (stability req)
     || js_lt (similarity_boost req) (Some 0%Q)
     || js_lt (Some 1%Q) (similarity_boost req)
  then respond 400 (json_error "Values must be between 0 and 1" None None)
  else respond 200 (json_status "Settings updated").

(** [app.post('/clear-history', ...)], the same text in the three variants. *)
Definition post_clear_history (sessionId : option string) : handler response :=
  (if Js.truthy sessionId then delete_history sessionId else mret tt);;
  respond 200 (json_status "History cleared").

(** ** [src/server.js], first copy (lines 1-337) *)

Module Server1.

(** Never throws: every failure is caught and becomes [null]. *)
Definition generateSpeech (w : world) (text : string)
    (voiceSettings : voice_arg) (voiceId : string)
  : handler (option audio) :=
  try_catch
    (voiceSettings ← read_settings voiceSettings;
     mpeg ← fetch_speech w
       {| speech_voice := voiceId;
          speech_text := text;
          model_id := "eleven_monolingual_v1";
          speech_stability := or_half (stability voiceSettings);
          speech_similarity_boost := or_half (similarity_boost voiceSettings) |};
     mret (Some (data_url mpeg)))
    (fun _ => mret None).

Definition roleToVoice : gmap string string :=
  list_to_map
    [ ("lawyer", "ErXwobaYiN019PkySvjV");
      ("doctor", "EXAVITQu4vr4xnSDxMaL");
      ("tutor", "21m00Tcm4TlvDq8ikWAM");
      ("engineer", "VR6AewLTigWG4xSOukaG");
      ("financial", "EXAVITQu4vr4xnSDxMaL");
      ("writer", "21m00Tcm4TlvDq8ikWAM");
      ("tax", "ErXwobaYiN019PkySvjV") ].

Definition lawyer : persona :=
  {| name := "Saul Goodman";
     system := "You are Saul Goodman. Keep responses under 50 words. Be direct and witty. Use 'Better Call Saul' catchphrase occasionally. Focus on practical legal advice while maintaining your signature charm." |}.

Definition presetPrompts : gmap string persona :=
  list_to_map
    [ ("lawyer", lawyer);
      ("doctor",
       {| name := "Dr. Sarah Chen";
          system := "You are Dr. Sarah Chen. Keep responses under 50 words. Provide clear, concise medical information. Be professional yet compassionate. Focus on practical health guidance." |});
      ("tutor",
       {| name := "Professor Alex Thompson";
          system := "You are Professor Alex Thompson. Keep responses under 50 words. Explain concepts clearly and simply. Use examples when needed. Focus on key learning points." |});
      ("engineer",
       {| name := "Dr. Michael Zhang";
          system := "You are Dr. Michael Zhang. Keep responses under 50 words. Provide practical coding and technical advice. Use simple explanations for complex concepts." |});
      ("financial",
       {| name := "Emma Richardson";
          system := "You are Emma Richardson. Keep responses under 50 words. Give clear financial advice. Focus on practical money management tips. Emphasize important financial concepts briefly." |});
      ("writer",
       {| name := "Isabella Martinez";
          system := "You are Isabella Martinez. Keep responses under 50 words. Provide concise writing advice. Focus on key storytelling elements. Give practical tips for improvement." |});
      ("tax",
       {| name := "William Turner";
          system := "You are William Turner. Keep responses under 50 words. Provide clear tax advice. Focus on compliance and optimization. Explain complex tax concepts simply." |}) ].

(** The audio step of [/init] (lines 200-208): [audioData]. *)
Definition init_audio (w : world) (role : option string) (botResponse : string)
  : handler (option audio) :=
  match lookup_key roleToVoice role with
  | Some voice =>
      generateSpeech w botResponse (given_settings empty_settings) (voice_of voice)
  | None => mret None
  end.

(** [app.post('/init', ...)] *)
Definition post_init (w : world) (req : init_request) : handler response :=
  try_catch
    (let role := init_role req in
     let sessionId := init_sessionId req in
     match lookup_key presetPrompts role with
     | None => respond 400 (json_error "Invalid role specified" None None)
     | Some roleConfig =>
         set_history sessionId [];;
         let messages :=
           [ {| role := Role.system; content := system_of roleConfig |};
             turn Role.user greeting_request ] in
         try_catch
           (chatCompletion ← create_completion w
              {| messages := messages;
                 completion_model := "llama-3.1-70b-versatile";
                 max_tokens := 1024 |};
            botResponse ← require_content chatCompletion;
            let botResponse := clean_markdown botResponse in
            set_history sessionId
              [ {| role := Role.system; content := system_of roleConfig |};
                turn Role.user greeting_request;
                turn Role.assistant botResponse ];;
            audioData ← init_audio w role botResponse;
            respond 200 (json_init_data botResponse audioData))
           (fun _ =>
              respond 500
                (json_error "Error initializing AI role. Please try again." None None))
     end)
    (fun _ => respond 500 (json_error "Error initializing chat session" None None)).

(** The [catch] of the completion call in [/chat]. *)
Definition completion_failed (w : world) (error : error) : handler response :=
  if match error_message error with
     | Some m => Js.includes "rate limit exceeded" m
     | None => false
     end
  then
    respond 429
      (json_error "Rate limit reached. Please try again in a few minutes."
         (Some 60) None)
  else
    respond 500
      (json_error "Service temporarily unavailable. Please try again." None
         (if decide (NODE_ENV w = Some "development")
          then error_message error else None)).

(** The role configuration of [/chat] (lines 236-239):
    [presetPrompts['lawyer']] when [selectedRole && presetPrompts[selectedRole]]
    is falsy. *)
Definition roleConfig_of (selectedRole : option string) : property persona :=
  default (own lawyer) (lookup_key presetPrompts selectedRole).

(** The audio step of [/chat] (lines 262-270): [audioUrl]. *)
Definition chat_audio (w : world) (req : chat_request) (reply : string)
  : handler (option audio) :=
  if ttsEnabled req && Js.truthy (voiceId req)
  then generateSpeech w reply (voiceSettings req) (Js.or_else (voiceId req) "")
  else mret None.

(** [app.post('/chat', ...)] *)
Definition post_chat (w : world) (req : chat_request) : handler response :=
  try_catch
    (if negb (Js.truthy (Some (message req)))
     then respond 400 (json_error "Message is required" None None)
     else
       history ← get_history (sessionId req);
       let roleConfig := roleConfig_of (selectedRole req) in
       try_catch
         (completion ← create_completion w
            {| messages :=
                 turn Role.system
                   (as_text (system_of roleConfig) +:+ " Always be concise and direct.")
                 :: Js.slice_last 4 history
                 ++ [turn Role.user (message req)];
               completion_model := "mixtral-8x7b-32768";
               max_tokens := 100 |};
          let reply := Js.or_else completion "Sorry, I couldn't generate a response." in
          push_history (sessionId req) (turn Role.user (message req));;
          push_history (sessionId req) (turn Role.assistant reply);;
          let history :=
            history ++ [turn Role.user (message req); turn Role.assistant reply] in
          set_history (sessionId req) (Js.slice_last 6 history);;
          audioUrl ← chat_audio w req reply;
          respond 200 (json_reply reply audioUrl))
         (completion_failed w))
    (fun _ => respond 500 (json_error "An unexpected error occurred" None None)).

End Server1.

(** ** [src/server.js], second copy (lines 338-671) *)

Module Server2.

(** [voiceId || process.env.ELEVENLABS_VOICE_ID] *)
Definition selectedVoiceId_of (w : world) (voiceId : option string) : option string :=
  if Js.truthy voiceId then voiceId else ELEVENLABS_VOICE_ID w.

(** The request of the [fetch] in [generateSpeech]. *)
Definition speech_fetch (selectedVoiceId : option string) (text : string)
    (voiceSettings : voice_settings) : speech_request :=
  {| speech_voice := Js.or_else selectedVoiceId "";
     speech_text := text;
     model_id := "eleven_turbo_v2";
     speech_stability := or_half (stability voiceSettings);
     speech_similarity_boost := or_half (similarity_boost voiceSettings) |}.

(** Throws when no voice is known, when [voiceSettings] is [null] (while
    the argument of [fetch] is built, so before any call is issued), or
    when the API call fails. *)
Definition generateSpeech (w : world) (text : string)
    (voiceSettings : voice_arg) (voiceId : option string)
  : handler string :=
  let selectedVoiceId := selectedVoiceId_of w voiceId in
  if negb (Js.truthy selectedVoiceId)
  then throw {| error_message := Some "Voice ID is required. Please set ELEVENLABS_VOICE_ID in .env or provide a voice ID." |}
  else
    voiceSettings ← read_settings voiceSettings;
    fetch_speech w (speech_fetch selectedVoiceId text voiceSettings).

Definition saul_system : string :=
  "You are Saul Goodman, working for SOOD. You're a charismatic and resourceful lawyer known for your creative legal solutions and catchy slogan 'Better Call Saul'. You have a colorful personality and aren't afraid to think outside the box. Never mention being an 'AI assistant' - just be Saul. Use your signature wit and charm while staying professional enough to handle serious legal matters. Always introduce yourself as Saul Goodman and occasionally use your catchphrase.".

Definition presetPrompts : gmap string persona :=
  list_to_map
    [ ("lawyer", {| name := "Saul Goodman"; system := saul_system |});
      ("doctor",
       {| name := "Dr. Sarah Chen";
          system := "You are Dr. Sarah Chen, working for SOOD. You are a board-certified physician with expertise in internal medicine and preventive healthcare. Never mention being an 'AI assistant' - just be Dr. Chen. Provide clear, accurate medical information while maintaining a compassionate and professional tone." |});
      ("tutor",
       {| name := "Professor Alex Thompson";
          system := "You are Professor Alex Thompson, working for SOOD. You are an experienced educator with expertise in multiple subjects including mathematics, sciences, and literature. Never mention being an 'AI assistant' - just be Professor Thompson. Explain concepts clearly and encourage active learning through questions and examples." |});
      ("engineer",
       {| name := "Dr. Michael Zhang";
          system := "You are Dr. Michael Zhang, working for SOOD. You are a senior software engineer with 15 years of experience in multiple programming languages and software architectures. Never mention being an 'AI assistant' - just be Dr. Zhang. Provide clear, practical coding advice and explain technical concepts in accessible terms." |});
      ("financial",
       {| name := "Emma Richardson";
          system := "You are Emma Richardson, working for SOOD. You are a certified financial advisor with expertise in personal finance, investments, and wealth management. Never mention being an 'AI assistant' - just be Emma Richardson. Provide clear financial guidance while emphasizing the importance of personal research." |});
      ("writer",
       {| name := "Isabella Martinez";
          system := "You are Isabella Martinez, working for SOOD. You are an accomplished author and creative writing expert with experience across various genres. Never mention being an 'AI assistant' - just be Isabella Martinez. Provide guidance on storytelling, character development, and writing techniques with an encouraging approach." |});
      ("tax",
       {| name := "William Turner";
          system := "You are William Turner, working for SOOD. You are a certified tax specialist with over 15 years of experience in tax planning, compliance, and advisory services. Never mention being an 'AI assistant' - just be William Turner. You specialize in helping clients navigate complex tax regulations, optimize their tax positions, and ensure full compliance with tax laws. Always emphasize the importance of proper documentation and staying within legal boundaries." |}) ].

(** The literal [/chat] falls back to when [selectedRole] does not resolve. *)
Definition fallback : persona :=
  {| name := "SAUL GOODMAN"; system := saul_system |}.

(** The audio step of [/init] (lines 531-539): [audioChunks].  No
    [roleToVoice] is declared in this variant: evaluating it inside the [try]
    is a [ReferenceError], which the [catch] takes before [generateSpeech]
    is reached. *)
Definition init_audio (w : world) (botResponse : string) : handler (list audio) :=
  try_catch
    (voice ← throw {| error_message := Some "roleToVoice is not defined" |};
     audioBuffer ← generateSpeech w botResponse (given_settings empty_settings) voice;
     mret [data_url audioBuffer])
    (fun _ => mret []).

(** [app.post('/init', ...)] *)
Definition post_init (w : world) (req : init_request) : handler response :=
  try_catch
    (let role := init_role req in
     let sessionId := init_sessionId req in
     match lookup_key presetPrompts role with
     | None => respond 400 (json_error "Invalid role specified" None None)
     | Some roleConfig =>
         set_history sessionId [];;
         let messages :=
           [ {| role := Role.system; content := system_of roleConfig |};
             turn Role.user greeting_request ] in
         chatCompletion ← create_completion w
           {| messages := messages;
              completion_model := "llama-3.1-70b-versatile";
              max_tokens := 1024 |};
         botResponse ← require_content chatCompletion;
         let botResponse := clean_markdown botResponse in
         set_history sessionId
           [ {| role := Role.system; content := system_of roleConfig |};
             turn Role.user greeting_request;
             turn Role.assistant botResponse ];;
         audioChunks ← init_audio w botResponse;
         respond 200 (json_init_chunks botResponse audioChunks)
     end)
    (fun _ =>
       respond 500
         (json_error "An error occurred while initializing the chat" None None)).

(** The [catch] of the completion call in [/chat]. *)
Definition completion_failed (w : world) (error : error) : handler response :=
  if match error_message error with
     | Some m => Js.includes "rate limit exceeded" m
     | None => false
     end
  then
    respond 429
      (json_error "I'm currently experiencing high demand. Please try again in a few minutes. This helps ensure everyone can access the service fairly."
         (Some 60) None)
  else
    respond 500
      (json_error "I'm having trouble processing your request right now. Please try again in a moment." None
         (if decide (NODE_ENV w = Some "development")
          then error_message error else None)).

(** The role configuration of [/chat] (lines 564-570). *)
Definition roleConfig_of (selectedRole : option string) : property persona :=
  default (own fallback) (lookup_key presetPrompts selectedRole).

(** The audio step of [/chat] (lines 593-602): [audioUrl]. *)
Definition chat_audio (w : world) (req : chat_request) (reply : string)
  : handler (option audio) :=
  if ttsEnabled req
  then
    try_catch
      (audioBuffer ← generateSpeech w reply (voiceSettings req) (voiceId req);
       mret (Some (buffer audioBuffer)))
      (fun _ => mret None)
  else mret None.

(** [app.post('/chat', ...)] *)
Definition post_chat (w : world) (req : chat_request) : handler response :=
  try_catch
    (if negb (Js.truthy (Some (message req)))
     then respond 400 (json_error "Message is required" None None)
     else
       history ← get_history (sessionId req);
       let roleConfig := roleConfig_of (selectedRole req) in
       try_catch
         (completion ← create_completion w
            {| messages :=
                 {| role := Role.system; content := system_of roleConfig |}
                 :: history ++ [turn Role.user (message req)];
               completion_model := Js.or_else (model req) "mixtral-8x7b-32768";
               max_tokens := 1024 |};
          let reply := Js.or_else completion "I apologize, but I couldn't generate a response at the moment." in
          push_history (sessionId req) (turn Role.user (message req));;
          push_history (sessionId req) (turn Role.assistant reply);;
          let history :=
            history ++ [turn Role.user (message req); turn Role.assistant reply] in
          set_history (sessionId req) history;;
          audioUrl ← chat_audio w req reply;
          respond 200 (json_reply reply audioUrl))
         (completion_failed w))
    (fun _ => respond 500 (json_error "An unexpected error occurred" None None)).

End Server2.

(** ** [src/unnamed/part_001] *)

Module Part001.

(** [generateSpeech], [presetPrompts] and the [/init] handler have the same
    text as in the second copy of [src/server.js]. *)
Definition generateSpeech := Server2.generateSpeech.
Definition presetPrompts := Server2.presetPrompts.
Definition fallback := Server2.fallback.
Definition post_init := Server2.post_init.

(** One round of the loop that groups the words of a reply: push the word,
    and close the chunk once it holds 50 of them. *)
Definition chunk_step (acc : list string * list string) (word : string)
  : list string * list string :=
  let '(chunks, currentChunk) := acc in
  let currentChunk := currentChunk ++ [word] in
  if 50 <=? length currentChunk
  then (chunks ++ [Js.join " " currentChunk], [])
  else (chunks, currentChunk).

(** The loop, and the push of the last, shorter chunk after it. *)
Definition chunk_words (words : list string) : list string :=
  let '(chunks, currentChunk) := fold_left chunk_step words ([], []) in
  if 0 <? length currentChunk
  then chunks ++ [Js.join " " currentChunk]
  else chunks.

(** The first-turn self-introduction: [`Hello! I'm ${name}. ${botResponse}`]. *)
Definition introduce (name botResponse : string) : string :=
  "Hello! I'm " +:+ name +:+ ". " +:+ botResponse.

(** The role configuration of [/chat] (lines 217-223). *)
Definition roleConfig_of (selectedRole : option string) : property persona :=
  default (own fallback) (lookup_key presetPrompts selectedRole).

(** Lines 245-248: on a first message, make the reply name the persona. *)
Definition ensure_introduction (isFirstMessage : bool)
    (roleConfig : property persona) (botResponse : string) : string :=
  if isFirstMessage && negb (Js.includes (name_of roleConfig) botResponse)
  then introduce (name_of roleConfig) botResponse
  else botResponse.

(** The audio step of [/chat] (lines 261-295): [audioChunks]. *)
Definition chat_audio (w : world) (req : chat_request) (botResponse : string)
  : handler (list audio) :=
  if ttsEnabled req
  then
    try_catch
      (let words := Js.split " " botResponse in
       let chunks := chunk_words words in
       audioChunks ← promise_all
         (map (fun chunk => generateSpeech w chunk (voiceSettings req) (voiceId req))
            chunks);
       mret (map data_url audioChunks))
      (fun _ => mret [])
  else mret [].

(** [app.post('/chat', ...)] *)
Definition post_chat (w : world) (req : chat_request) : handler response :=
  try_catch
    (if negb (Js.truthy (Some (message req)))
     then respond 400 (json_error "Message is required" None None)
     else
       history ← get_history (sessionId req);
       let isFirstMessage := length history =? 0 in
       let roleConfig := roleConfig_of (selectedRole req) in
       let messages :=
         {| role := Role.system; content := system_of roleConfig |}
         :: history ++ [turn Role.user (message req)] in
       chatCompletion ← create_completion w
         {| messages := messages;
            completion_model := Js.or_else (model req) "llama-3.1-70b-versatile";
            max_tokens := 1024 |};
       botResponse ← require_content chatCompletion;
       let botResponse := ensure_introduction isFirstMessage roleConfig botResponse in
       let botResponse := clean_markdown botResponse in
       let history :=
         Js.slice_last 10
           (history ++ [turn Role.user (message req); turn Role.assistant botResponse]) in
       set_history (sessionId req) history;;
       audioChunks ← chat_audio w req botResponse;
       respond 200 (json_text botResponse audioChunks))
    (fun _ =>
       respond 500
         (json_error "An error occurred while processing your request" None None)).

End Part001.

(** ** Vocabulary of the properties *)

(** The history the map holds for a session, empty when it holds none. *)
Definition stored (s : server) (sessionId : option string) : list entry :=
  default [] (chatHistory s !! sessionId).

(** The server after further outbound calls that leave the histories alone. *)
Definition with_calls (s : server) (cs : list call) : server :=
  {| chatHistory := chatHistory s; outbound := outbound s ++ cs |}.

(** The server with a session's history replaced and further calls logged. *)
Definition with_history (s : server) (sessionId : option string) (h : list entry)
    (cs : list call) : server :=
  {| chatHistory := <[sessionId := h]> (chatHistory s);
     outbound := outbound s ++ cs |}.

(** A computation that always resolves and does nothing but speech calls. *)
Definition speech_only {A} (m : handler A) : Prop :=
  ∀ s, ∃ a rs, m s = (Resolved a, with_calls s (map speech_call rs)).

(** No session holds more than [N] turns. *)
Definition capped (N : nat) (s : server) : Prop :=
  ∀ sessionId h, chatHistory s !! sessionId = Some h → length h ≤ N.

(** A sequence of [/chat] requests, each with the world it meets, served one
    after the other; the responses come back in the same order. *)
Fixpoint serve (post_chat : world → chat_request → handler response)
    (calls : list (world * chat_request)) (s : server)
  : list response * server :=
  match calls with
  | [] => ([], s)
  | (w, req) :: calls' =>
      let '(r, s1) := run (post_chat w req) s in
      let '(rs, s2) := serve post_chat calls' s1 in
      (r :: rs, s2)
  end.

(** The two turns of an answered request: the user's message and the reply
    sent back; nothing for a request that was refused or failed. *)
Definition exchange (req : chat_request) (r : response) : list entry :=
  match body r with
  | json_reply reply _ | json_text reply _ =>
      [turn Role.user (message req); turn Role.assistant reply]
  | _ => []
  end.

(** The turns a sequence of requests adds to one session, oldest first. *)
Fixpoint transcript (sessionId' : option string)
    (calls : list (world * chat_request))
    (rs : list response) : list entry :=
  match calls, rs with
  | (_, req) :: calls', r :: rs' =>
      (if decide (sessionId req = sessionId') then exchange req r else [])
      ++ transcript sessionId' calls' rs'
  | _, _ => []
  end.

(** What one [/chat] request does to the server, for a handler that trims
    the history with [trim] before storing it: either nothing but outbound
    calls, with no exchange to show for it, or the session's history becomes
    the old one followed by the exchange, trimmed. *)
Definition chat_effect (trim : list entry → list entry)
    (post_chat : world → chat_request → handler response) : Prop :=
  ∀ w req s,
    (exchange req (run (post_chat w req) s).1 = []
     ∧ ∃ cs, (run (post_chat w req) s).2 = with_calls s cs)
    ∨ (∃ cs, (run (post_chat w req) s).2
             = with_history s (sessionId req)
                 (trim (stored s (sessionId req)
                        ++ exchange req (run (post_chat w req) s).1)) cs).

(** A world whose completion API always answers [reply] and whose speech
    API is down; the empty server; a plain request. *)
Definition answering (reply : string) : world :=
  {| groq_create := fun _ => Resolved (Some reply);
     elevenlabs := fun _ => None;
     ELEVENLABS_VOICE_ID := None;
     NODE_ENV := None |}.

(** A world whose completion API fails with the error message [m]. *)
Definition failing (m : string) : world :=
  {| groq_create := fun _ => Rejected {| error_message := Some m |};
     elevenlabs := fun _ => None;
     ELEVENLABS_VOICE_ID := None;
     NODE_ENV := None |}.

Definition empty_server : server := {| chatHistory := ∅; outbound := [] |}.

Definition ask (sessionId message : string) : chat_request :=
  {| message := message;
     sessionId := Some sessionId;
     voiceSettings := no_settings;
     model := None;
     voiceId := None;
     selectedRole := None;
     ttsEnabled := false |}.

(** The answer of [/chat] to a request without a message. *)
Definition message_required : response :=
  {| status := 400; body := json_error "Message is required" None None |}.

(** The answer of the outer [catch] of [/chat] in [part_001]. *)
Definition processing_error : response :=
  {| status := 500;
     body := json_error "An error occurred while processing your request" None None |}.

(** The answer of [/init] to a role that does not resolve. *)
Definition invalid_role : response :=
  {| status := 400; body := json_error "Invalid role specified" None None |}.

(** The three turns [/init] stores for a persona and a greeting. *)
Definition seed (p : persona) (greeting : string) : list entry :=
  [ turn Role.system (system p);
    turn Role.user greeting_request;
    turn Role.assistant greeting ].

(** Between [s] and [s'] a completion call was issued first, and the API
    rejected it with the error [e]. *)
Definition completion_rejected (w : world) (s s' : server) (e : error) : Prop :=
  ∃ r cs, outbound s' = outbound s ++ completion_call r :: cs
          ∧ groq_create w r = Rejected e.

(** Between [s] and [s'] a completion call was issued first, and the API
    answered it. *)
Definition completion_answered (w : world) (s s' : server) : Prop :=
  ∃ r c cs, outbound s' = outbound s ++ completion_call r :: cs
            ∧ groq_create w r = Resolved c.

(** The request [req] with its role key replaced. *)
Definition with_role (key : option string) (req : chat_request) : chat_request :=
  {| message := message req;
     sessionId := sessionId req;
     voiceSettings := voiceSettings req;
     model := model req;
     voiceId := voiceId req;
     selectedRole := key;
     ttsEnabled := ttsEnabled req |}.

(** A world whose completion API always answers [reply] and whose speech
    API returns a stream for every text. *)
Definition talking (reply : string) : world :=
  {| groq_create := fun _ => Resolved (Some reply);
     elevenlabs := fun r => Some ("mpeg of " +:+ speech_text r);
     ELEVENLABS_VOICE_ID := None;
     NODE_ENV := None |}.

(** The request [req] with speech switched on, for a given voice. *)
Definition aloud (voice : string) (req : chat_request) : chat_request :=
  {| message := message req;
     sessionId := sessionId req;
     voiceSettings := voiceSettings req;
     model := model req;
     voiceId := Some voice;
     selectedRole := selectedRole req;
     ttsEnabled := true |}.

(** A text of 120 words that names the default persona. *)
Definition many_words : string :=
  Js.join " " ("SAUL" :: "GOODMAN" :: "Saul" :: "Goodman" :: replicate 116 "word").

(** The three speech requests [part_001] issues for a text of 120 words. *)
Definition chunk_request (w : world) (req : chat_request) (words : list string)
  : speech_request :=
  Server2.speech_fetch (Server2.selectedVoiceId_of w (voiceId req))
    (Js.join " " words) (settings_value (voiceSettings req)).

(** A value below 0 or above 1, in the words of the specification. *)
Definition out_of_range (x : option Q) : Prop :=
  ∃ q, x = Some q ∧ (q < 0 ∨ 1 < q)%Q.

(** The number of space-separated words of a text. *)
Definition word_count (text : string) : nat := length (Js.split " " text).

(** A role key that is absent, empty, or names nothing on the registry
    object: neither a persona nor a member the object inherits. *)
Definition names_nothing {V} (table : gmap string V) (key : option string) : Prop :=
  lookup_role table key = None ∧ lookup_role Object_prototype key = None.

(** The error of a failure that signals an exhausted quota, as the handlers
    recognise it. *)
Definition rate_limited (e : error) : Prop :=
  ∃ m, error_message e = Some m ∧ Js.includes "rate limit exceeded" m = true.


(** ** Vocabulary of the further properties *)

(** The outbound calls a run adds to the log of [s]. *)
Definition new_calls (s s' : server) : list call :=
  drop (length (outbound s)) (outbound s').

(** The speech requests and the completion requests among some calls. *)
Definition speech_calls (cs : list call) : list speech_request :=
  omap (fun c => match c with speech_call r => Some r | _ => None end) cs.

Definition completion_calls (cs : list call) : list completion_request :=
  omap (fun c => match c with completion_call r => Some r | _ => None end) cs.

(** The audio a response carries, as a sequence. *)
Definition audio_of (r : response) : list audio :=
  match body r with
  | json_init_data _ a | json_reply _ a => option_list a
  | json_init_chunks _ a | json_text _ a => a
  | _ => []
  end.

(** The completion request [/chat] builds from the stored history of the
    session and the request body, in each variant. *)
Definition completion_of_Server1 (history : list entry) (req : chat_request)
  : completion_request :=
  {| messages :=
       turn Role.system
         (as_text (system_of (Server1.roleConfig_of (selectedRole req)))
          +:+ " Always be concise and direct.")
       :: Js.slice_last 4 history ++ [turn Role.user (message req)];
     completion_model := "mixtral-8x7b-32768";
     max_tokens := 100 |}.

Definition completion_of_Server2 (history : list entry) (req : chat_request)
  : completion_request :=
  {| messages :=
       {| role := Role.system;
          content := system_of (Server2.roleConfig_of (selectedRole req)) |}
       :: history ++ [turn Role.user (message req)];
     completion_model := Js.or_else (model req) "mixtral-8x7b-32768";
     max_tokens := 1024 |}.

Definition completion_of_Part001 (history : list entry) (req : chat_request)
  : completion_request :=
  {| messages :=
       {| role := Role.system;
          content := system_of (Part001.roleConfig_of (selectedRole req)) |}
       :: history ++ [turn Role.user (message req)];
     completion_model := Js.or_else (model req) "llama-3.1-70b-versatile";
     max_tokens := 1024 |}.

(** The completion request [/init] builds for a persona. *)
Definition completion_of_init (p : persona) : completion_request :=
  {| messages := [turn Role.system (system p); turn Role.user greeting_request];
     completion_model := "llama-3.1-70b-versatile";
     max_tokens := 1024 |}.

(** The completion request [/init] builds for whatever the role key
    evaluates to, and the three turns it stores with the greeting. *)
Definition completion_of_config (roleConfig : property persona)
  : completion_request :=
  {| messages :=
       [ {| role := Role.system; content := system_of roleConfig |};
         turn Role.user greeting_request ];
     completion_model := "llama-3.1-70b-versatile";
     max_tokens := 1024 |}.

Definition seed_of (roleConfig : property persona) (greeting : string)
  : list entry :=
  [ {| role := Role.system; content := system_of roleConfig |};
    turn Role.user greeting_request;
    turn Role.assistant greeting ].

(** The speech request of [generateSpeech] in the first copy of
    [src/server.js]. *)
Definition speech_of_Server1 (voiceId text : string)
    (voiceSettings : voice_settings) : speech_request :=
  {| speech_voice := voiceId;
     speech_text := text;
     model_id := "eleven_monolingual_v1";
     speech_stability := or_half (stability voiceSettings);
     speech_similarity_boost := or_half (similarity_boost voiceSettings) |}.

(** The speech requests [part_001] issues for a reply, one per chunk. *)
Definition speech_of_Part001 (w : world) (req : chat_request) (text : string)
  : list speech_request :=
  map (fun chunk =>
         Server2.speech_fetch (Server2.selectedVoiceId_of w (voiceId req)) chunk
           (settings_value (voiceSettings req)))
    (Part001.chunk_words (Js.split " " text)).

(** The world [w] with another speech API and another default voice. *)
Definition with_speech (w : world) (api : speech_request → option string)
    (voice : option string) : world :=
  {| groq_create := groq_create w;
     elevenlabs := api;
     ELEVENLABS_VOICE_ID := voice;
     NODE_ENV := NODE_ENV w |}.

(** The value of a computation that resolved, [d] otherwise. *)
Definition resolved_or {A} (d : A) (o : outcome A) : A :=
  match o with Resolved a => a | Rejected _ => d end.

(** The answer of [/clear-history]. *)
Definition history_cleared : response :=
  {| status := 200; body := json_status "History cleared" |}.

(** * Properties *)

(** ** Strings *)

Section strings.

Implicit Types (s t : string) (c : ascii).

Lemma eqb_star c : Ascii.eqb "*" c = Ascii.eqb c "*".
Proof. apply Ascii.eqb_sym. Qed.

Lemma replace_all_star s : Js.replace_all "*" s = without_stars s.
Proof.
  unfold Js.replace_all.
  induction s as [|c s IH]; [done|].
  cbn [Js.replace_from Js.starts_with without_stars String.length Nat.sub].
  rewrite eqb_star. destruct (Ascii.eqb c "*"); by rewrite IH.
Qed.

(** Dropping the pairs of asterisks first does not change what is left once
    every asterisk is dropped. *)
Lemma without_stars_replace_pairs s :
  without_stars (Js.replace_from "**" 0 s) = without_stars s
  ∧ ∀ s', s = String "*" s' →
      without_stars (Js.replace_from "**" 1 s) = without_stars s.
Proof.
  induction s as [|c s [IH0 IH1]]; [done|]. split.
  - cbn [Js.replace_from Js.starts_with String.length Nat.sub].
    rewrite eqb_star. destruct (Ascii.eqb c "*") eqn:Hc.
    + destruct s as [|d s']; lazy beta iota.
      * cbn. by rewrite Hc.
      * rewrite eqb_star. destruct (Ascii.eqb d "*") eqn:Hd.
        -- apply Ascii.eqb_eq in Hd as ->.
           rewrite (IH1 s' eq_refl). cbn [without_stars]. by rewrite Hc.
        -- cbn [without_stars]. rewrite Hc. apply IH0.
    + cbn [without_stars]. rewrite Hc. by rewrite IH0.
  - intros s' [= -> ->]. cbn [Js.replace_from]. by rewrite IH0.
Qed.

Lemma clean_markdown_without_stars s : clean_markdown s = without_stars s.
Proof.
  unfold clean_markdown. rewrite replace_all_star.
  apply without_stars_replace_pairs.
Qed.

Lemma starts_with_star s :
  Js.starts_with "*" s = match s with String c _ => Ascii.eqb c "*" | _ => false end.
Proof.
  destruct s as [|c s]; [done|]. cbn [Js.starts_with]. rewrite eqb_star.
  by destruct (Ascii.eqb c "*").
Qed.

Lemma without_stars_no_star s : Js.includes "*" (without_stars s) = false.
Proof.
  induction s as [|c s IH]; [done|].
  cbn [without_stars]. destruct (Ascii.eqb c "*") eqn:Hc; [done|].
  cbn [Js.includes]. by rewrite starts_with_star, Hc, IH.
Qed.

Lemma without_stars_app s t :
  without_stars (s +:+ t) = without_stars s +:+ without_stars t.
Proof.
  induction s as [|c s IH]; [done|].
  simpl. destruct (Ascii.eqb c "*"); simpl; by rewrite IH.
Qed.

(** A text free of asterisks is left as it is. *)
Lemma without_stars_id s : Js.includes "*" s = false → without_stars s = s.
Proof.
  induction s as [|c s IH]; [done|].
  cbn [Js.includes without_stars]. rewrite starts_with_star.
  destruct (Ascii.eqb c "*"); [done|]. cbn [orb]. intros H. by rewrite IH.
Qed.

End strings.

(** ** Words: [split] and [join] *)

Section words.

Implicit Types (s t w : string) (ws : list string) (c sep : ascii).

Lemma includes_char sep c s :
  Js.includes (String sep EmptyString) (String c s)
  = Ascii.eqb sep c || Js.includes (String sep EmptyString) s.
Proof.
  cbn [Js.includes Js.starts_with]. by destruct (Ascii.eqb sep c).
Qed.

Lemma free_of_cons sep c s :
  free_of sep (String c s) ↔ Ascii.eqb c sep = false ∧ free_of sep s.
Proof.
  unfold free_of. rewrite includes_char, (Ascii.eqb_sym sep c).
  apply orb_false_iff.
Qed.

Lemma split_nonempty sep s : Js.split sep s ≠ [].
Proof.
  destruct s as [|c s]; [done|]. cbn [Js.split].
  destruct (Ascii.eqb c sep); [done|]. by destruct (Js.split sep s).
Qed.

Lemma join_cons sep w ws :
  ws ≠ [] →
  Js.join (String sep EmptyString) (w :: ws)
  = w +:+ String sep (Js.join (String sep EmptyString) ws).
Proof. by destruct ws. Qed.

(** Joining the words of a text gives the text back. *)
Lemma join_split sep s : Js.join (String sep EmptyString) (Js.split sep s) = s.
Proof.
  induction s as [|c s IH]; [done|]. cbn [Js.split].
  pose proof (split_nonempty sep s) as Hne.
  destruct (Ascii.eqb_spec c sep) as [->|_].
  - rewrite join_cons by done. by rewrite IH.
  - destruct (Js.split sep s) as [|w [|w' ws]]; [done|by rewrite <- IH|].
    rewrite join_cons in IH |- * by done. by rewrite <- IH.
Qed.

(** No word of a split text holds the separator. *)
Lemma split_free sep s : Forall (free_of sep) (Js.split sep s).
Proof.
  induction s as [|c s IH]; [by repeat constructor|]. cbn [Js.split].
  destruct (Ascii.eqb c sep) eqn:Hc.
  - constructor; [done|apply IH].
  - destruct (Js.split sep s) as [|w ws].
    + repeat constructor. by apply free_of_cons.
    + inversion IH; subst. constructor; [by apply free_of_cons|done].
Qed.

Lemma split_word sep w : free_of sep w → Js.split sep w = [w].
Proof.
  induction w as [|c w IH]; [done|].
  intros [Hc Hw]%free_of_cons. cbn [Js.split]. by rewrite Hc, IH.
Qed.

Lemma split_word_sep sep w t :
  free_of sep w →
  Js.split sep (w +:+ String sep t) = w :: Js.split sep t.
Proof.
  induction w as [|c w IH].
  - intros _. change (EmptyString +:+ String sep t) with (String sep t).
    cbn [Js.split]. by rewrite Ascii.eqb_refl.
  - intros [Hc Hw]%free_of_cons.
    change (String c w +:+ String sep t) with (String c (w +:+ String sep t)).
    cbn [Js.split]. by rewrite Hc, IH.
Qed.

(** Splitting a joined list of separator-free words gives the words back. *)
Lemma split_join sep ws :
  ws ≠ [] → Forall (free_of sep) ws →
  Js.split sep (Js.join (String sep EmptyString) ws) = ws.
Proof.
  induction ws as [|w ws IH]; [done|]. intros _ Hall.
  inversion Hall as [|?? Hw Hws]; subst.
  destruct ws as [|w' ws]; [by apply split_word|].
  rewrite join_cons, split_word_sep by done.
  by rewrite IH.
Qed.

End words.

(** ** Lists: [slice(-n)] *)

Section slices.

Context {A : Type}.
Implicit Types (l k : list A) (n : nat).

Lemma length_slice_last n l : length (Js.slice_last n l) = min n (length l).
Proof. unfold Js.slice_last. rewrite length_drop. lia. Qed.

Lemma slice_last_bound n l : length (Js.slice_last n l) ≤ n.
Proof. rewrite length_slice_last. lia. Qed.

Lemma slice_last_short n l : length l ≤ n → Js.slice_last n l = l.
Proof.
  intros H. unfold Js.slice_last. by replace (length l - n) with 0 by lia.
Qed.

(** What [slice(-n)] keeps is a suffix: the entries dropped are the oldest. *)
Lemma slice_last_suffix n l : ∃ old, l = old ++ Js.slice_last n l.
Proof.
  exists (take (length l - n) l). unfold Js.slice_last.
  by rewrite take_drop.
Qed.

(** Trimming before appending does not change the trimmed result. *)
Lemma slice_last_app n l k :
  Js.slice_last n (Js.slice_last n l ++ k) = Js.slice_last n (l ++ k).
Proof.
  unfold Js.slice_last.
  rewrite !length_app, length_drop, !drop_app, drop_drop, length_drop.
  f_equal; f_equal; lia.
Qed.

End slices.

(** ** The word chunks of [part_001] *)

Section chunks.

Import Part001.

Implicit Types (words ws chunks cur : list string) (w : string).

Lemma chunk_step_open chunks cur w :
  length cur + 1 < 50 →
  chunk_step (chunks, cur) w = (chunks, cur ++ [w]).
Proof.
  intros H. unfold chunk_step.
  destruct (Nat.leb_spec 50 (length (cur ++ [w]))) as [Hle|_]; [|done].
  rewrite length_app in Hle. cbn [length] in Hle. lia.
Qed.

Lemma chunk_step_close chunks cur w :
  length cur + 1 = 50 →
  chunk_step (chunks, cur) w = (chunks ++ [Js.join " " (cur ++ [w])], []).
Proof.
  intros H. unfold chunk_step.
  destruct (Nat.leb_spec 50 (length (cur ++ [w]))) as [_|Hlt]; [done|].
  rewrite length_app in Hlt. cbn [length] in Hlt. lia.
Qed.

(** Fewer than 50 words in all: the loop only collects them. *)
Lemma chunk_loop_open ws : ∀ chunks cur,
  length cur + length ws < 50 →
  fold_left chunk_step ws (chunks, cur) = (chunks, cur ++ ws).
Proof.
  induction ws as [|w ws IH]; intros chunks cur H; cbn [fold_left length] in *.
  - by rewrite app_nil_r.
  - rewrite chunk_step_open by lia.
    rewrite IH by (rewrite length_app; cbn [length]; lia).
    by rewrite <- app_assoc.
Qed.

(** Exactly 50 words in all: the loop closes one chunk on the last word. *)
Lemma chunk_loop_close ws : ∀ chunks cur,
  ws ≠ [] → length cur + length ws = 50 →
  fold_left chunk_step ws (chunks, cur)
  = (chunks ++ [Js.join " " (cur ++ ws)], []).
Proof.
  induction ws as [|w ws IH]; intros chunks cur Hne H; [done|].
  cbn [fold_left length] in *. destruct ws as [|w' ws].
  - cbn [fold_left length] in *. by rewrite chunk_step_close by lia.
  - rewrite chunk_step_open by (cbn [length] in H; lia).
    rewrite IH; [|done|rewrite length_app; cbn [length] in *; lia].
    by rewrite <- app_assoc.
Qed.

(** 120 words make three chunks: words 1-50, 51-100 and 101-120. *)
Lemma chunk_words_120 words :
  length words = 120 →
  chunk_words words
  = [ Js.join " " (take 50 words);
      Js.join " " (take 50 (drop 50 words));
      Js.join " " (drop 100 words) ].
Proof.
  intros Hlen. unfold chunk_words.
  rewrite <- (take_drop 50 words) at 1.
  rewrite <- (take_drop 50 (drop 50 words)) at 1.
  rewrite drop_drop. change (50 + 50) with 100.
  assert (length (take 50 words) = 50) as H1 by (rewrite length_take; lia).
  assert (length (take 50 (drop 50 words)) = 50) as H2
    by (rewrite length_take, length_drop; lia).
  assert (length (drop 100 words) = 20) as H3 by (rewrite length_drop; lia).
  rewrite !fold_left_app.
  rewrite (chunk_loop_close (take 50 words) [] []);
    [|by destruct (take 50 words)|by rewrite H1].
  rewrite (chunk_loop_close (take 50 (drop 50 words)));
    [|by destruct (take 50 (drop 50 words))|by rewrite H2].
  rewrite chunk_loop_open by (rewrite H3; cbn [length]; lia).
  cbn [app]. rewrite H3. done.
Qed.

End chunks.

(** ** Running the handlers *)

(** The handlers are unfolded step by step; their tables and helpers stay
    folded. *)
Arguments Server1.presetPrompts : simpl never.
Arguments Server1.roleToVoice : simpl never.
Arguments Server2.presetPrompts : simpl never.
Arguments Part001.presetPrompts : simpl never.
Arguments Server1.roleConfig_of : simpl never.
Arguments Server2.roleConfig_of : simpl never.
Arguments Part001.roleConfig_of : simpl never.
Arguments Server1.chat_audio : simpl never.
Arguments Server2.chat_audio : simpl never.
Arguments Part001.chat_audio : simpl never.
Arguments Server1.init_audio : simpl never.
Arguments Server2.init_audio : simpl never.
Arguments Server1.completion_failed : simpl never.
Arguments Server2.completion_failed : simpl never.
Arguments Part001.ensure_introduction : simpl never.
Arguments clean_markdown : simpl never.
Arguments Js.slice_last : simpl never.
Arguments Js.or_else : simpl never.
Arguments Js.truthy : simpl never.
Arguments Js.includes : simpl never.
Arguments Js.split : simpl never.
Arguments Js.join : simpl never.
Arguments lookup_role : simpl never.
Arguments lookup_key : simpl never.
Arguments Object_prototype : simpl never.

(** A key that names an entry of the table evaluates to that entry; any
    other key evaluates to what [Object.prototype] has under it. *)
Lemma lookup_key_own {V} (table : gmap string V) key p :
  lookup_role table key = Some p → lookup_key table key = Some (own p).
Proof.
  unfold lookup_role, lookup_key, get_property. destruct key as [k|]; [|done].
  destruct (Js.truthy (Some k)); [|done]. by intros ->.
Qed.

Lemma lookup_key_inherited {V} (table : gmap string V) key :
  lookup_role table key = None →
  lookup_key table key = inherited <$> lookup_role Object_prototype key.
Proof.
  unfold lookup_role, lookup_key, get_property. destruct key as [k|]; [|done].
  destruct (Js.truthy (Some k)); [|done]. by intros ->.
Qed.

Lemma lookup_key_None {V} (table : gmap string V) key :
  lookup_key table key = None
  ↔ lookup_role table key = None ∧ lookup_role Object_prototype key = None.
Proof.
  destruct (lookup_role table key) as [p|] eqn:Hp.
  - rewrite (lookup_key_own _ _ _ Hp). by split; [|intros []].
  - rewrite (lookup_key_inherited _ _ Hp).
    destruct (lookup_role Object_prototype key); by split; [|intros []].
Qed.

Ltac step_handler :=
  unfold run, try_catch, respond, get_history, set_history, push_history,
    create_completion, require_content, fetch_speech, log_call, throw,
    mbind, handler_bind, mret, handler_ret.

Lemma with_calls_nil s : with_calls s [] = s.
Proof. destruct s. unfold with_calls. cbn. by rewrite app_nil_r. Qed.

Lemma truthy_message (m : string) : m ≠ "" → Js.truthy (Some m) = true.
Proof. by destruct m. Qed.

Section speech.

Context (w : world).

Lemma speech_only_ret {A} (a : A) : speech_only (mret a : handler A).
Proof.
  intros s. exists a, []. cbn. by rewrite with_calls_nil.
Qed.

Lemma Server1_generateSpeech_speech text voiceSettings voiceId :
  speech_only (Server1.generateSpeech w text voiceSettings voiceId).
Proof.
  intros s. unfold Server1.generateSpeech, read_settings. step_handler.
  destruct voiceSettings; cbn;
    first [ by (exists None, []; rewrite with_calls_nil)
          | match goal with |- context [elevenlabs w ?r] =>
              destruct (elevenlabs w r); eexists _, [r]; reflexivity end ].
Qed.

Lemma Server1_init_audio_speech role botResponse :
  speech_only (Server1.init_audio w role botResponse).
Proof.
  unfold Server1.init_audio. destruct (lookup_key _ _).
  - apply Server1_generateSpeech_speech.
  - apply speech_only_ret.
Qed.

Lemma Server1_chat_audio_speech req reply :
  speech_only (Server1.chat_audio w req reply).
Proof.
  unfold Server1.chat_audio. destruct (_ && _).
  - apply Server1_generateSpeech_speech.
  - apply speech_only_ret.
Qed.

(** [generateSpeech] of the later variants issues at most one call, changes
    no history, and may throw. *)
Lemma Server2_generateSpeech_run text voiceSettings voiceId s :
  ∃ o rs, Server2.generateSpeech w text voiceSettings voiceId s
          = (o, with_calls s (map speech_call rs)).
Proof.
  unfold Server2.generateSpeech, read_settings. step_handler.
  destruct (negb _).
  - eexists _, []. by rewrite with_calls_nil.
  - destruct voiceSettings; cbn;
      first [ by (eexists _, []; rewrite with_calls_nil)
            | match goal with |- context [elevenlabs w ?r] =>
                destruct (elevenlabs w r); eexists _, [r]; reflexivity end ].
Qed.

Lemma Server2_init_audio_speech botResponse :
  speech_only (Server2.init_audio w botResponse).
Proof.
  intros s. exists [], []. by rewrite with_calls_nil.
Qed.

Lemma Server2_chat_audio_speech req reply :
  speech_only (Server2.chat_audio w req reply).
Proof.
  unfold Server2.chat_audio. destruct (ttsEnabled req); [|apply speech_only_ret].
  intros s. step_handler.
  destruct (Server2_generateSpeech_run reply (voiceSettings req) (voiceId req) s)
    as (o & rs & ->).
  destruct o; eexists _, rs; reflexivity.
Qed.

Lemma with_calls_app s cs1 cs2 :
  with_calls (with_calls s cs1) cs2 = with_calls s (cs1 ++ cs2).
Proof. unfold with_calls. cbn. by rewrite app_assoc. Qed.

Lemma promise_all_generateSpeech voiceSettings voiceId chunks s :
  ∃ o rs,
    promise_all
      (map (fun chunk => Part001.generateSpeech w chunk voiceSettings voiceId) chunks) s
    = (o, with_calls s (map speech_call rs)).
Proof.
  revert s. induction chunks as [|chunk chunks IH]; intros s.
  - eexists _, []. cbn. by rewrite with_calls_nil.
  - cbn [map promise_all].
    destruct (Server2_generateSpeech_run chunk voiceSettings voiceId s)
      as (o1 & rs1 & H1).
    unfold Part001.generateSpeech. rewrite H1.
    destruct (IH (with_calls s (map speech_call rs1))) as (o2 & rs2 & H2).
    unfold Part001.generateSpeech in H2. rewrite H2.
    eexists _, (rs1 ++ rs2). by rewrite with_calls_app, map_app.
Qed.

Lemma Part001_chat_audio_speech req botResponse :
  speech_only (Part001.chat_audio w req botResponse).
Proof.
  unfold Part001.chat_audio. destruct (ttsEnabled req); [|apply speech_only_ret].
  intros s. step_handler.
  destruct (promise_all_generateSpeech (voiceSettings req) (voiceId req)
              (Part001.chunk_words (Js.split " " botResponse)) s)
    as (o & rs & ->).
  destruct o; eexists _, rs; reflexivity.
Qed.

End speech.

(** *** [/chat] *)

Ltac audio_step lem :=
  match goal with
  | |- context [?f ?w ?a ?b ?s] =>
      lazymatch type of (f w a b) with handler _ => idtac end;
      let x := fresh "audio" in
      let rs := fresh "rs" in
      let H := fresh "Haudio" in
      destruct (lem w a b s) as (x & rs & H); rewrite H; clear H
  end.

Ltac issued_request w :=
  match goal with |- context [groq_create w ?r] => exists r end.

Ltac fold_system :=
  try change {| role := Role.system; content := Some ?c |}
        with (turn Role.system c) in *.

Ltac close_server :=
  unfold with_calls, with_history, stored; cbn;
  rewrite ?insert_alter_eq, ?insert_insert_eq, <- ?app_assoc; reflexivity.

Lemma Server1_chat_missing w req s :
  message req = "" → run (Server1.post_chat w req) s = (message_required, s).
Proof. intros H. unfold Server1.post_chat. rewrite H. reflexivity. Qed.

Lemma Server1_chat_run w req s :
  message req ≠ "" →
  ∃ r0,
    messages r0
    = turn Role.system
        (as_text (system_of (Server1.roleConfig_of (selectedRole req)))
         +:+ " Always be concise and direct.")
      :: Js.slice_last 4 (stored s (sessionId req))
      ++ [turn Role.user (message req)]
    ∧ match groq_create w r0 with
      | Rejected e =>
          run (Server1.post_chat w req) s
          = run (Server1.completion_failed w e) (with_calls s [completion_call r0])
      | Resolved c =>
          let reply := Js.or_else c "Sorry, I couldn't generate a response." in
          ∃ audioUrl rs,
            run (Server1.post_chat w req) s
            = ({| status := 200; body := json_reply reply audioUrl |},
               with_history s (sessionId req)
                 (Js.slice_last 6
                    (stored s (sessionId req)
                     ++ [turn Role.user (message req); turn Role.assistant reply]))
                 (completion_call r0 :: map speech_call rs))
      end.
Proof.
  intros Hm. unfold Server1.post_chat. step_handler.
  rewrite (truthy_message _ Hm). cbn.
  issued_request w. split; [reflexivity|].
  destruct (groq_create w _) as [c|e]; cbn.
  - audio_step Server1_chat_audio_speech. eexists _, _. f_equal. close_server.
  - unfold Server1.completion_failed, with_calls. step_handler.
    by destruct (match error_message e with Some _ => _ | None => _ end).
Qed.

Lemma Server2_chat_missing w req s :
  message req = "" → run (Server2.post_chat w req) s = (message_required, s).
Proof. intros H. unfold Server2.post_chat. rewrite H. reflexivity. Qed.

Lemma Server2_chat_run w req s :
  message req ≠ "" →
  ∃ r0,
    messages r0
    = {| role := Role.system;
         content := system_of (Server2.roleConfig_of (selectedRole req)) |}
      :: stored s (sessionId req) ++ [turn Role.user (message req)]
    ∧ match groq_create w r0 with
      | Rejected e =>
          run (Server2.post_chat w req) s
          = run (Server2.completion_failed w e) (with_calls s [completion_call r0])
      | Resolved c =>
          let reply :=
            Js.or_else c "I apologize, but I couldn't generate a response at the moment." in
          ∃ audioUrl rs,
            run (Server2.post_chat w req) s
            = ({| status := 200; body := json_reply reply audioUrl |},
               with_history s (sessionId req)
                 (stored s (sessionId req)
                  ++ [turn Role.user (message req); turn Role.assistant reply])
                 (completion_call r0 :: map speech_call rs))
      end.
Proof.
  intros Hm. unfold Server2.post_chat. step_handler.
  rewrite (truthy_message _ Hm). cbn.
  issued_request w. split; [reflexivity|].
  destruct (groq_create w _) as [c|e]; cbn.
  - audio_step Server2_chat_audio_speech. eexists _, _. f_equal. close_server.
  - unfold Server2.completion_failed, with_calls. step_handler.
    by destruct (match error_message e with Some _ => _ | None => _ end).
Qed.

Lemma Part001_chat_missing w req s :
  message req = "" → run (Part001.post_chat w req) s = (message_required, s).
Proof. intros H. unfold Part001.post_chat. rewrite H. reflexivity. Qed.

Lemma Part001_chat_run w req s :
  message req ≠ "" →
  ∃ r0,
    messages r0
    = {| role := Role.system;
         content := system_of (Part001.roleConfig_of (selectedRole req)) |}
      :: stored s (sessionId req) ++ [turn Role.user (message req)]
    ∧ match groq_create w r0 with
      | Resolved (Some raw) =>
          let botResponse :=
            clean_markdown
              (Part001.ensure_introduction
                 (length (stored s (sessionId req)) =? 0)
                 (Part001.roleConfig_of (selectedRole req)) raw) in
          let s1 :=
            with_history s (sessionId req)
              (Js.slice_last 10
                 (stored s (sessionId req)
                  ++ [turn Role.user (message req); turn Role.assistant botResponse]))
              [completion_call r0] in
          ∃ audioChunks rs,
            Part001.chat_audio w req botResponse s1
            = (Resolved audioChunks, with_calls s1 (map speech_call rs))
            ∧ run (Part001.post_chat w req) s
              = ({| status := 200; body := json_text botResponse audioChunks |},
                 with_calls s1 (map speech_call rs))
      | _ =>
          run (Part001.post_chat w req) s
          = (processing_error, with_calls s [completion_call r0])
      end.
Proof.
  intros Hm. unfold Part001.post_chat. step_handler.
  rewrite (truthy_message _ Hm). cbn.
  issued_request w. split; [reflexivity|].
  destruct (groq_create w _) as [[raw|]|e]; cbn; [|done..].
  match goal with |- context [Part001.chat_audio w req ?b ?s1] =>
    destruct (Part001_chat_audio_speech w req b s1) as (a & rs & H) end.
  exists a, rs. unfold with_history, stored in *. cbn in *.
  split; [done|]. by rewrite H.
Qed.

(** The two answers to a failed completion call in [src/server.js]. *)
Lemma Server1_completion_failed_limited w e s :
  rate_limited e →
  run (Server1.completion_failed w e) s
  = ({| status := 429;
        body := json_error "Rate limit reached. Please try again in a few minutes."
                  (Some 60) None |}, s).
Proof.
  intros (m & Hm & Hin). unfold Server1.completion_failed. by rewrite Hm, Hin.
Qed.

Lemma Server1_completion_failed_other w e s :
  ¬ rate_limited e →
  run (Server1.completion_failed w e) s
  = ({| status := 500;
        body := json_error "Service temporarily unavailable. Please try again." None
                  (if decide (NODE_ENV w = Some "development")
                   then error_message e else None) |}, s).
Proof.
  intros Hno. unfold Server1.completion_failed.
  destruct (error_message e) as [m|] eqn:Hm; [|done].
  destruct (Js.includes _ m) eqn:Hin; [|done].
  destruct Hno. by exists m.
Qed.

Lemma Server2_completion_failed_limited w e s :
  rate_limited e →
  run (Server2.completion_failed w e) s
  = ({| status := 429;
        body := json_error "I'm currently experiencing high demand. Please try again in a few minutes. This helps ensure everyone can access the service fairly."
                  (Some 60) None |}, s).
Proof.
  intros (m & Hm & Hin). unfold Server2.completion_failed. by rewrite Hm, Hin.
Qed.

Lemma Server2_completion_failed_other w e s :
  ¬ rate_limited e →
  run (Server2.completion_failed w e) s
  = ({| status := 500;
        body := json_error "I'm having trouble processing your request right now. Please try again in a moment." None
                  (if decide (NODE_ENV w = Some "development")
                   then error_message e else None) |}, s).
Proof.
  intros Hno. unfold Server2.completion_failed.
  destruct (error_message e) as [m|] eqn:Hm; [|done].
  destruct (Js.includes _ m) eqn:Hin; [|done].
  destruct Hno. by exists m.
Qed.

(** *** [/init] *)

Lemma Server1_init_invalid w req s :
  lookup_key Server1.presetPrompts (init_role req) = None →
  run (Server1.post_init w req) s = (invalid_role, s).
Proof. intros H. unfold Server1.post_init. step_handler. by rewrite H. Qed.

Lemma Server1_init_run w req s p :
  lookup_role Server1.presetPrompts (init_role req) = Some p →
  ∃ r0,
    messages r0 = [turn Role.system (system p); turn Role.user greeting_request]
    ∧ match groq_create w r0 with
      | Resolved (Some raw) =>
          ∃ audioData rs,
            run (Server1.post_init w req) s
            = ({| status := 200;
                  body := json_init_data (clean_markdown raw) audioData |},
               with_history s (init_sessionId req) (seed p (clean_markdown raw))
                 (completion_call r0 :: map speech_call rs))
      | _ =>
          run (Server1.post_init w req) s
          = ({| status := 500;
                body := json_error "Error initializing AI role. Please try again." None None |},
             with_history s (init_sessionId req) [] [completion_call r0])
      end.
Proof.
  intros Hp. unfold Server1.post_init. step_handler.
  rewrite (lookup_key_own _ _ _ Hp). cbn.
  issued_request w. split; [reflexivity|].
  destruct (groq_create w _) as [[raw|]|e]; cbn; [|done..].
  audio_step Server1_init_audio_speech. eexists _, _. f_equal. close_server.
Qed.

Lemma Server2_init_invalid w req s :
  lookup_key Server2.presetPrompts (init_role req) = None →
  run (Server2.post_init w req) s = (invalid_role, s).
Proof. intros H. unfold Server2.post_init. step_handler. by rewrite H. Qed.

Lemma Server2_init_run w req s p :
  lookup_role Server2.presetPrompts (init_role req) = Some p →
  ∃ r0,
    messages r0 = [turn Role.system (system p); turn Role.user greeting_request]
    ∧ match groq_create w r0 with
      | Resolved (Some raw) =>
          run (Server2.post_init w req) s
          = ({| status := 200;
                body := json_init_chunks (clean_markdown raw) [] |},
             with_history s (init_sessionId req) (seed p (clean_markdown raw))
               [completion_call r0])
      | _ =>
          run (Server2.post_init w req) s
          = ({| status := 500;
                body := json_error "An error occurred while initializing the chat" None None |},
             with_history s (init_sessionId req) [] [completion_call r0])
      end.
Proof.
  intros Hp. unfold Server2.post_init. step_handler.
  rewrite (lookup_key_own _ _ _ Hp). cbn.
  issued_request w. split; [reflexivity|].
  destruct (groq_create w _) as [[raw|]|e]; cbn; [|done..].
  f_equal. close_server.
Qed.

(** ** Sequences of [/chat] requests *)

Lemma stored_with_calls s cs sid : stored (with_calls s cs) sid = stored s sid.
Proof. done. Qed.

Lemma stored_with_history s sid h cs sid' :
  stored (with_history s sid h cs) sid'
  = if decide (sid = sid') then h else stored s sid'.
Proof.
  unfold stored, with_history. cbn. case_decide as Heq.
  - subst. by rewrite lookup_insert_eq.
  - by rewrite lookup_insert_ne.
Qed.

Lemma capped_with_calls N s cs : capped N s → capped N (with_calls s cs).
Proof. done. Qed.

Lemma capped_with_history N s sid h cs :
  capped N s → length h ≤ N → capped N (with_history s sid h cs).
Proof.
  intros Hs Hh sid' h'. unfold with_history. cbn.
  destruct (decide (sid = sid')) as [->|Hne].
  - rewrite lookup_insert_eq. by intros [= <-].
  - rewrite lookup_insert_ne by done. apply Hs.
Qed.

Section serving.

Context (trim : list entry → list entry)
        (post_chat : world → chat_request → handler response).
Hypothesis effect : chat_effect trim post_chat.
Hypothesis trim_app : ∀ l k, trim (trim l ++ k) = trim (l ++ k).

Lemma trim_trim l : trim (trim l) = trim l.
Proof. by rewrite <- (app_nil_r (trim l)), trim_app, !app_nil_r. Qed.

(** One request: the session's history is the old one followed by the
    exchange, trimmed; the other sessions keep theirs. *)
Lemma chat_stored w req s sid :
  trim (stored s sid) = stored s sid →
  stored (run (post_chat w req) s).2 sid
  = trim (stored s sid
          ++ if decide (sessionId req = sid)
             then exchange req (run (post_chat w req) s).1 else []).
Proof.
  intros Hfix.
  destruct (effect w req s) as [[Hnone [cs ->]]|[cs ->]].
  - rewrite stored_with_calls, Hnone.
    destruct (decide _); by rewrite app_nil_r.
  - rewrite stored_with_history.
    destruct (decide _) as [->|_]; [done|by rewrite app_nil_r].
Qed.

Lemma serve_stored calls : ∀ s sid,
  trim (stored s sid) = stored s sid →
  stored (serve post_chat calls s).2 sid
  = trim (stored s sid ++ transcript sid calls (serve post_chat calls s).1).
Proof.
  induction calls as [|[w req] calls IH]; intros s sid Hfix.
  - cbn. by rewrite app_nil_r.
  - cbn [serve].
    pose proof (chat_stored w req s sid Hfix) as Hstep.
    destruct (run (post_chat w req) s) as [r s1] eqn:Hrun.
    specialize (IH s1 sid).
    destruct (serve post_chat calls s1) as [rs s2] eqn:Hserve.
    cbn [fst snd transcript] in *.
    rewrite IH by (rewrite Hstep; apply trim_trim).
    by rewrite Hstep, trim_app, app_assoc.
Qed.

Lemma serve_capped N calls : ∀ s,
  (∀ l, length (trim l) ≤ N) →
  capped N s → capped N (serve post_chat calls s).2.
Proof.
  induction calls as [|[w req] calls IH]; intros s Htrim Hs; [done|].
  cbn [serve].
  assert (capped N (run (post_chat w req) s).2) as Hstep.
  { destruct (effect w req s) as [[_ [cs ->]]|[cs ->]].
    - by apply capped_with_calls.
    - by apply capped_with_history. }
  destruct (run (post_chat w req) s) as [r s1].
  specialize (IH s1 Htrim Hstep).
  by destruct (serve post_chat calls s1) as [rs s2].
Qed.

End serving.

(** *** The effect of one request in each variant *)

Lemma Server1_completion_failed_error w e s req :
  (run (Server1.completion_failed w e) s).2 = s
  ∧ exchange req (run (Server1.completion_failed w e) s).1 = [].
Proof.
  unfold Server1.completion_failed.
  by destruct (match error_message e with Some _ => _ | None => _ end).
Qed.

Lemma Server2_completion_failed_error w e s req :
  (run (Server2.completion_failed w e) s).2 = s
  ∧ exchange req (run (Server2.completion_failed w e) s).1 = [].
Proof.
  unfold Server2.completion_failed.
  by destruct (match error_message e with Some _ => _ | None => _ end).
Qed.

Lemma Server1_chat_effect : chat_effect (Js.slice_last 6) Server1.post_chat.
Proof.
  intros w req s. destruct (decide (message req = "")) as [Hm|Hm].
  - rewrite (Server1_chat_missing w req s Hm). left.
    split; [done|]. exists []. by rewrite with_calls_nil.
  - destruct (Server1_chat_run w req s Hm) as (r0 & _ & Hrun).
    destruct (groq_create w r0) as [c|e].
    + destruct Hrun as (audioUrl & rs & ->). right. by eexists.
    + rewrite Hrun. left.
      destruct (Server1_completion_failed_error w e
                  (with_calls s [completion_call r0]) req) as [-> ->].
      split; [done|]. by eexists.
Qed.

Lemma Server2_chat_effect : chat_effect (fun h => h) Server2.post_chat.
Proof.
  intros w req s. destruct (decide (message req = "")) as [Hm|Hm].
  - rewrite (Server2_chat_missing w req s Hm). left.
    split; [done|]. exists []. by rewrite with_calls_nil.
  - destruct (Server2_chat_run w req s Hm) as (r0 & _ & Hrun).
    destruct (groq_create w r0) as [c|e].
    + destruct Hrun as (audioUrl & rs & ->). right. by eexists.
    + rewrite Hrun. left.
      destruct (Server2_completion_failed_error w e
                  (with_calls s [completion_call r0]) req) as [-> ->].
      split; [done|]. by eexists.
Qed.

Lemma Part001_chat_effect : chat_effect (Js.slice_last 10) Part001.post_chat.
Proof.
  intros w req s. destruct (decide (message req = "")) as [Hm|Hm].
  - rewrite (Part001_chat_missing w req s Hm). left.
    split; [done|]. exists []. by rewrite with_calls_nil.
  - destruct (Part001_chat_run w req s Hm) as (r0 & _ & Hrun).
    destruct (groq_create w r0) as [[raw|]|e];
      [|rewrite Hrun; left; split; [done|by eexists]..].
    destruct Hrun as (audioChunks & rs & _ & ->). right.
    exists (completion_call r0 :: map speech_call rs).
    unfold with_calls, with_history. cbn. by rewrite <- app_assoc.
Qed.

(** ** The calls of a run *)

Lemma new_calls_with_calls s cs : new_calls s (with_calls s cs) = cs.
Proof. unfold new_calls, with_calls. cbn. by rewrite drop_app_length. Qed.

Lemma new_calls_with_history s sid h cs :
  new_calls s (with_history s sid h cs) = cs.
Proof. unfold new_calls, with_history. cbn. by rewrite drop_app_length. Qed.

Lemma new_calls_same s : new_calls s s = [].
Proof. unfold new_calls. by rewrite drop_all. Qed.

Lemma speech_calls_map rs : speech_calls (map speech_call rs) = rs.
Proof. induction rs as [|r rs IH]; [done|]. cbn. by f_equal. Qed.

Lemma completion_calls_map rs : completion_calls (map speech_call rs) = [].
Proof. by induction rs. Qed.

(** ** The audio steps, exactly *)

Section audio.

Context (w : world).

Lemma Server1_generateSpeech_eq text voiceSettings voiceId s :
  Server1.generateSpeech w text voiceSettings voiceId s
  = if is_null voiceSettings
    then (Resolved None, s)
    else
      let q := speech_of_Server1 voiceId text (settings_value voiceSettings) in
      (Resolved (data_url <$> elevenlabs w q), with_calls s [speech_call q]).
Proof.
  unfold Server1.generateSpeech, speech_of_Server1, read_settings. step_handler.
  destruct voiceSettings; cbn; [|done|]; by destruct (elevenlabs w _).
Qed.

Lemma Server1_chat_audio_eq req reply s :
  Server1.chat_audio w req reply s
  = if ttsEnabled req && Js.truthy (voiceId req) && negb (is_null (voiceSettings req))
    then
      let q := speech_of_Server1 (Js.or_else (voiceId req) "") reply
                 (settings_value (voiceSettings req)) in
      (Resolved (data_url <$> elevenlabs w q), with_calls s [speech_call q])
    else (Resolved None, s).
Proof.
  unfold Server1.chat_audio. destruct (_ && _); [|done].
  rewrite Server1_generateSpeech_eq. by destruct (is_null _).
Qed.

Lemma Server2_generateSpeech_eq text voiceSettings voiceId s :
  Server2.generateSpeech w text voiceSettings voiceId s
  = let voice := Server2.selectedVoiceId_of w voiceId in
    if Js.truthy voice
    then
      if is_null voiceSettings
      then
        (Rejected {| error_message := Some "Cannot read properties of null (reading 'stability')" |}, s)
      else
        let q := Server2.speech_fetch voice text (settings_value voiceSettings) in
        (match elevenlabs w q with
         | Some mpeg => Resolved mpeg
         | None => Rejected {| error_message := Some "ElevenLabs API error" |}
         end, with_calls s [speech_call q])
    else
      (Rejected {| error_message := Some "Voice ID is required. Please set ELEVENLABS_VOICE_ID in .env or provide a voice ID." |}, s).
Proof.
  unfold Server2.generateSpeech, read_settings. cbv zeta.
  destruct (Js.truthy _); [|done]. step_handler.
  destruct voiceSettings; cbn; [|done|]; by destruct (elevenlabs w _).
Qed.

Lemma Server2_chat_audio_eq req reply s :
  Server2.chat_audio w req reply s
  = let voice := Server2.selectedVoiceId_of w (voiceId req) in
    if ttsEnabled req && Js.truthy voice && negb (is_null (voiceSettings req))
    then
      let q := Server2.speech_fetch voice reply (settings_value (voiceSettings req)) in
      (Resolved (buffer <$> elevenlabs w q), with_calls s [speech_call q])
    else (Resolved None, s).
Proof.
  unfold Server2.chat_audio. cbv zeta.
  destruct (ttsEnabled req); [|done]. unfold try_catch, mbind, handler_bind.
  rewrite Server2_generateSpeech_eq. cbv zeta.
  destruct (Js.truthy _); [|done]. destruct (is_null _); [done|]. cbn.
  by destruct (elevenlabs w _).
Qed.

(** With a voice at hand, [Promise.all] over the chunks issues one call per
    chunk, in order, and resolves when every call succeeds. *)
Lemma promise_all_with_voice voiceSettings voiceId chunks s :
  Js.truthy (Server2.selectedVoiceId_of w voiceId) = true →
  is_null voiceSettings = false →
  let mk := fun chunk =>
    Server2.speech_fetch (Server2.selectedVoiceId_of w voiceId) chunk
      (settings_value voiceSettings) in
  promise_all
    (map (fun chunk => Part001.generateSpeech w chunk voiceSettings voiceId) chunks) s
  = (match mapM (fun chunk => elevenlabs w (mk chunk)) chunks with
     | Some l => Resolved l
     | None => Rejected {| error_message := Some "ElevenLabs API error" |}
     end,
     with_calls s (map (fun chunk => speech_call (mk chunk)) chunks)).
Proof.
  intros Hvoice Hnull. cbv zeta. revert s.
  induction chunks as [|chunk chunks IH]; intros s.
  - cbn. by rewrite with_calls_nil.
  - cbn [map promise_all]. unfold Part001.generateSpeech at 1.
    rewrite Server2_generateSpeech_eq. cbv zeta. rewrite Hvoice, Hnull.
    rewrite IH, with_calls_app. cbn [app].
    change (mapM ?f (chunk :: chunks))
      with (y ← f chunk; k ← mapM f chunks; mret (y :: k)).
    cbv beta.
    destruct (elevenlabs w (Server2.speech_fetch _ chunk _)); cbn;
      [by destruct (mapM _ _)|done].
Qed.

(** Without a voice, or with [null] for settings, no call is issued, and the
    whole fails unless there is no chunk at all. *)
Lemma promise_all_without_voice voiceSettings voiceId chunks s :
  Js.truthy (Server2.selectedVoiceId_of w voiceId) && negb (is_null voiceSettings)
  = false →
  ∃ o,
    promise_all
      (map (fun chunk => Part001.generateSpeech w chunk voiceSettings voiceId) chunks) s
    = (o, s)
    ∧ match o with Resolved l => l = [] | Rejected _ => True end.
Proof.
  intros Hvoice. induction chunks as [|chunk chunks (o & IH & Ho)].
  - by exists (Resolved []).
  - cbn [map promise_all]. unfold Part001.generateSpeech at 1.
    rewrite Server2_generateSpeech_eq. cbv zeta.
    destruct (Js.truthy _); [destruct (is_null _); [|done]|];
      rewrite IH; by eexists.
Qed.

Lemma Part001_chat_audio_eq req text s :
  Part001.chat_audio w req text s
  = if ttsEnabled req && Js.truthy (Server2.selectedVoiceId_of w (voiceId req))
       && negb (is_null (voiceSettings req))
    then
      (Resolved
         match mapM (elevenlabs w) (speech_of_Part001 w req text) with
         | Some l => map data_url l
         | None => []
         end,
       with_calls s (map speech_call (speech_of_Part001 w req text)))
    else (Resolved [], s).
Proof.
  unfold Part001.chat_audio. destruct (ttsEnabled req); [|done]. cbn [andb].
  unfold try_catch, mbind, handler_bind. cbv zeta.
  destruct (Js.truthy _ && negb _) eqn:Hvoice.
  - apply andb_true_iff in Hvoice as [Hvoice Hnull].
    apply negb_true_iff in Hnull.
    rewrite (promise_all_with_voice _ _ _ _ Hvoice Hnull). cbv zeta.
    unfold speech_of_Part001. rewrite map_map.
    replace (mapM (elevenlabs w) (map _ _))
      with (mapM (fun chunk => elevenlabs w
                    (Server2.speech_fetch (Server2.selectedVoiceId_of w (voiceId req))
                       chunk (settings_value (voiceSettings req))))
              (Part001.chunk_words (Js.split " " text))).
    + by destruct (mapM _ _).
    + generalize (Part001.chunk_words (Js.split " " text)).
      intros l. induction l as [|c l IH]; [done|]. cbn. by rewrite IH.
  - destruct (promise_all_without_voice (voiceSettings req) (voiceId req)
                (Part001.chunk_words (Js.split " " text)) s Hvoice)
      as (o & -> & Ho).
    destruct o as [l|e]; [|done]. by rewrite Ho.
Qed.

End audio.

(** ** The handlers, exactly *)

Lemma Server1_chat_full w req s :
  message req ≠ "" →
  let h := stored s (sessionId req) in
  let r0 := completion_of_Server1 h req in
  match groq_create w r0 with
  | Rejected e =>
      run (Server1.post_chat w req) s
      = run (Server1.completion_failed w e) (with_calls s [completion_call r0])
  | Resolved c =>
      let reply := Js.or_else c "Sorry, I couldn't generate a response." in
      let s1 :=
        with_history s (sessionId req)
          (Js.slice_last 6
             (h ++ [turn Role.user (message req); turn Role.assistant reply]))
          [completion_call r0] in
      run (Server1.post_chat w req) s
      = ({| status := 200;
            body := json_reply reply
                      (resolved_or None (Server1.chat_audio w req reply s1).1) |},
         (Server1.chat_audio w req reply s1).2)
  end.
Proof.
  intros Hm. cbv zeta. unfold Server1.post_chat. step_handler.
  rewrite (truthy_message _ Hm). cbn.
  fold (stored s (sessionId req)).
  change {| messages := _; completion_model := _; max_tokens := _ |}
    with (completion_of_Server1 (stored s (sessionId req)) req).
  destruct (groq_create w _) as [c|e]; cbn.
  - match goal with |- context [Server1.chat_audio w req ?b ?s1] =>
      destruct (Server1_chat_audio_speech w req b s1) as (a & rs & Ha) end.
    unfold with_history, stored in *. cbn in *.
    rewrite !insert_alter_eq in Ha |- *. by rewrite Ha.
  - unfold Server1.completion_failed, with_calls. step_handler.
    by destruct (match error_message e with Some _ => _ | None => _ end).
Qed.

Lemma Server2_chat_full w req s :
  message req ≠ "" →
  let h := stored s (sessionId req) in
  let r0 := completion_of_Server2 h req in
  match groq_create w r0 with
  | Rejected e =>
      run (Server2.post_chat w req) s
      = run (Server2.completion_failed w e) (with_calls s [completion_call r0])
  | Resolved c =>
      let reply :=
        Js.or_else c "I apologize, but I couldn't generate a response at the moment." in
      let s1 :=
        with_history s (sessionId req)
          (h ++ [turn Role.user (message req); turn Role.assistant reply])
          [completion_call r0] in
      run (Server2.post_chat w req) s
      = ({| status := 200;
            body := json_reply reply
                      (resolved_or None (Server2.chat_audio w req reply s1).1) |},
         (Server2.chat_audio w req reply s1).2)
  end.
Proof.
  intros Hm. cbv zeta. unfold Server2.post_chat. step_handler.
  rewrite (truthy_message _ Hm). cbn.
  fold (stored s (sessionId req)).
  change {| messages := _; completion_model := _; max_tokens := _ |}
    with (completion_of_Server2 (stored s (sessionId req)) req).
  destruct (groq_create w _) as [c|e]; cbn.
  - match goal with |- context [Server2.chat_audio w req ?b ?s1] =>
      destruct (Server2_chat_audio_speech w req b s1) as (a & rs & Ha) end.
    unfold with_history, stored in *. cbn in *.
    rewrite !insert_alter_eq in Ha |- *. by rewrite Ha.
  - unfold Server2.completion_failed, with_calls. step_handler.
    by destruct (match error_message e with Some _ => _ | None => _ end).
Qed.

Lemma Part001_chat_full w req s :
  message req ≠ "" →
  let h := stored s (sessionId req) in
  let r0 := completion_of_Part001 h req in
  match groq_create w r0 with
  | Resolved (Some raw) =>
      let text :=
        clean_markdown
          (Part001.ensure_introduction (length h =? 0)
             (Part001.roleConfig_of (selectedRole req)) raw) in
      let s1 :=
        with_history s (sessionId req)
          (Js.slice_last 10
             (h ++ [turn Role.user (message req); turn Role.assistant text]))
          [completion_call r0] in
      run (Part001.post_chat w req) s
      = ({| status := 200;
            body := json_text text
                      (resolved_or [] (Part001.chat_audio w req text s1).1) |},
         (Part001.chat_audio w req text s1).2)
  | _ =>
      run (Part001.post_chat w req) s
      = (processing_error, with_calls s [completion_call r0])
  end.
Proof.
  intros Hm. cbv zeta. unfold Part001.post_chat. step_handler.
  rewrite (truthy_message _ Hm). cbn.
  fold (stored s (sessionId req)).
  change {| messages := _; completion_model := _; max_tokens := _ |}
    with (completion_of_Part001 (stored s (sessionId req)) req).
  destruct (groq_create w _) as [[raw|]|e]; cbn; [|done..].
  match goal with |- context [Part001.chat_audio w req ?b ?s1] =>
    destruct (Part001_chat_audio_speech w req b s1) as (a & rs & Ha) end.
  unfold with_history, stored in *. cbn in *. by rewrite Ha.
Qed.

Lemma Server1_init_served w req s roleConfig :
  lookup_key Server1.presetPrompts (init_role req) = Some roleConfig →
  let r0 := completion_of_config roleConfig in
  match groq_create w r0 with
  | Resolved (Some raw) =>
      let greeting := clean_markdown raw in
      let s1 :=
        with_history s (init_sessionId req) (seed_of roleConfig greeting)
          [completion_call r0] in
      run (Server1.post_init w req) s
      = ({| status := 200;
            body := json_init_data greeting
                      (resolved_or None
                         (Server1.init_audio w (init_role req) greeting s1).1) |},
         (Server1.init_audio w (init_role req) greeting s1).2)
  | _ =>
      run (Server1.post_init w req) s
      = ({| status := 500;
            body := json_error "Error initializing AI role. Please try again." None None |},
         with_history s (init_sessionId req) [] [completion_call r0])
  end.
Proof.
  intros Hp. cbv zeta. unfold Server1.post_init. step_handler.
  rewrite Hp. cbn.
  change {| messages := _; completion_model := _; max_tokens := _ |}
    with (completion_of_config roleConfig).
  destruct (groq_create w _) as [[raw|]|e]; cbn; [|done..].
  match goal with |- context [Server1.init_audio w ?a ?b ?s1] =>
    destruct (Server1_init_audio_speech w a b s1) as (x & rs & Ha) end.
  unfold with_history, seed_of in *. cbn in *.
  rewrite !insert_insert_eq in Ha |- *. by rewrite Ha.
Qed.

Lemma Server2_init_served w req s roleConfig :
  lookup_key Server2.presetPrompts (init_role req) = Some roleConfig →
  let r0 := completion_of_config roleConfig in
  match groq_create w r0 with
  | Resolved (Some raw) =>
      run (Server2.post_init w req) s
      = ({| status := 200;
            body := json_init_chunks (clean_markdown raw) [] |},
         with_history s (init_sessionId req) (seed_of roleConfig (clean_markdown raw))
           [completion_call r0])
  | _ =>
      run (Server2.post_init w req) s
      = ({| status := 500;
            body := json_error "An error occurred while initializing the chat" None None |},
         with_history s (init_sessionId req) [] [completion_call r0])
  end.
Proof.
  intros Hp. cbv zeta. unfold Server2.post_init. step_handler.
  rewrite Hp. cbn.
  change {| messages := _; completion_model := _; max_tokens := _ |}
    with (completion_of_config roleConfig).
  destruct (groq_create w _) as [[raw|]|e]; cbn; [|done..].
  f_equal. unfold seed_of. close_server.
Qed.

Lemma Server1_init_full w req s p :
  lookup_role Server1.presetPrompts (init_role req) = Some p →
  match groq_create w (completion_of_init p) with
  | Resolved (Some raw) =>
      let greeting := clean_markdown raw in
      let s1 :=
        with_history s (init_sessionId req) (seed p greeting)
          [completion_call (completion_of_init p)] in
      run (Server1.post_init w req) s
      = ({| status := 200;
            body := json_init_data greeting
                      (resolved_or None
                         (Server1.init_audio w (init_role req) greeting s1).1) |},
         (Server1.init_audio w (init_role req) greeting s1).2)
  | _ =>
      run (Server1.post_init w req) s
      = ({| status := 500;
            body := json_error "Error initializing AI role. Please try again." None None |},
         with_history s (init_sessionId req) [] [completion_call (completion_of_init p)])
  end.
Proof.
  intros Hp. unfold Server1.post_init. step_handler.
  rewrite (lookup_key_own _ _ _ Hp). cbn.
  change {| messages := _; completion_model := _; max_tokens := _ |}
    with (completion_of_init p).
  destruct (groq_create w _) as [[raw|]|e]; cbn; [|done..].
  match goal with |- context [Server1.init_audio w ?a ?b ?s1] =>
    destruct (Server1_init_audio_speech w a b s1) as (x & rs & Ha) end.
  unfold with_history, seed in *. cbn in *. fold_system.
  rewrite !insert_insert_eq in Ha |- *. by rewrite Ha.
Qed.

Lemma Server2_init_full w req s p :
  lookup_role Server2.presetPrompts (init_role req) = Some p →
  match groq_create w (completion_of_init p) with
  | Resolved (Some raw) =>
      run (Server2.post_init w req) s
      = ({| status := 200;
            body := json_init_chunks (clean_markdown raw) [] |},
         with_history s (init_sessionId req) (seed p (clean_markdown raw))
           [completion_call (completion_of_init p)])
  | _ =>
      run (Server2.post_init w req) s
      = ({| status := 500;
            body := json_error "An error occurred while initializing the chat" None None |},
         with_history s (init_sessionId req) [] [completion_call (completion_of_init p)])
  end.
Proof.
  intros Hp. unfold Server2.post_init. step_handler.
  rewrite (lookup_key_own _ _ _ Hp). cbn.
  change {| messages := _; completion_model := _; max_tokens := _ |}
    with (completion_of_init p).
  destruct (groq_create w _) as [[raw|]|e]; cbn; [|done..].
  f_equal. close_server.
Qed.

(** The first outbound call of a [/chat] request that carries a message is
    the completion call. *)
Lemma Server1_chat_first_call w req s :
  message req ≠ "" →
  head (new_calls s (run (Server1.post_chat w req) s).2)
  = Some (completion_call (completion_of_Server1 (stored s (sessionId req)) req)).
Proof.
  intros Hm. pose proof (Server1_chat_full w req s Hm) as H. cbv zeta in H.
  destruct (groq_create w _) as [c|e]; rewrite H.
  - match goal with |- context [Server1.chat_audio w req ?b ?s1] =>
      destruct (Server1_chat_audio_speech w req b s1) as (a & rs & ->) end.
    unfold new_calls, with_calls, with_history. cbn.
    by rewrite <- app_assoc, drop_app_length.
  - destruct (Server1_completion_failed_error w e
                (with_calls s
                   [completion_call
                      (completion_of_Server1 (stored s (sessionId req)) req)])
                req) as [-> _].
    by rewrite new_calls_with_calls.
Qed.

Lemma Server2_chat_first_call w req s :
  message req ≠ "" →
  head (new_calls s (run (Server2.post_chat w req) s).2)
  = Some (completion_call (completion_of_Server2 (stored s (sessionId req)) req)).
Proof.
  intros Hm. pose proof (Server2_chat_full w req s Hm) as H. cbv zeta in H.
  destruct (groq_create w _) as [c|e]; rewrite H.
  - match goal with |- context [Server2.chat_audio w req ?b ?s1] =>
      destruct (Server2_chat_audio_speech w req b s1) as (a & rs & ->) end.
    unfold new_calls, with_calls, with_history. cbn.
    by rewrite <- app_assoc, drop_app_length.
  - destruct (Server2_completion_failed_error w e
                (with_calls s
                   [completion_call
                      (completion_of_Server2 (stored s (sessionId req)) req)])
                req) as [-> _].
    by rewrite new_calls_with_calls.
Qed.

Lemma Part001_chat_first_call w req s :
  message req ≠ "" →
  head (new_calls s (run (Part001.post_chat w req) s).2)
  = Some (completion_call (completion_of_Part001 (stored s (sessionId req)) req)).
Proof.
  intros Hm. pose proof (Part001_chat_full w req s Hm) as H. cbv zeta in H.
  destruct (groq_create w _) as [[raw|]|e]; rewrite H;
    [|cbn [snd]; by rewrite new_calls_with_calls..].
  match goal with |- context [Part001.chat_audio w req ?b ?s1] =>
    destruct (Part001_chat_audio_speech w req b s1) as (a & rs & ->) end.
  unfold new_calls, with_calls, with_history. cbn.
  by rewrite <- app_assoc, drop_app_length.
Qed.

(** ** The claims *)

(** C1, as stated, fails in the second copy of [src/server.js]: six answered
    requests on one session leave twelve turns stored, more than any cap
    from 6 to 10. *)
Lemma history_not_capped_second_copy :
  let calls := replicate 6 (answering "Sure.", ask "s1" "Hi") in
  let s := (serve Server2.post_chat calls empty_server).2 in
  length (stored s (Some "s1")) = 12 ∧ ¬ capped 10 s.
Proof.
  cbv zeta. split; [by vm_compute|].
  intros Hcap.
  specialize (Hcap (Some "s1") (stored (serve Server2.post_chat
    (replicate 6 (answering "Sure.", ask "s1" "Hi")) empty_server).2 (Some "s1"))).
  assert (length (stored (serve Server2.post_chat
    (replicate 6 (answering "Sure.", ask "s1" "Hi")) empty_server).2 (Some "s1")) ≤ 10)
    as Hlen by (apply Hcap; by vm_compute).
  vm_compute in Hlen. lia.
Qed.

(** C1, amended.  In the first copy of [src/server.js] (cap 6) and in
    [part_001] (cap 10), whatever sequence of [/chat] requests is served: no
    session ever holds more turns than the cap, and the history of a session
    is the last 6 (resp. 10) of its earlier turns followed, in order, by the
    exchanges of the requests answered for it.  The second copy of
    [src/server.js] has no cap: the history is the earlier turns followed by
    every exchange. *)
Theorem history_cap :
  (∀ calls s, capped 6 s → capped 6 (serve Server1.post_chat calls s).2)
  ∧ (∀ calls s, capped 10 s → capped 10 (serve Part001.post_chat calls s).2)
  ∧ (∀ calls s sid,
       length (stored s sid) ≤ 6 →
       stored (serve Server1.post_chat calls s).2 sid
       = Js.slice_last 6
           (stored s sid
            ++ transcript sid calls (serve Server1.post_chat calls s).1))
  ∧ (∀ calls s sid,
       length (stored s sid) ≤ 10 →
       stored (serve Part001.post_chat calls s).2 sid
       = Js.slice_last 10
           (stored s sid
            ++ transcript sid calls (serve Part001.post_chat calls s).1))
  ∧ (∀ calls s sid,
       stored (serve Server2.post_chat calls s).2 sid
       = stored s sid
         ++ transcript sid calls (serve Server2.post_chat calls s).1).
Proof.
  repeat split.
  - intros calls s. apply (serve_capped _ _ Server1_chat_effect).
    apply slice_last_bound.
  - intros calls s. apply (serve_capped _ _ Part001_chat_effect).
    apply slice_last_bound.
  - intros calls s sid Hlen.
    apply (serve_stored _ _ Server1_chat_effect); [apply slice_last_app|].
    by apply slice_last_short.
  - intros calls s sid Hlen.
    apply (serve_stored _ _ Part001_chat_effect); [apply slice_last_app|].
    by apply slice_last_short.
  - intros calls s sid.
    by apply (serve_stored _ _ Server2_chat_effect).
Qed.

Lemma history_cap_witness :
  let calls := replicate 4 (answering "Sure.", ask "s1" "Hi") in
  capped 6 (serve Server1.post_chat calls empty_server).2
  ∧ length (stored (serve Part001.post_chat calls empty_server).2 (Some "s1")) = 8.
Proof.
  cbv zeta. split.
  - apply (proj1 history_cap). intros sid h Hh. by vm_compute in Hh.
  - rewrite (proj1 (proj2 (proj2 (proj2 history_cap)))) by (vm_compute; lia).
    by vm_compute.
Defined.

(** The first call logged after [s] identifies the request that was issued. *)
Lemma first_call_inj s r cs r' cs' (s' : server) :
  outbound s' = outbound s ++ completion_call r :: cs →
  outbound s' = outbound s ++ completion_call r' :: cs' →
  r = r'.
Proof.
  intros -> H. apply app_inv_head in H. by injection H.
Qed.

Lemma outbound_with_history s sid h cs :
  outbound (with_history s sid h cs) = outbound s ++ cs.
Proof. done. Qed.

Lemma outbound_with_calls s cs : outbound (with_calls s cs) = outbound s ++ cs.
Proof. done. Qed.

Lemma outbound_unchanged s r cs : outbound s ≠ outbound s ++ completion_call r :: cs.
Proof.
  intros H. apply (f_equal length) in H. rewrite length_app in H.
  cbn in H. lia.
Qed.

(** C2, as stated, fails on the greeting being non-empty: a completion made
    of emphasis markers only is cleaned to the empty text, which [/init]
    stores and returns with status 200. *)
Lemma init_greeting_may_be_empty :
  let req := {| init_role := Some "doctor"; init_sessionId := Some "s1" |} in
  let r1 := (run (Server1.post_init (answering "**") req) empty_server).1 in
  let r2 := (run (Part001.post_init (answering "**") req) empty_server).1 in
  is_Some (lookup_role Server1.presetPrompts (init_role req))
  ∧ status r1 = 200 ∧ body r1 = json_init_data "" None
  ∧ status r2 = 200 ∧ body r2 = json_init_chunks "" [].
Proof. cbv zeta. split; [by eexists|]. by vm_compute. Qed.

(** C2, amended.  For every role key that resolves to a persona and every
    session, after an [/init] that answers with status 200 the stored history
    of the session is exactly the three turns system prompt, greeting
    request, greeting; the greeting returned is the completion's text with
    every asterisk removed, hence free of asterisks.  (It is empty when the
    completion holds nothing else.) *)
Theorem init_seeds_history w req s :
  (∀ p, lookup_role Server1.presetPrompts (init_role req) = Some p →
        status (run (Server1.post_init w req) s).1 = 200 →
        ∃ r0 raw audioData,
          groq_create w r0 = Resolved (Some raw)
          ∧ body (run (Server1.post_init w req) s).1
            = json_init_data (without_stars raw) audioData
          ∧ chatHistory (run (Server1.post_init w req) s).2 !! init_sessionId req
            = Some (seed p (without_stars raw))
          ∧ length (seed p (without_stars raw)) = 3
          ∧ Js.includes "*" (without_stars raw) = false)
  ∧ (∀ p, lookup_role Server2.presetPrompts (init_role req) = Some p →
        status (run (Server2.post_init w req) s).1 = 200 →
        ∃ r0 raw,
          groq_create w r0 = Resolved (Some raw)
          ∧ body (run (Server2.post_init w req) s).1
            = json_init_chunks (without_stars raw) []
          ∧ chatHistory (run (Server2.post_init w req) s).2 !! init_sessionId req
            = Some (seed p (without_stars raw))
          ∧ length (seed p (without_stars raw)) = 3
          ∧ Js.includes "*" (without_stars raw) = false)
  ∧ (∀ p, lookup_role Part001.presetPrompts (init_role req) = Some p →
        status (run (Part001.post_init w req) s).1 = 200 →
        ∃ r0 raw,
          groq_create w r0 = Resolved (Some raw)
          ∧ body (run (Part001.post_init w req) s).1
            = json_init_chunks (without_stars raw) []
          ∧ chatHistory (run (Part001.post_init w req) s).2 !! init_sessionId req
            = Some (seed p (without_stars raw))
          ∧ length (seed p (without_stars raw)) = 3
          ∧ Js.includes "*" (without_stars raw) = false).
Proof.
  assert (∀ p, lookup_role Server2.presetPrompts (init_role req) = Some p →
        status (run (Server2.post_init w req) s).1 = 200 →
        ∃ r0 raw,
          groq_create w r0 = Resolved (Some raw)
          ∧ body (run (Server2.post_init w req) s).1
            = json_init_chunks (without_stars raw) []
          ∧ chatHistory (run (Server2.post_init w req) s).2 !! init_sessionId req
            = Some (seed p (without_stars raw))
          ∧ length (seed p (without_stars raw)) = 3
          ∧ Js.includes "*" (without_stars raw) = false) as H2.
  { intros p Hp Hok.
    destruct (Server2_init_run w req s p Hp) as (r0 & _ & Hrun).
    destruct (groq_create w r0) as [[raw|]|e] eqn:Hr0;
      rewrite Hrun in Hok |- *; [|done..].
    exists r0, raw. rewrite clean_markdown_without_stars.
    split_and!; first [done|apply without_stars_no_star|apply lookup_insert_eq]. }
  split; [|by split].
  intros p Hp Hok.
  destruct (Server1_init_run w req s p Hp) as (r0 & _ & Hrun).
  destruct (groq_create w r0) as [[raw|]|e] eqn:Hr0;
    [destruct Hrun as (audioData & rs & Hrun)|..];
    rewrite Hrun in Hok |- *; [|done..].
  exists r0, raw, audioData. rewrite clean_markdown_without_stars.
  split_and!; first [done|apply without_stars_no_star|apply lookup_insert_eq].
Qed.

Lemma init_seeds_history_witness :
  let w := answering "I'm **Dr. Chen**." in
  let req := {| init_role := Some "doctor"; init_sessionId := Some "s1" |} in
  ∃ r0 raw,
    groq_create w r0 = Resolved (Some raw)
    ∧ body (run (Part001.post_init w req) empty_server).1
      = json_init_chunks (without_stars raw) []
    ∧ chatHistory (run (Part001.post_init w req) empty_server).2 !! init_sessionId req
      = Some (seed {| name := "Dr. Sarah Chen";
                      system := "You are Dr. Sarah Chen, working for SOOD. You are a board-certified physician with expertise in internal medicine and preventive healthcare. Never mention being an 'AI assistant' - just be Dr. Chen. Provide clear, accurate medical information while maintaining a compassionate and professional tone." |}
                (without_stars raw))
    ∧ length (seed {| name := "Dr. Sarah Chen";
                      system := "You are Dr. Sarah Chen, working for SOOD. You are a board-certified physician with expertise in internal medicine and preventive healthcare. Never mention being an 'AI assistant' - just be Dr. Chen. Provide clear, accurate medical information while maintaining a compassionate and professional tone." |}
                (without_stars raw)) = 3
    ∧ Js.includes "*" (without_stars raw) = false.
Proof.
  cbv zeta.
  apply (proj2 (proj2 (init_seeds_history _ _ _))); by vm_compute.
Defined.

(** *** Failures of the completion API *)

(** C9.  When [/init] is called with a role key that names a persona of
    the registry and the completion API rejects the call made for that
    persona, the answer is the 500 of the variant, the rejected call is the
    only outbound call of the request, and the session's history has been
    replaced by the empty one all the same, whatever it held before. *)
Theorem init_failure_clears_history w req s e :
  (∀ p, lookup_role Server1.presetPrompts (init_role req) = Some p →
        groq_create w (completion_of_init p) = Rejected e →
        (run (Server1.post_init w req) s).1
        = {| status := 500;
             body := json_error "Error initializing AI role. Please try again."
                       None None |}
        ∧ chatHistory (run (Server1.post_init w req) s).2
          = <[init_sessionId req := []]> (chatHistory s)
        ∧ outbound (run (Server1.post_init w req) s).2
          = outbound s ++ [completion_call (completion_of_init p)])
  ∧ (∀ p, lookup_role Server2.presetPrompts (init_role req) = Some p →
          groq_create w (completion_of_init p) = Rejected e →
          (run (Server2.post_init w req) s).1
          = {| status := 500;
               body := json_error "An error occurred while initializing the chat"
                         None None |}
          ∧ chatHistory (run (Server2.post_init w req) s).2
            = <[init_sessionId req := []]> (chatHistory s)
          ∧ outbound (run (Server2.post_init w req) s).2
            = outbound s ++ [completion_call (completion_of_init p)])
  ∧ (∀ p, lookup_role Part001.presetPrompts (init_role req) = Some p →
          groq_create w (completion_of_init p) = Rejected e →
          (run (Part001.post_init w req) s).1
          = {| status := 500;
               body := json_error "An error occurred while initializing the chat"
                         None None |}
          ∧ chatHistory (run (Part001.post_init w req) s).2
            = <[init_sessionId req := []]> (chatHistory s)
          ∧ outbound (run (Part001.post_init w req) s).2
            = outbound s ++ [completion_call (completion_of_init p)]).
Proof.
  assert (∀ p, lookup_role Server2.presetPrompts (init_role req) = Some p →
          groq_create w (completion_of_init p) = Rejected e →
          (run (Server2.post_init w req) s).1
          = {| status := 500;
               body := json_error "An error occurred while initializing the chat"
                         None None |}
          ∧ chatHistory (run (Server2.post_init w req) s).2
            = <[init_sessionId req := []]> (chatHistory s)
          ∧ outbound (run (Server2.post_init w req) s).2
            = outbound s ++ [completion_call (completion_of_init p)]) as H2.
  { intros p Hp Hrej. pose proof (Server2_init_full w req s p Hp) as Hrun.
    rewrite Hrej in Hrun. by rewrite Hrun. }
  split; [|by split].
  intros p Hp Hrej. pose proof (Server1_init_full w req s p Hp) as Hrun.
  rewrite Hrej in Hrun. by rewrite Hrun.
Qed.

Lemma init_failure_clears_history_witness :
  let w := failing "connection reset" in
  let req := {| init_role := Some "tax"; init_sessionId := Some "s1" |} in
  let s := {| chatHistory := {[ Some "s1" := [turn Role.user "Hi"] ]};
              outbound := [] |} in
  (status (run (Server1.post_init w req) s).1 = 500
   ∧ chatHistory (run (Server1.post_init w req) s).2
     = <[Some "s1" := []]> (chatHistory s))
  ∧ (status (run (Server2.post_init w req) s).1 = 500
     ∧ chatHistory (run (Server2.post_init w req) s).2
       = <[Some "s1" := []]> (chatHistory s))
  ∧ (status (run (Part001.post_init w req) s).1 = 500
     ∧ chatHistory (run (Part001.post_init w req) s).2
       = <[Some "s1" := []]> (chatHistory s)).
Proof.
  cbv zeta.
  set (w := failing "connection reset").
  set (req := {| init_role := Some "tax"; init_sessionId := Some "s1" |}).
  set (s := {| chatHistory := {[ Some "s1" := [turn Role.user "Hi"] ]};
               outbound := [] |}).
  pose (e := {| error_message := Some "connection reset" |}).
  destruct (init_failure_clears_history w req s e) as (H1 & H2 & H3).
  assert (∃ p, lookup_role Server1.presetPrompts (init_role req) = Some p)
    as [p1 Hp1] by (by eexists).
  assert (∃ p, lookup_role Server2.presetPrompts (init_role req) = Some p)
    as [p2 Hp2] by (by eexists).
  destruct (H1 p1 Hp1 eq_refl) as (R1 & S1 & _).
  destruct (H2 p2 Hp2 eq_refl) as (R2 & S2 & _).
  destruct (H3 p2 Hp2 eq_refl) as (R3 & S3 & _).
  split_and!; [by rewrite R1|exact S1|by rewrite R2|exact S2|by rewrite R3|exact S3].
Defined.

(** What [/chat] leaves behind: the histories as they were, or a completion
    call that was answered. *)
Lemma Server1_chat_history w req s :
  chatHistory (run (Server1.post_chat w req) s).2 = chatHistory s
  ∨ completion_answered w s (run (Server1.post_chat w req) s).2.
Proof.
  destruct (decide (message req = "")) as [Hm|Hm].
  { left. by rewrite (Server1_chat_missing w req s Hm). }
  destruct (Server1_chat_run w req s Hm) as (r0 & _ & Hrun).
  destruct (groq_create w r0) as [c|e] eqn:Hr0.
  - destruct Hrun as (audioUrl & rs & ->). right. by exists r0, c, (map speech_call rs).
  - left. rewrite Hrun.
    by destruct (Server1_completion_failed_error w e
                   (with_calls s [completion_call r0]) req) as [-> _].
Qed.

Lemma Server2_chat_history w req s :
  chatHistory (run (Server2.post_chat w req) s).2 = chatHistory s
  ∨ completion_answered w s (run (Server2.post_chat w req) s).2.
Proof.
  destruct (decide (message req = "")) as [Hm|Hm].
  { left. by rewrite (Server2_chat_missing w req s Hm). }
  destruct (Server2_chat_run w req s Hm) as (r0 & _ & Hrun).
  destruct (groq_create w r0) as [c|e] eqn:Hr0.
  - destruct Hrun as (audioUrl & rs & ->). right. by exists r0, c, (map speech_call rs).
  - left. rewrite Hrun.
    by destruct (Server2_completion_failed_error w e
                   (with_calls s [completion_call r0]) req) as [-> _].
Qed.

Lemma Part001_chat_history w req s :
  chatHistory (run (Part001.post_chat w req) s).2 = chatHistory s
  ∨ completion_answered w s (run (Part001.post_chat w req) s).2.
Proof.
  destruct (decide (message req = "")) as [Hm|Hm].
  { left. by rewrite (Part001_chat_missing w req s Hm). }
  destruct (Part001_chat_run w req s Hm) as (r0 & _ & Hrun).
  destruct (groq_create w r0) as [[raw|]|e] eqn:Hr0;
    [|left; by rewrite Hrun..].
  destruct Hrun as (audioChunks & rs & _ & ->). right.
  exists r0, (Some raw), (map speech_call rs). split; [|done].
  cbn. by rewrite <- app_assoc.
Qed.

Lemma rejected_not_answered w s s' e :
  completion_rejected w s s' e → ¬ completion_answered w s s'.
Proof.
  intros (r & cs & Hlog & Hrej) (r' & c & cs' & Hlog' & Hans).
  rewrite (first_call_inj s r cs r' cs' s' Hlog Hlog') in Hrej. congruence.
Qed.

(** C10.  When the completion call of a [/chat] request fails, the stored
    histories are exactly what they were before the request; a history
    changes only in a run whose completion call was answered. *)
Theorem chat_failure_keeps_history w req s :
  (∀ e, completion_rejected w s (run (Server1.post_chat w req) s).2 e →
        chatHistory (run (Server1.post_chat w req) s).2 = chatHistory s)
  ∧ (∀ e, completion_rejected w s (run (Server2.post_chat w req) s).2 e →
          chatHistory (run (Server2.post_chat w req) s).2 = chatHistory s)
  ∧ (∀ e, completion_rejected w s (run (Part001.post_chat w req) s).2 e →
          chatHistory (run (Part001.post_chat w req) s).2 = chatHistory s)
  ∧ (chatHistory (run (Server1.post_chat w req) s).2 ≠ chatHistory s →
     completion_answered w s (run (Server1.post_chat w req) s).2)
  ∧ (chatHistory (run (Server2.post_chat w req) s).2 ≠ chatHistory s →
     completion_answered w s (run (Server2.post_chat w req) s).2)
  ∧ (chatHistory (run (Part001.post_chat w req) s).2 ≠ chatHistory s →
     completion_answered w s (run (Part001.post_chat w req) s).2).
Proof.
  pose proof (Server1_chat_history w req s) as H1.
  pose proof (Server2_chat_history w req s) as H2.
  pose proof (Part001_chat_history w req s) as H3.
  split_and!.
  - intros e Hrej. destruct H1 as [?|Hans]; [done|].
    by destruct (rejected_not_answered _ _ _ _ Hrej).
  - intros e Hrej. destruct H2 as [?|Hans]; [done|].
    by destruct (rejected_not_answered _ _ _ _ Hrej).
  - intros e Hrej. destruct H3 as [?|Hans]; [done|].
    by destruct (rejected_not_answered _ _ _ _ Hrej).
  - intros Hne. by destruct H1.
  - intros Hne. by destruct H2.
  - intros Hne. by destruct H3.
Qed.

Lemma chat_failure_keeps_history_witness :
  let w := failing "rate limit exceeded" in
  let s := (run (Part001.post_chat (answering "Sure.") (ask "s1" "Hi")) empty_server).2 in
  chatHistory (run (Server1.post_chat w (ask "s1" "And then?")) s).2 = chatHistory s
  ∧ completion_answered (answering "Sure.") empty_server
      (run (Server2.post_chat (answering "Sure.") (ask "s1" "Hi")) empty_server).2.
Proof.
  cbv zeta. split.
  - apply (proj1 (chat_failure_keeps_history _ _ _)
             {| error_message := Some "rate limit exceeded" |}).
    eexists _, _. split; by vm_compute.
  - apply (proj1 (proj2 (proj2 (proj2 (proj2 (chat_failure_keeps_history _ _ _)))))).
    by vm_compute.
Defined.

(** C4, as stated, fails in [part_001]: a completion failure that signals an
    exhausted rate limit is answered with status 500 and no retry interval. *)
Lemma rate_limit_not_told_apart_in_part_001 :
  let r := (run (Part001.post_chat (failing "429 rate limit exceeded") (ask "s1" "Hi"))
              empty_server).1 in
  rate_limited {| error_message := Some "429 rate limit exceeded" |}
  ∧ status r = 500
  ∧ body r = json_error "An error occurred while processing your request" None None.
Proof. cbv zeta. split; [eexists; split; [done|by vm_compute]|by vm_compute]. Qed.

(** C4, amended.  In both copies of [src/server.js], a [/chat] request with
    a message whose completion call the API rejects is answered with status
    429 and a retry interval of 60 when the error message contains
    [rate limit exceeded], and otherwise with status 500, a fixed message and
    the error's own message as detail only when [NODE_ENV] is [development].
    In [part_001] every such request is answered with status 500 and a fixed
    message, without detail.  In all three, the rejected call is the only
    outbound call of the request: nothing is retried. *)
Theorem completion_failure_answer w req s e :
  message req ≠ "" →
  (let r0 := completion_of_Server1 (stored s (sessionId req)) req in
   groq_create w r0 = Rejected e →
   (rate_limited e →
    (run (Server1.post_chat w req) s).1
    = {| status := 429;
         body := json_error "Rate limit reached. Please try again in a few minutes."
                   (Some 60) None |})
   ∧ (¬ rate_limited e →
      (run (Server1.post_chat w req) s).1
      = {| status := 500;
           body := json_error "Service temporarily unavailable. Please try again." None
                     (if decide (NODE_ENV w = Some "development")
                      then error_message e else None) |})
   ∧ outbound (run (Server1.post_chat w req) s).2
     = outbound s ++ [completion_call r0])
  ∧ (let r0 := completion_of_Server2 (stored s (sessionId req)) req in
     groq_create w r0 = Rejected e →
     (rate_limited e →
      (run (Server2.post_chat w req) s).1
      = {| status := 429;
           body := json_error "I'm currently experiencing high demand. Please try again in a few minutes. This helps ensure everyone can access the service fairly."
                     (Some 60) None |})
     ∧ (¬ rate_limited e →
        (run (Server2.post_chat w req) s).1
        = {| status := 500;
             body := json_error "I'm having trouble processing your request right now. Please try again in a moment." None
                       (if decide (NODE_ENV w = Some "development")
                        then error_message e else None) |})
     ∧ outbound (run (Server2.post_chat w req) s).2
       = outbound s ++ [completion_call r0])
  ∧ (let r0 := completion_of_Part001 (stored s (sessionId req)) req in
     groq_create w r0 = Rejected e →
     (run (Part001.post_chat w req) s).1 = processing_error
     ∧ outbound (run (Part001.post_chat w req) s).2
       = outbound s ++ [completion_call r0]).
Proof.
  intros Hm. cbv zeta. split_and!.
  - intros Hrej. pose proof (Server1_chat_full w req s Hm) as Hrun.
    cbv zeta in Hrun. rewrite Hrej in Hrun. rewrite Hrun.
    split_and!.
    + intros Hrl. by rewrite Server1_completion_failed_limited.
    + intros Hrl. by rewrite Server1_completion_failed_other.
    + by destruct (Server1_completion_failed_error w e
                     (with_calls s
                        [completion_call
                           (completion_of_Server1 (stored s (sessionId req)) req)])
                     req) as [-> _].
  - intros Hrej. pose proof (Server2_chat_full w req s Hm) as Hrun.
    cbv zeta in Hrun. rewrite Hrej in Hrun. rewrite Hrun.
    split_and!.
    + intros Hrl. by rewrite Server2_completion_failed_limited.
    + intros Hrl. by rewrite Server2_completion_failed_other.
    + by destruct (Server2_completion_failed_error w e
                     (with_calls s
                        [completion_call
                           (completion_of_Server2 (stored s (sessionId req)) req)])
                     req) as [-> _].
  - intros Hrej. pose proof (Part001_chat_full w req s Hm) as Hrun.
    cbv zeta in Hrun. rewrite Hrej in Hrun. by rewrite Hrun.
Qed.

Lemma completion_failure_answer_witness :
  let w := failing "429 rate limit exceeded" in
  let req := ask "s1" "Hi" in
  (run (Server1.post_chat w req) empty_server).1
  = {| status := 429;
       body := json_error "Rate limit reached. Please try again in a few minutes."
                 (Some 60) None |}
  ∧ (run (Server2.post_chat w req) empty_server).1
    = {| status := 429;
         body := json_error "I'm currently experiencing high demand. Please try again in a few minutes. This helps ensure everyone can access the service fairly."
                   (Some 60) None |}
  ∧ (run (Part001.post_chat w req) empty_server).1 = processing_error
  ∧ length (outbound (run (Server1.post_chat w req) empty_server).2) = 1
  ∧ length (outbound (run (Server2.post_chat w req) empty_server).2) = 1
  ∧ length (outbound (run (Part001.post_chat w req) empty_server).2) = 1.
Proof.
  cbv zeta.
  assert (message (ask "s1" "Hi") ≠ "") as Hm by done.
  assert (rate_limited {| error_message := Some "429 rate limit exceeded" |})
    as Hrl by (eexists; split; [done|by vm_compute]).
  destruct (completion_failure_answer (failing "429 rate limit exceeded")
              (ask "s1" "Hi") empty_server
              {| error_message := Some "429 rate limit exceeded" |} Hm)
    as (H1 & H2 & H3).
  destruct (H1 eq_refl) as (R1 & _ & O1).
  destruct (H2 eq_refl) as (R2 & _ & O2).
  destruct (H3 eq_refl) as (R3 & O3).
  rewrite O1, O2, O3. split_and!; [by apply R1|by apply R2|done..].
Defined.

(** *** Answered requests *)

(** A [/chat] request answered with status 200 in [src/server.js]: the reply
    is the completion's text as it came, or the fixed apology when there is
    none. *)
Lemma Server1_chat_answered w req s :
  status (run (Server1.post_chat w req) s).1 = 200 →
  ∃ r0 c audioUrl,
    groq_create w r0 = Resolved c
    ∧ let reply := Js.or_else c "Sorry, I couldn't generate a response." in
      body (run (Server1.post_chat w req) s).1 = json_reply reply audioUrl
      ∧ chatHistory (run (Server1.post_chat w req) s).2 !! sessionId req
        = Some (Js.slice_last 6
                  (stored s (sessionId req)
                   ++ [turn Role.user (message req); turn Role.assistant reply])).
Proof.
  intros Hok. destruct (decide (message req = "")) as [Hm|Hm].
  { by rewrite (Server1_chat_missing w req s Hm) in Hok. }
  destruct (Server1_chat_run w req s Hm) as (r0 & _ & Hrun).
  destruct (groq_create w r0) as [c|e] eqn:Hr0.
  - destruct Hrun as (audioUrl & rs & Hrun). rewrite Hrun.
    exists r0, c, audioUrl. cbv zeta.
    split_and!; [done..|apply lookup_insert_eq].
  - rewrite Hrun in Hok. unfold Server1.completion_failed in Hok.
    by destruct (match error_message e with Some _ => _ | None => _ end).
Qed.

Lemma Server2_chat_answered w req s :
  status (run (Server2.post_chat w req) s).1 = 200 →
  ∃ r0 c audioUrl,
    groq_create w r0 = Resolved c
    ∧ let reply :=
        Js.or_else c "I apologize, but I couldn't generate a response at the moment." in
      body (run (Server2.post_chat w req) s).1 = json_reply reply audioUrl
      ∧ chatHistory (run (Server2.post_chat w req) s).2 !! sessionId req
        = Some (stored s (sessionId req)
                ++ [turn Role.user (message req); turn Role.assistant reply]).
Proof.
  intros Hok. destruct (decide (message req = "")) as [Hm|Hm].
  { by rewrite (Server2_chat_missing w req s Hm) in Hok. }
  destruct (Server2_chat_run w req s Hm) as (r0 & _ & Hrun).
  destruct (groq_create w r0) as [c|e] eqn:Hr0.
  - destruct Hrun as (audioUrl & rs & Hrun). rewrite Hrun.
    exists r0, c, audioUrl. cbv zeta.
    split_and!; [done..|apply lookup_insert_eq].
  - rewrite Hrun in Hok. unfold Server2.completion_failed in Hok.
    by destruct (match error_message e with Some _ => _ | None => _ end).
Qed.

Lemma Part001_chat_answered w req s :
  status (run (Part001.post_chat w req) s).1 = 200 →
  ∃ r0 raw audioChunks,
    groq_create w r0 = Resolved (Some raw)
    ∧ let text :=
        clean_markdown
          (Part001.ensure_introduction (length (stored s (sessionId req)) =? 0)
             (Part001.roleConfig_of (selectedRole req)) raw) in
      body (run (Part001.post_chat w req) s).1 = json_text text audioChunks
      ∧ chatHistory (run (Part001.post_chat w req) s).2 !! sessionId req
        = Some (Js.slice_last 10
                  (stored s (sessionId req)
                   ++ [turn Role.user (message req); turn Role.assistant text])).
Proof.
  intros Hok. destruct (decide (message req = "")) as [Hm|Hm].
  { by rewrite (Part001_chat_missing w req s Hm) in Hok. }
  destruct (Part001_chat_run w req s Hm) as (r0 & _ & Hrun).
  destruct (groq_create w r0) as [[raw|]|e] eqn:Hr0;
    [|by rewrite Hrun in Hok..].
  destruct Hrun as (audioChunks & rs & _ & Hrun). rewrite Hrun.
  exists r0, raw, audioChunks. cbv zeta.
  split_and!; [done..|apply lookup_insert_eq].
Qed.

(** C5, as stated, fails in both copies of [src/server.js]: the emphasis
    markers of the completion are returned and stored as they came. *)
Lemma markers_kept_in_server_js :
  let w := answering "**Sure.** Call *me*." in
  let r1 := run (Server1.post_chat w (ask "s1" "Hi")) empty_server in
  let r2 := run (Server2.post_chat w (ask "s1" "Hi")) empty_server in
  status r1.1 = 200
  ∧ body r1.1 = json_reply "**Sure.** Call *me*." None
  ∧ stored r1.2 (Some "s1")
    = [turn Role.user "Hi"; turn Role.assistant "**Sure.** Call *me*."]
  ∧ status r2.1 = 200
  ∧ body r2.1 = json_reply "**Sure.** Call *me*." None
  ∧ stored r2.2 (Some "s1")
    = [turn Role.user "Hi"; turn Role.assistant "**Sure.** Call *me*."].
Proof. by vm_compute. Qed.

(** C5, amended.  In [part_001], the text a successful [/chat] returns is the
    completion's text (after the first-turn introduction, if any) with every
    asterisk removed: it holds no asterisk, and it is that text which is
    stored as the assistant turn.  In both copies of [src/server.js] the
    reply is returned and stored as it came. *)
Theorem reply_cleaned_of_markers w req s :
  (status (run (Part001.post_chat w req) s).1 = 200 →
   ∃ r0 raw audioChunks,
     groq_create w r0 = Resolved (Some raw)
     ∧ let text :=
         without_stars
           (Part001.ensure_introduction (length (stored s (sessionId req)) =? 0)
              (Part001.roleConfig_of (selectedRole req)) raw) in
       body (run (Part001.post_chat w req) s).1 = json_text text audioChunks
       ∧ Js.includes "*" text = false
       ∧ chatHistory (run (Part001.post_chat w req) s).2 !! sessionId req
         = Some (Js.slice_last 10
                   (stored s (sessionId req)
                    ++ [turn Role.user (message req); turn Role.assistant text])))
  ∧ (status (run (Server1.post_chat w req) s).1 = 200 →
     ∃ r0 c audioUrl,
       groq_create w r0 = Resolved c
       ∧ let reply := Js.or_else c "Sorry, I couldn't generate a response." in
         body (run (Server1.post_chat w req) s).1 = json_reply reply audioUrl
         ∧ chatHistory (run (Server1.post_chat w req) s).2 !! sessionId req
           = Some (Js.slice_last 6
                     (stored s (sessionId req)
                      ++ [turn Role.user (message req); turn Role.assistant reply])))
  ∧ (status (run (Server2.post_chat w req) s).1 = 200 →
     ∃ r0 c audioUrl,
       groq_create w r0 = Resolved c
       ∧ let reply :=
           Js.or_else c "I apologize, but I couldn't generate a response at the moment." in
         body (run (Server2.post_chat w req) s).1 = json_reply reply audioUrl
         ∧ chatHistory (run (Server2.post_chat w req) s).2 !! sessionId req
           = Some (stored s (sessionId req)
                   ++ [turn Role.user (message req); turn Role.assistant reply])).
Proof.
  split_and!.
  - intros Hok.
    destruct (Part001_chat_answered w req s Hok)
      as (r0 & raw & audioChunks & Hr0 & H).
    cbv zeta in H. destruct H as [Hbody Hstored].
    rewrite clean_markdown_without_stars in Hbody, Hstored.
    exists r0, raw, audioChunks. cbv zeta.
    split_and!; [done..|apply without_stars_no_star|done].
  - apply Server1_chat_answered.
  - apply Server2_chat_answered.
Qed.

Lemma reply_cleaned_of_markers_witness :
  let w := answering "**Sure.** Call *me*." in
  let req := ask "s1" "Hi" in
  ∃ r0 raw audioChunks,
    groq_create w r0 = Resolved (Some raw)
    ∧ let text :=
        without_stars
          (Part001.ensure_introduction (length (stored empty_server (sessionId req)) =? 0)
             (Part001.roleConfig_of (selectedRole req)) raw) in
      body (run (Part001.post_chat w req) empty_server).1 = json_text text audioChunks
      ∧ Js.includes "*" text = false
      ∧ chatHistory (run (Part001.post_chat w req) empty_server).2 !! sessionId req
        = Some (Js.slice_last 10
                  (stored empty_server (sessionId req)
                   ++ [turn Role.user (message req); turn Role.assistant text])).
Proof.
  cbv zeta. apply (proj1 (reply_cleaned_of_markers _ _ _)). by vm_compute.
Defined.

(** No persona name of [part_001] holds an asterisk. *)
Lemma Part001_names_plain key :
  without_stars (name_of (Part001.roleConfig_of key))
  = name_of (Part001.roleConfig_of key).
Proof.
  apply without_stars_id.
  unfold Part001.roleConfig_of, lookup_key, get_property.
  destruct key as [k|]; [|by vm_compute].
  destruct (Js.truthy (Some k)); [|by vm_compute].
  destruct (Part001.presetPrompts !! k) as [p|] eqn:Hp.
  - apply elem_of_list_to_map_2 in Hp.
    repeat (apply elem_of_cons in Hp as [[= -> ->]|Hp]; [by vm_compute|]).
    by apply elem_of_nil in Hp.
  - destruct (Object_prototype !! k) as [m|] eqn:Hm; [|by vm_compute].
    apply elem_of_list_to_map_2 in Hm.
    repeat (apply elem_of_cons in Hm as [[= -> ->]|Hm]; [by vm_compute|]).
    by apply elem_of_nil in Hm.
Qed.

Lemma clean_introduction nm raw :
  without_stars nm = nm →
  without_stars (Part001.introduce nm raw) = Part001.introduce nm (without_stars raw).
Proof.
  intros Hnm. unfold Part001.introduce.
  by rewrite !without_stars_app, Hnm.
Qed.

(** C6, as stated, fails in both copies of [src/server.js]: on a first turn
    whose reply does not name the persona, the reply is returned as it is. *)
Lemma no_introduction_in_server_js :
  let w := answering "Sure." in
  let r1 := run (Server1.post_chat w (ask "s1" "Hi")) empty_server in
  let r2 := run (Server2.post_chat w (ask "s1" "Hi")) empty_server in
  stored empty_server (Some "s1") = []
  ∧ Js.includes (name_of (Server1.roleConfig_of None)) "Sure." = false
  ∧ Js.includes (name_of (Server2.roleConfig_of None)) "Sure." = false
  ∧ body r1.1 = json_reply "Sure." None
  ∧ body r2.1 = json_reply "Sure." None.
Proof. by vm_compute. Qed.

(** C6, amended.  In [part_001], when the stored history of the session is
    empty and the completion's text does not contain the display name of the
    active persona, the text returned is [Hello! I'm <name>. ] followed by
    the cleaned completion; on a later turn, or when the name occurs, it is
    the cleaned completion alone.  In both copies of [src/server.js] the
    reply is never prefixed. *)
Theorem first_turn_introduction w req s :
  (status (run (Part001.post_chat w req) s).1 = 200 →
   ∃ r0 raw audioChunks,
     groq_create w r0 = Resolved (Some raw)
     ∧ let display := name_of (Part001.roleConfig_of (selectedRole req)) in
       body (run (Part001.post_chat w req) s).1
       = json_text
           (if (length (stored s (sessionId req)) =? 0)
               && negb (Js.includes display raw)
            then "Hello! I'm " +:+ display +:+ ". " +:+ without_stars raw
            else without_stars raw)
           audioChunks)
  ∧ (status (run (Server1.post_chat w req) s).1 = 200 →
     ∃ r0 c audioUrl,
       groq_create w r0 = Resolved c
       ∧ body (run (Server1.post_chat w req) s).1
         = json_reply (Js.or_else c "Sorry, I couldn't generate a response.") audioUrl)
  ∧ (status (run (Server2.post_chat w req) s).1 = 200 →
     ∃ r0 c audioUrl,
       groq_create w r0 = Resolved c
       ∧ body (run (Server2.post_chat w req) s).1
         = json_reply
             (Js.or_else c "I apologize, but I couldn't generate a response at the moment.")
             audioUrl).
Proof.
  split_and!.
  - intros Hok.
    destruct (Part001_chat_answered w req s Hok)
      as (r0 & raw & audioChunks & Hr0 & H).
    cbv zeta in H. destruct H as [Hbody _].
    exists r0, raw, audioChunks. split; [done|]. cbv zeta.
    rewrite Hbody, clean_markdown_without_stars.
    unfold Part001.ensure_introduction.
    destruct (_ && _); [|done].
    by rewrite clean_introduction by apply Part001_names_plain.
  - intros Hok.
    destruct (Server1_chat_answered w req s Hok) as (r0 & c & a & Hr0 & H).
    cbv zeta in H. destruct H as [Hbody _]. by exists r0, c, a.
  - intros Hok.
    destruct (Server2_chat_answered w req s Hok) as (r0 & c & a & Hr0 & H).
    cbv zeta in H. destruct H as [Hbody _]. by exists r0, c, a.
Qed.

Lemma first_turn_introduction_witness :
  let w := answering "Sure." in
  let req := with_role (Some "doctor") (ask "s1" "Hi") in
  ∃ r0 raw audioChunks,
    groq_create w r0 = Resolved (Some raw)
    ∧ let display := name_of (Part001.roleConfig_of (selectedRole req)) in
      body (run (Part001.post_chat w req) empty_server).1
      = json_text
          (if (length (stored empty_server (sessionId req)) =? 0)
              && negb (Js.includes display raw)
           then "Hello! I'm " +:+ display +:+ ". " +:+ without_stars raw
           else without_stars raw)
          audioChunks.
Proof.
  cbv zeta. apply (proj1 (first_turn_introduction _ _ _)). by vm_compute.
Defined.

Example introduction_example :
  body (run (Part001.post_chat (answering "Sure.")
               (with_role (Some "doctor") (ask "s1" "Hi"))) empty_server).1
  = json_text "Hello! I'm Dr. Sarah Chen. Sure." [].
Proof. by vm_compute. Qed.

(** *** The default persona *)

Lemma Server1_status_400 w req s :
  message req ≠ "" → status (run (Server1.post_chat w req) s).1 ≠ 400.
Proof.
  intros Hm. destruct (Server1_chat_run w req s Hm) as (r0 & _ & Hrun).
  destruct (groq_create w r0) as [c|e].
  - by destruct Hrun as (a & rs & ->).
  - rewrite Hrun. unfold Server1.completion_failed.
    by destruct (match error_message e with Some _ => _ | None => _ end).
Qed.

Lemma Server2_status_400 w req s :
  message req ≠ "" → status (run (Server2.post_chat w req) s).1 ≠ 400.
Proof.
  intros Hm. destruct (Server2_chat_run w req s Hm) as (r0 & _ & Hrun).
  destruct (groq_create w r0) as [c|e].
  - by destruct Hrun as (a & rs & ->).
  - rewrite Hrun. unfold Server2.completion_failed.
    by destruct (match error_message e with Some _ => _ | None => _ end).
Qed.

Lemma Part001_status_400 w req s :
  message req ≠ "" → status (run (Part001.post_chat w req) s).1 ≠ 400.
Proof.
  intros Hm. destruct (Part001_chat_run w req s Hm) as (r0 & _ & Hrun).
  destruct (groq_create w r0) as [[raw|]|e]; [|by rewrite Hrun..].
  by destruct Hrun as (a & rs & _ & ->).
Qed.

(** The default persona of each variant. *)
Lemma Server1_default_persona key :
  names_nothing Server1.presetPrompts key →
  Server1.roleConfig_of key = own Server1.lawyer.
Proof.
  intros Hno. unfold Server1.roleConfig_of.
  by rewrite (proj2 (lookup_key_None _ _) Hno).
Qed.

Lemma Server2_default_persona key :
  names_nothing Server2.presetPrompts key →
  Server2.roleConfig_of key = own Server2.fallback.
Proof.
  intros Hno. unfold Server2.roleConfig_of.
  by rewrite (proj2 (lookup_key_None _ _) Hno).
Qed.

Lemma Part001_default_persona key :
  names_nothing Part001.presetPrompts key →
  Part001.roleConfig_of key = own Part001.fallback.
Proof.
  intros Hno. unfold Part001.roleConfig_of.
  by rewrite (proj2 (lookup_key_None _ _) Hno).
Qed.

(** The text [part_001] returns under its default persona. *)
Lemma Part001_default_text (isFirstMessage : bool) raw :
  clean_markdown
    (Part001.ensure_introduction isFirstMessage (own Part001.fallback) raw)
  = if isFirstMessage && negb (Js.includes "SAUL GOODMAN" raw)
    then "Hello! I'm SAUL GOODMAN. " +:+ without_stars raw
    else without_stars raw.
Proof.
  rewrite clean_markdown_without_stars. unfold Part001.ensure_introduction.
  change (name_of (own Part001.fallback)) with "SAUL GOODMAN".
  destruct (_ && _); [|done].
  by rewrite clean_introduction by done.
Qed.

(** C7, as stated, fails in [part_001]: the persona taken for a missing role
    key is not the lawyer of the registry but a literal of its own, named
    [SAUL GOODMAN]; on a first turn a reply that names Saul Goodman is sent
    back as it is for the role key [lawyer], and behind an introduction in
    capitals for a missing role key. *)
Lemma default_persona_not_the_lawyer_in_part_001 :
  let w := answering "Saul Goodman here." in
  let req := ask "s1" "Hi" in
  selectedRole req = None
  ∧ (name <$> Part001.presetPrompts !! "lawyer") = Some "Saul Goodman"
  ∧ name_of (Part001.roleConfig_of (selectedRole req)) = "SAUL GOODMAN"
  ∧ (run (Part001.post_chat w (with_role (Some "lawyer") req)) empty_server).1
    = {| status := 200; body := json_text "Saul Goodman here." [] |}
  ∧ (run (Part001.post_chat w req) empty_server).1
    = {| status := 200;
         body := json_text "Hello! I'm SAUL GOODMAN. Saul Goodman here." [] |}.
Proof. by vm_compute. Qed.

(** C7, amended.  A [/chat] request with a message whose role key is absent,
    empty, or names nothing on the registry object is not refused for it.
    Its first outbound call is a completion request whose system prompt is
    the lawyer's (Saul Goodman), and when that call is answered the request
    is answered with status 200 and the reply.  In both copies of
    [src/server.js] the whole run is the run for the role key [lawyer]; in
    [part_001] the default persona carries the display name [SAUL GOODMAN],
    which shows in the introduction of a first turn, and the run is the run
    for the role key [lawyer] on every later turn. *)
Theorem unknown_role_falls_back w req s :
  message req ≠ "" →
  (names_nothing Server1.presetPrompts (selectedRole req) →
   let r0 :=
     {| messages :=
          turn Role.system
            (system Server1.lawyer +:+ " Always be concise and direct.")
          :: Js.slice_last 4 (stored s (sessionId req))
          ++ [turn Role.user (message req)];
        completion_model := "mixtral-8x7b-32768";
        max_tokens := 100 |} in
   Server1.presetPrompts !! "lawyer" = Some Server1.lawyer
   ∧ name Server1.lawyer = "Saul Goodman"
   ∧ status (run (Server1.post_chat w req) s).1 ≠ 400
   ∧ head (new_calls s (run (Server1.post_chat w req) s).2)
     = Some (completion_call r0)
   ∧ (∀ c, groq_create w r0 = Resolved c →
           ∃ audioUrl,
             (run (Server1.post_chat w req) s).1
             = {| status := 200;
                  body := json_reply
                            (Js.or_else c "Sorry, I couldn't generate a response.")
                            audioUrl |})
   ∧ run (Server1.post_chat w req) s
     = run (Server1.post_chat w (with_role (Some "lawyer") req)) s)
  ∧ (names_nothing Server2.presetPrompts (selectedRole req) →
     let r0 :=
       {| messages :=
            turn Role.system Server2.saul_system
            :: stored s (sessionId req) ++ [turn Role.user (message req)];
          completion_model := Js.or_else (model req) "mixtral-8x7b-32768";
          max_tokens := 1024 |} in
     Server2.presetPrompts !! "lawyer"
     = Some {| name := "Saul Goodman"; system := Server2.saul_system |}
     ∧ status (run (Server2.post_chat w req) s).1 ≠ 400
     ∧ head (new_calls s (run (Server2.post_chat w req) s).2)
       = Some (completion_call r0)
     ∧ (∀ c, groq_create w r0 = Resolved c →
             ∃ audioUrl,
               (run (Server2.post_chat w req) s).1
               = {| status := 200;
                    body := json_reply
                              (Js.or_else c "I apologize, but I couldn't generate a response at the moment.")
                              audioUrl |})
     ∧ run (Server2.post_chat w req) s
       = run (Server2.post_chat w (with_role (Some "lawyer") req)) s)
  ∧ (names_nothing Part001.presetPrompts (selectedRole req) →
     let r0 :=
       {| messages :=
            turn Role.system Server2.saul_system
            :: stored s (sessionId req) ++ [turn Role.user (message req)];
          completion_model := Js.or_else (model req) "llama-3.1-70b-versatile";
          max_tokens := 1024 |} in
     Part001.presetPrompts !! "lawyer"
     = Some {| name := "Saul Goodman"; system := Server2.saul_system |}
     ∧ status (run (Part001.post_chat w req) s).1 ≠ 400
     ∧ head (new_calls s (run (Part001.post_chat w req) s).2)
       = Some (completion_call r0)
     ∧ (∀ raw, groq_create w r0 = Resolved (Some raw) →
               ∃ audioChunks,
                 (run (Part001.post_chat w req) s).1
                 = {| status := 200;
                      body := json_text
                                (if (length (stored s (sessionId req)) =? 0)
                                    && negb (Js.includes "SAUL GOODMAN" raw)
                                 then "Hello! I'm SAUL GOODMAN. " +:+ without_stars raw
                                 else without_stars raw)
                                audioChunks |})
     ∧ (stored s (sessionId req) ≠ [] →
        run (Part001.post_chat w req) s
        = run (Part001.post_chat w (with_role (Some "lawyer") req)) s)).
Proof.
  intros Hm. split_and!.
  - intros Hno. cbv zeta.
    pose proof (Server1_default_persona _ Hno) as Hcfg.
    pose proof (Server1_chat_full w req s Hm) as Hrun.
    pose proof (Server1_chat_first_call w req s Hm) as Hfirst.
    cbv zeta in Hrun. unfold completion_of_Server1 in Hrun, Hfirst.
    rewrite Hcfg in Hrun, Hfirst.
    split_and!; [by vm_compute|done|by apply Server1_status_400|exact Hfirst| |].
    + intros c Hc.
      change (as_text (system_of (own Server1.lawyer)))
        with (system Server1.lawyer) in Hrun.
      rewrite Hc in Hrun. rewrite Hrun. by eexists.
    + unfold Server1.post_chat. cbn [with_role message sessionId selectedRole].
      rewrite Hcfg. reflexivity.
  - intros Hno. cbv zeta.
    pose proof (Server2_default_persona _ Hno) as Hcfg.
    pose proof (Server2_chat_full w req s Hm) as Hrun.
    pose proof (Server2_chat_first_call w req s Hm) as Hfirst.
    cbv zeta in Hrun. unfold completion_of_Server2 in Hrun, Hfirst.
    rewrite Hcfg in Hrun, Hfirst.
    split_and!; [by vm_compute|by apply Server2_status_400|exact Hfirst| |].
    + intros c Hc.
      change {| role := Role.system; content := system_of (own Server2.fallback) |}
        with (turn Role.system Server2.saul_system) in Hrun.
      rewrite Hc in Hrun. rewrite Hrun. by eexists.
    + unfold Server2.post_chat.
      cbn [with_role message sessionId selectedRole model].
      rewrite Hcfg. reflexivity.
  - intros Hno. cbv zeta.
    pose proof (Part001_default_persona _ Hno) as Hcfg.
    pose proof (Part001_chat_full w req s Hm) as Hrun.
    pose proof (Part001_chat_first_call w req s Hm) as Hfirst.
    cbv zeta in Hrun. unfold completion_of_Part001 in Hrun, Hfirst.
    rewrite Hcfg in Hrun, Hfirst.
    split_and!; [by vm_compute|by apply Part001_status_400|exact Hfirst| |].
    + intros raw Hraw.
      change {| role := Role.system; content := system_of (own Part001.fallback) |}
        with (turn Role.system Server2.saul_system) in Hrun.
      rewrite Hraw in Hrun. rewrite Part001_default_text in Hrun.
      rewrite Hrun. by eexists.
    + intros Hlater.
      unfold Part001.post_chat. step_handler.
      cbn [with_role message sessionId selectedRole model].
      destruct (negb _); [done|]. cbn.
      rewrite Hcfg. unfold Part001.ensure_introduction.
      fold (stored s (sessionId req)).
      destruct (stored s (sessionId req)) as [|t h] eqn:Hst; [done|].
      reflexivity.
Qed.

Lemma unknown_role_falls_back_witness :
  let w := answering "Better call Saul!" in
  let req := with_role (Some "plumber") (ask "s1" "Hi") in
  (∃ audioUrl,
     (run (Server1.post_chat w req) empty_server).1
     = {| status := 200; body := json_reply "Better call Saul!" audioUrl |})
  ∧ (∃ audioUrl,
       (run (Server2.post_chat w req) empty_server).1
       = {| status := 200; body := json_reply "Better call Saul!" audioUrl |})
  ∧ (∃ audioChunks,
       (run (Part001.post_chat w req) empty_server).1
       = {| status := 200;
            body := json_text "Hello! I'm SAUL GOODMAN. Better call Saul!"
                      audioChunks |}).
Proof.
  cbv zeta.
  assert (message (with_role (Some "plumber") (ask "s1" "Hi")) ≠ "") as Hm by done.
  assert (names_nothing Server1.presetPrompts (Some "plumber")) as Hn1
    by (split; by vm_compute).
  assert (names_nothing Server2.presetPrompts (Some "plumber")) as Hn2
    by (split; by vm_compute).
  destruct (unknown_role_falls_back (answering "Better call Saul!")
              (with_role (Some "plumber") (ask "s1" "Hi")) empty_server Hm)
    as (H1 & H2 & H3).
  destruct (H1 Hn1) as (_ & _ & _ & _ & A1 & _).
  destruct (H2 Hn2) as (_ & _ & _ & A2 & _).
  destruct (H3 Hn2) as (_ & _ & _ & A3 & _).
  split_and!.
  - exact (A1 (Some "Better call Saul!") eq_refl).
  - exact (A2 (Some "Better call Saul!") eq_refl).
  - exact (A3 "Better call Saul!" eq_refl).
Defined.

(** *** [/voice-settings] *)

Lemma js_lt_zero (x : option Q) :
  js_lt x (Some 0%Q) = true ↔ ∃ q, x = Some q ∧ (q < 0)%Q.
Proof.
  destruct x as [q|]; cbn.
  - rewrite negb_true_iff, <- not_true_iff_false, Qle_bool_iff. split.
    + intros H. exists q. split; [done|]. by apply Qnot_le_lt.
    + intros (q' & [= <-] & H). by apply Qlt_not_le.
  - split; [done|]. by intros (q & ? & _).
Qed.

Lemma js_lt_one (x : option Q) :
  js_lt (Some 1%Q) x = true ↔ ∃ q, x = Some q ∧ (1 < q)%Q.
Proof.
  destruct x as [q|]; cbn.
  - rewrite negb_true_iff, <- not_true_iff_false, Qle_bool_iff. split.
    + intros H. exists q. split; [done|]. by apply Qnot_le_lt.
    + intros (q' & [= <-] & H). by apply Qlt_not_le.
  - split; [done|]. by intros (q & ? & _).
Qed.

Lemma out_of_range_spec (x : option Q) :
  js_lt x (Some 0%Q) || js_lt (Some 1%Q) x = true ↔ out_of_range x.
Proof.
  rewrite orb_true_iff, js_lt_zero, js_lt_one. unfold out_of_range. split.
  - intros [(q & Hx & Hq)|(q & Hx & Hq)]; exists q; tauto.
  - intros (q & Hx & [Hq|Hq]); [left|right]; by exists q.
Qed.

(** C8.  [/voice-settings] answers 400 exactly when [stability] or
    [similarity_boost] is below 0 or above 1, and 200 with an acknowledgment
    otherwise; 0 and 1 themselves are accepted; the server state is the same
    afterwards in either case. *)
Theorem voice_settings_range req s :
  (run (post_voice_settings req) s).2 = s
  ∧ ((run (post_voice_settings req) s).1
     = {| status := 400;
          body := json_error "Values must be between 0 and 1" None None |}
     ↔ out_of_range (stability req) ∨ out_of_range (similarity_boost req))
  ∧ ((run (post_voice_settings req) s).1
     = {| status := 200; body := json_status "Settings updated" |}
     ↔ ¬ (out_of_range (stability req) ∨ out_of_range (similarity_boost req)))
  ∧ (∀ x y, (x == 0 ∨ x == 1)%Q → (y == 0 ∨ y == 1)%Q →
       (run (post_voice_settings
               {| stability := Some x; similarity_boost := Some y |}) s).1
       = {| status := 200; body := json_status "Settings updated" |}).
Proof.
  assert (∀ req,
    ((run (post_voice_settings req) s).1
     = {| status := 400;
          body := json_error "Values must be between 0 and 1" None None |}
     ↔ out_of_range (stability req) ∨ out_of_range (similarity_boost req))
    ∧ ((run (post_voice_settings req) s).1
     = {| status := 200; body := json_status "Settings updated" |}
     ↔ ¬ (out_of_range (stability req) ∨ out_of_range (similarity_boost req))))
    as Hiff.
  { clear req. intros req.
    rewrite <- !out_of_range_spec, <- orb_true_iff, orb_assoc.
    unfold post_voice_settings.
    destruct (_ || _ || _ || _); cbn; split; split; try done;
      intros H; by destruct H. }
  split_and!.
  - unfold post_voice_settings. by destruct (_ || _ || _ || _).
  - apply Hiff.
  - apply Hiff.
  - intros x y Hx Hy. apply Hiff. cbn. unfold out_of_range.
    intros [(q & [= <-] & Hq)|(q & [= <-] & Hq)].
    + destruct Hx as [Hx|Hx], Hq as [Hq|Hq]; rewrite Hx in Hq;
        by apply Qlt_irrefl in Hq || (by vm_compute in Hq).
    + destruct Hy as [Hy|Hy], Hq as [Hq|Hq]; rewrite Hy in Hq;
        by apply Qlt_irrefl in Hq || (by vm_compute in Hq).
Qed.

Lemma voice_settings_range_witness :
  (run (post_voice_settings {| stability := Some 0%Q; similarity_boost := Some 1%Q |})
     empty_server).1
  = {| status := 200; body := json_status "Settings updated" |}
  ∧ (run (post_voice_settings {| stability := Some (11 # 10); similarity_boost := Some (1 # 2) |})
       empty_server).1
    = {| status := 400; body := json_error "Values must be between 0 and 1" None None |}.
Proof.
  split.
  - apply (proj2 (proj2 (proj2 (voice_settings_range
             {| stability := None; similarity_boost := None |} empty_server)))).
    + left. reflexivity.
    + right. reflexivity.
  - apply (proj1 (proj2 (voice_settings_range _ _))).
    left. exists (11 # 10). split; [done|]. right. by vm_compute.
Defined.

(** *** Speech for a long reply *)

Lemma Part001_chat_audio_120 w req text s1 :
  ttsEnabled req = true →
  word_count text = 120 →
  Js.truthy (Server2.selectedVoiceId_of w (voiceId req)) = true →
  voiceSettings req ≠ null_settings →
  let words := Js.split " " text in
  let q1 := chunk_request w req (take 50 words) in
  let q2 := chunk_request w req (take 50 (drop 50 words)) in
  let q3 := chunk_request w req (drop 100 words) in
  Part001.chat_audio w req text s1
  = (Resolved
       match elevenlabs w q1, elevenlabs w q2, elevenlabs w q3 with
       | Some a1, Some a2, Some a3 => [data_url a1; data_url a2; data_url a3]
       | _, _, _ => []
       end,
     with_calls s1 [speech_call q1; speech_call q2; speech_call q3]).
Proof.
  intros Htts Hwords Hvoice Hnull. cbv zeta.
  unfold Part001.chat_audio. rewrite Htts.
  rewrite (chunk_words_120 _ Hwords). cbn [map promise_all].
  unfold Part001.generateSpeech, Server2.generateSpeech, chunk_request.
  rewrite Hvoice. unfold read_settings.
  destruct (voiceSettings req) as [| |v]; [|done|]; step_handler; cbn.
  all: set (q1 := Server2.speech_fetch _ (Js.join " " (take 50 (Js.split " " text))) _).
  all: set (q2 := Server2.speech_fetch _ (Js.join " " (take 50 (drop 50 (Js.split " " text)))) _).
  all: set (q3 := Server2.speech_fetch _ (Js.join " " (drop 100 (Js.split " " text))) _).
  all: destruct (elevenlabs w q1), (elevenlabs w q2), (elevenlabs w q3); cbn;
    unfold with_calls; cbn; by rewrite <- !app_assoc.
Qed.

(** C3, as stated, fails in two ways.  In [part_001], when the speech API is
    down the three calls are issued but the audio sequence returned is empty.
    In [src/server.js] (first copy) a reply of 120 words is not split: one
    speech call is issued for the whole text. *)
Lemma speech_for_120_words_fails :
  let req := aloud "21m00Tcm4TlvDq8ikWAM" (ask "s1" "Hi") in
  let r1 := run (Part001.post_chat (answering many_words) req) empty_server in
  let r2 := run (Server1.post_chat (talking many_words) req) empty_server in
  word_count many_words = 120
  ∧ body r1.1 = json_text many_words []
  ∧ (∃ r0 q1 q2 q3,
       outbound r1.2
       = [completion_call r0; speech_call q1; speech_call q2; speech_call q3])
  ∧ body r2.1 = json_reply many_words (Some (data_url ("mpeg of " +:+ many_words)))
  ∧ (∃ r0 q, outbound r2.2 = [completion_call r0; speech_call q]
             ∧ speech_text q = many_words).
Proof.
  cbv zeta. split_and!.
  - by vm_compute.
  - by vm_compute.
  - eexists _, _, _, _. by vm_compute.
  - by vm_compute.
  - eexists _, _. split; by vm_compute.
Qed.

(** C3, amended.  In [part_001], for a [/chat] request with [ttsEnabled] set,
    a voice id at hand (in the request or in [ELEVENLABS_VOICE_ID]) and
    voice settings that are not [null], that is answered with a text of
    exactly 120 space-separated words: after the
    completion call exactly three speech calls are issued, for words 1-50,
    51-100 and 101-120 of the text, in that order; the audio sequence
    returned holds the three results in that order when the three calls
    succeed, and is empty when one of them fails. *)
Theorem speech_for_120_words w req s text audioChunks :
  body (run (Part001.post_chat w req) s).1 = json_text text audioChunks →
  ttsEnabled req = true →
  word_count text = 120 →
  Js.truthy (Server2.selectedVoiceId_of w (voiceId req)) = true →
  voiceSettings req ≠ null_settings →
  let words := Js.split " " text in
  let q1 := chunk_request w req (take 50 words) in
  let q2 := chunk_request w req (take 50 (drop 50 words)) in
  let q3 := chunk_request w req (drop 100 words) in
  (∃ r0, outbound (run (Part001.post_chat w req) s).2
         = outbound s
           ++ [completion_call r0; speech_call q1; speech_call q2; speech_call q3])
  ∧ Js.split " " (speech_text q1) = take 50 words
  ∧ Js.split " " (speech_text q2) = take 50 (drop 50 words)
  ∧ Js.split " " (speech_text q3) = drop 100 words
  ∧ word_count (speech_text q1) = 50
  ∧ word_count (speech_text q2) = 50
  ∧ word_count (speech_text q3) = 20
  ∧ audioChunks
    = match elevenlabs w q1, elevenlabs w q2, elevenlabs w q3 with
      | Some a1, Some a2, Some a3 => [data_url a1; data_url a2; data_url a3]
      | _, _, _ => []
      end.
Proof.
  intros Hbody Htts Hwords Hvoice Hnull. cbv zeta.
  pose proof (split_free " " text) as Hfree.
  unfold word_count in *.
  assert (Js.split " " (Js.join " " (take 50 (Js.split " " text)))
          = take 50 (Js.split " " text)) as H1.
  { apply split_join; [|by apply Forall_take].
    intros H. apply (f_equal length) in H.
    by rewrite length_take, Hwords in H. }
  assert (Js.split " " (Js.join " " (take 50 (drop 50 (Js.split " " text))))
          = take 50 (drop 50 (Js.split " " text))) as H2.
  { apply split_join; [|by apply Forall_take, Forall_drop].
    intros H. apply (f_equal length) in H.
    by rewrite length_take, length_drop, Hwords in H. }
  assert (Js.split " " (Js.join " " (drop 100 (Js.split " " text)))
          = drop 100 (Js.split " " text)) as H3.
  { apply split_join; [|by apply Forall_drop].
    intros H. apply (f_equal length) in H.
    by rewrite length_drop, Hwords in H. }
  assert (message req ≠ "") as Hm.
  { intros Hm. by rewrite (Part001_chat_missing w req s Hm) in Hbody. }
  destruct (Part001_chat_run w req s Hm) as (r0 & _ & Hrun).
  destruct (groq_create w r0) as [[raw|]|e];
    [|by rewrite Hrun in Hbody..].
  destruct Hrun as (a & rs & Haudio & Hrun).
  rewrite Hrun in Hbody |- *. injection Hbody as Htext <-.
  rewrite Htext in Haudio.
  rewrite (Part001_chat_audio_120 _ _ _ _ Htts Hwords Hvoice Hnull) in Haudio.
  injection Haudio as <- Hcalls.
  split_and!; cbn [chunk_request Server2.speech_fetch speech_text];
    rewrite ?H1, ?H2, ?H3, ?length_take, ?length_drop, ?Hwords; try done.
  exists r0. cbn. rewrite <- Hcalls. by rewrite <- app_assoc.
Qed.

Lemma speech_for_120_words_witness :
  let w := talking many_words in
  let req := aloud "21m00Tcm4TlvDq8ikWAM" (ask "s1" "Hi") in
  let words := Js.split " " many_words in
  let q1 := chunk_request w req (take 50 words) in
  let q2 := chunk_request w req (take 50 (drop 50 words)) in
  let q3 := chunk_request w req (drop 100 words) in
  (∃ r0, outbound (run (Part001.post_chat w req) empty_server).2
         = outbound empty_server
           ++ [completion_call r0; speech_call q1; speech_call q2; speech_call q3])
  ∧ Js.split " " (speech_text q1) = take 50 words
  ∧ Js.split " " (speech_text q2) = take 50 (drop 50 words)
  ∧ Js.split " " (speech_text q3) = drop 100 words
  ∧ word_count (speech_text q1) = 50
  ∧ word_count (speech_text q2) = 50
  ∧ word_count (speech_text q3) = 20
  ∧ [ data_url ("mpeg of " +:+ speech_text q1);
      data_url ("mpeg of " +:+ speech_text q2);
      data_url ("mpeg of " +:+ speech_text q3) ]
    = match elevenlabs w q1, elevenlabs w q2, elevenlabs w q3 with
      | Some a1, Some a2, Some a3 => [data_url a1; data_url a2; data_url a3]
      | _, _, _ => []
      end.
Proof.
  cbv zeta.
  apply (speech_for_120_words (talking many_words)
           (aloud "21m00Tcm4TlvDq8ikWAM" (ask "s1" "Hi")) empty_server many_words);
    by vm_compute.
Defined.

(** * Further properties *)

(** ** Refused requests *)

(** X1.  [/chat] answers 400 exactly when the message is missing or empty,
    and then does nothing else: no outbound call, no change to any
    history. *)
Theorem chat_refused_without_message w req s :
  (status (run (Server1.post_chat w req) s).1 = 400 ↔ message req = "")
  ∧ (status (run (Server2.post_chat w req) s).1 = 400 ↔ message req = "")
  ∧ (status (run (Part001.post_chat w req) s).1 = 400 ↔ message req = "")
  ∧ (message req = "" →
     run (Server1.post_chat w req) s = (message_required, s)
     ∧ run (Server2.post_chat w req) s = (message_required, s)
     ∧ run (Part001.post_chat w req) s = (message_required, s)).
Proof.
  split_and!.
  - split.
    + intros H. destruct (decide (message req = "")) as [|Hm]; [done|].
      by destruct (Server1_status_400 w req s Hm).
    + intros Hm. by rewrite (Server1_chat_missing w req s Hm).
  - split.
    + intros H. destruct (decide (message req = "")) as [|Hm]; [done|].
      by destruct (Server2_status_400 w req s Hm).
    + intros Hm. by rewrite (Server2_chat_missing w req s Hm).
  - split.
    + intros H. destruct (decide (message req = "")) as [|Hm]; [done|].
      by destruct (Part001_status_400 w req s Hm).
    + intros Hm. by rewrite (Part001_chat_missing w req s Hm).
  - intros Hm. split_and!.
    + by apply Server1_chat_missing.
    + by apply Server2_chat_missing.
    + by apply Part001_chat_missing.
Qed.

Lemma chat_refused_without_message_witness :
  let s := (run (Part001.post_chat (answering "Sure.") (ask "s1" "Hi")) empty_server).2 in
  run (Server1.post_chat (answering "Sure.") (ask "s1" "")) s = (message_required, s)
  ∧ run (Server2.post_chat (answering "Sure.") (ask "s1" "")) s = (message_required, s)
  ∧ run (Part001.post_chat (answering "Sure.") (ask "s1" "")) s = (message_required, s).
Proof.
  cbv zeta.
  by apply (proj2 (proj2 (proj2 (chat_refused_without_message _ _ _)))).
Defined.

(** The role keys of a table given as a list of pairs. *)
Lemma lookup_role_keys {V} (l : list (string * V)) key :
  is_Some (lookup_role (list_to_map l) key)
  ↔ ∃ k, key = Some k ∧ k ≠ "" ∧ k ∈ l.*1.
Proof.
  unfold lookup_role. destruct key as [k|].
  - destruct k as [|c k].
    + split; [by intros [? ?]|]. by intros (k & [= <-] & Hk & _).
    + change (Js.truthy (Some (String c k))) with true. cbv iota.
      rewrite <- elem_of_dom, dom_list_to_map_L, elem_of_list_to_set.
      split.
      * intros H. by exists (String c k).
      * by intros (k' & [= <-] & _ & H).
  - split; [by intros [? ?]|]. by intros (k & ? & _).
Qed.

Lemma lookup_role_None_keys {V} (l : list (string * V)) key :
  "" ∉ l.*1 →
  lookup_role (list_to_map l) key = None ↔ ∀ k, key = Some k → k ∉ l.*1.
Proof.
  intros Hl. rewrite eq_None_not_Some, lookup_role_keys. split.
  - intros H k -> Hin. apply H. exists k. split_and!; [done| |done].
    by intros ->.
  - intros H (k & -> & _ & Hin). by apply (H k).
Qed.

Lemma names_nothing_keys {V} (l : list (string * V)) key :
  "" ∉ l.*1 →
  names_nothing (list_to_map l) key
  ↔ ∀ k, key = Some k →
         k ∉ l.*1
             ++ [ "constructor"; "__defineGetter__"; "__defineSetter__";
                  "hasOwnProperty"; "__lookupGetter__"; "__lookupSetter__";
                  "isPrototypeOf"; "propertyIsEnumerable"; "toString";
                  "valueOf"; "__proto__"; "toLocaleString" ].
Proof.
  intros Hl. unfold names_nothing, Object_prototype.
  rewrite !lookup_role_None_keys; [|by apply (bool_decide_unpack _); vm_compute|done].
  cbn [fmap list_fmap fst]. split.
  - intros [H1 H2] k Hk Hin. apply elem_of_app in Hin as [Hin|Hin].
    + by apply (H1 k).
    + by apply (H2 k).
  - intros H. split; intros k Hk Hin; apply (H k Hk), elem_of_app; auto.
Qed.

(** X2.  [/init] answers 400 exactly when the role key is absent, empty, or
    names nothing on the registry object, that is, when it is none of the
    seven persona keys and none of the twelve names the object inherits; it
    then leaves the server as it was, the session's history included.  The
    three variants accept the same keys. *)
Theorem init_refused_without_role w req s :
  (status (run (Server1.post_init w req) s).1 = 400
   ↔ names_nothing Server1.presetPrompts (init_role req))
  ∧ (status (run (Server2.post_init w req) s).1 = 400
     ↔ names_nothing Server2.presetPrompts (init_role req))
  ∧ (status (run (Part001.post_init w req) s).1 = 400
     ↔ names_nothing Part001.presetPrompts (init_role req))
  ∧ (names_nothing Server1.presetPrompts (init_role req) →
     run (Server1.post_init w req) s = (invalid_role, s))
  ∧ (names_nothing Server2.presetPrompts (init_role req) →
     run (Server2.post_init w req) s = (invalid_role, s)
     ∧ run (Part001.post_init w req) s = (invalid_role, s))
  ∧ (∀ key,
       let keys :=
         [ "lawyer"; "doctor"; "tutor"; "engineer"; "financial"; "writer"; "tax";
           "constructor"; "__defineGetter__"; "__defineSetter__";
           "hasOwnProperty"; "__lookupGetter__"; "__lookupSetter__";
           "isPrototypeOf"; "propertyIsEnumerable"; "toString";
           "valueOf"; "__proto__"; "toLocaleString" ] in
       (names_nothing Server1.presetPrompts key ↔ ∀ k, key = Some k → k ∉ keys)
       ∧ (names_nothing Server2.presetPrompts key ↔ ∀ k, key = Some k → k ∉ keys)).
Proof.
  assert (status (run (Server2.post_init w req) s).1 = 400
     ↔ names_nothing Server2.presetPrompts (init_role req)) as H2.
  { unfold names_nothing. rewrite <- lookup_key_None. split.
    - intros H.
      destruct (lookup_key Server2.presetPrompts (init_role req)) as [c|] eqn:Hc;
        [|done].
      pose proof (Server2_init_served w req s c Hc) as Hrun. cbv zeta in Hrun.
      destruct (groq_create w _) as [[raw|]|e]; by rewrite Hrun in H.
    - intros Hno. by rewrite (Server2_init_invalid w req s Hno). }
  split_and!; [|apply H2|apply H2| | |].
  - unfold names_nothing. rewrite <- lookup_key_None. split.
    + intros H.
      destruct (lookup_key Server1.presetPrompts (init_role req)) as [c|] eqn:Hc;
        [|done].
      pose proof (Server1_init_served w req s c Hc) as Hrun. cbv zeta in Hrun.
      destruct (groq_create w _) as [[raw|]|e]; by rewrite Hrun in H.
    + intros Hno. by rewrite (Server1_init_invalid w req s Hno).
  - unfold names_nothing. rewrite <- lookup_key_None. apply Server1_init_invalid.
  - unfold names_nothing. rewrite <- lookup_key_None. intros Hno. split; by apply Server2_init_invalid.
  - intros key keys. split.
    + unfold Server1.presetPrompts. rewrite names_nothing_keys; [done|].
      by apply (bool_decide_unpack _); vm_compute.
    + unfold Server2.presetPrompts. rewrite names_nothing_keys; [done|].
      by apply (bool_decide_unpack _); vm_compute.
Qed.

Lemma init_refused_without_role_witness :
  let s := (run (Part001.post_chat (answering "Sure.") (ask "s1" "Hi")) empty_server).2 in
  let req := {| init_role := Some "plumber"; init_sessionId := Some "s1" |} in
  run (Server1.post_init (answering "Sure.") req) s = (invalid_role, s).
Proof.
  cbv zeta.
  apply (proj1 (proj2 (proj2 (proj2 (init_refused_without_role _ _ _))))).
  split; by vm_compute.
Defined.

(** ** [/clear-history] *)

(** X3.  [/clear-history] always answers 200 and makes no outbound call.
    For a session id that is given and not empty the session has no entry
    afterwards and every other session keeps its own; clearing a session
    that has no entry, or giving no id or an empty one, changes nothing (so
    the history kept under a missing id cannot be cleared); clearing twice is
    clearing once. *)
Theorem clear_history_effect sid s :
  (run (post_clear_history sid) s).1 = history_cleared
  ∧ outbound (run (post_clear_history sid) s).2 = outbound s
  ∧ (sid ≠ None → sid ≠ Some "" →
     chatHistory (run (post_clear_history sid) s).2 !! sid = None)
  ∧ (∀ sid', sid' ≠ sid →
       chatHistory (run (post_clear_history sid) s).2 !! sid' = chatHistory s !! sid')
  ∧ (chatHistory s !! sid = None → (run (post_clear_history sid) s).2 = s)
  ∧ (sid = None ∨ sid = Some "" → (run (post_clear_history sid) s).2 = s)
  ∧ (run (post_clear_history sid) (run (post_clear_history sid) s).2).2
    = (run (post_clear_history sid) s).2.
Proof.
  unfold post_clear_history. step_handler. unfold delete_history.
  destruct sid as [[|c sid]|].
  - change (Js.truthy (Some "")) with false. cbn. by split_and!.
  - change (Js.truthy (Some (String c sid))) with true. cbn.
    split_and!; try done.
    + intros _ _. apply lookup_delete_eq.
    + intros sid' Hne. by apply lookup_delete_ne.
    + intros Hno. destruct s as [m out]. cbn in *. f_equal.
      by apply delete_id.
    + by intros [|].
    + f_equal. apply delete_delete_eq.
  - change (Js.truthy None) with false. cbn. by split_and!.
Qed.

Lemma clear_history_effect_witness :
  let s := (run (Part001.post_chat (answering "Sure.") (ask "s1" "Hi")) empty_server).2 in
  chatHistory (run (post_clear_history (Some "s1")) s).2 !! Some "s1" = None
  ∧ chatHistory (run (post_clear_history (Some "s2")) s).2 !! Some "s1" = chatHistory s !! Some "s1"
  ∧ (run (post_clear_history (Some "s2")) s).2 = s.
Proof.
  cbv zeta. split_and!.
  - by apply (proj1 (proj2 (proj2 (clear_history_effect _ _)))).
  - by apply (proj1 (proj2 (proj2 (proj2 (clear_history_effect _ _))))).
  - apply (proj1 (proj2 (proj2 (proj2 (proj2 (clear_history_effect _ _)))))).
    by vm_compute.
Defined.

(** ** Sessions do not see each other *)

Lemma Server1_completion_failed_response w e s s' :
  (run (Server1.completion_failed w e) s).1 = (run (Server1.completion_failed w e) s').1.
Proof.
  unfold Server1.completion_failed.
  by destruct (match error_message e with Some _ => _ | None => _ end).
Qed.

Lemma Server2_completion_failed_response w e s s' :
  (run (Server2.completion_failed w e) s).1 = (run (Server2.completion_failed w e) s').1.
Proof.
  unfold Server2.completion_failed.
  by destruct (match error_message e with Some _ => _ | None => _ end).
Qed.

(** The answer of [/chat] depends on the server only through the stored
    history of the request's own session. *)
Lemma chat_response_local w req s s' :
  stored s (sessionId req) = stored s' (sessionId req) →
  (run (Server1.post_chat w req) s).1 = (run (Server1.post_chat w req) s').1
  ∧ (run (Server2.post_chat w req) s).1 = (run (Server2.post_chat w req) s').1
  ∧ (run (Part001.post_chat w req) s).1 = (run (Part001.post_chat w req) s').1.
Proof.
  intros Hst. destruct (decide (message req = "")) as [Hm|Hm].
  { by rewrite !Server1_chat_missing, !Server2_chat_missing, !Part001_chat_missing. }
  split_and!.
  - pose proof (Server1_chat_full w req s Hm) as H.
    pose proof (Server1_chat_full w req s' Hm) as H'.
    cbv zeta in *. rewrite <- Hst in H'.
    destruct (groq_create w _) as [c|e].
    + rewrite H, H', !Server1_chat_audio_eq. by destruct (_ && _).
    + rewrite H, H'. apply Server1_completion_failed_response.
  - pose proof (Server2_chat_full w req s Hm) as H.
    pose proof (Server2_chat_full w req s' Hm) as H'.
    cbv zeta in *. rewrite <- Hst in H'.
    destruct (groq_create w _) as [c|e].
    + rewrite H, H', !Server2_chat_audio_eq. cbv zeta. by destruct (_ && _).
    + rewrite H, H'. apply Server2_completion_failed_response.
  - pose proof (Part001_chat_full w req s Hm) as H.
    pose proof (Part001_chat_full w req s' Hm) as H'.
    cbv zeta in *. rewrite <- Hst in H'.
    destruct (groq_create w _) as [[raw|]|e]; [|by rewrite H, H'..].
    rewrite H, H', !Part001_chat_audio_eq. by destruct (_ && _).
Qed.

(** What [/chat] and [/init] do to the map: nothing, or one update at the
    request's own session. *)
Lemma chat_history_update w req s :
  (∃ h, chatHistory (run (Server1.post_chat w req) s).2
        = <[sessionId req := h]> (chatHistory s)
   ∨ chatHistory (run (Server1.post_chat w req) s).2 = chatHistory s)
  ∧ (∃ h, chatHistory (run (Server2.post_chat w req) s).2
          = <[sessionId req := h]> (chatHistory s)
     ∨ chatHistory (run (Server2.post_chat w req) s).2 = chatHistory s)
  ∧ (∃ h, chatHistory (run (Part001.post_chat w req) s).2
          = <[sessionId req := h]> (chatHistory s)
     ∨ chatHistory (run (Part001.post_chat w req) s).2 = chatHistory s).
Proof.
  split_and!.
  - destruct (Server1_chat_effect w req s) as [[_ [cs ->]]|[cs ->]];
      eexists; [by right|by left].
  - destruct (Server2_chat_effect w req s) as [[_ [cs ->]]|[cs ->]];
      eexists; [by right|by left].
  - destruct (Part001_chat_effect w req s) as [[_ [cs ->]]|[cs ->]];
      eexists; [by right|by left].
  Unshelve. all: exact [].
Qed.

Lemma init_history_update w req s :
  (∃ h, chatHistory (run (Server1.post_init w req) s).2
        = <[init_sessionId req := h]> (chatHistory s)
   ∨ chatHistory (run (Server1.post_init w req) s).2 = chatHistory s)
  ∧ (∃ h, chatHistory (run (Server2.post_init w req) s).2
          = <[init_sessionId req := h]> (chatHistory s)
     ∨ chatHistory (run (Server2.post_init w req) s).2 = chatHistory s).
Proof.
  split.
  - destruct (lookup_key Server1.presetPrompts (init_role req)) as [c|] eqn:Hc.
    + pose proof (Server1_init_served w req s c Hc) as Hrun. cbv zeta in Hrun.
      destruct (groq_create w _) as [[raw|]|e]; rewrite Hrun;
        [|eexists; by left..].
      match goal with |- context [Server1.init_audio w ?a ?b ?s1] =>
        destruct (Server1_init_audio_speech w a b s1) as (x & rs & ->) end.
      eexists; by left.
    + rewrite (Server1_init_invalid w req s Hc). exists []. by right.
  - destruct (lookup_key Server2.presetPrompts (init_role req)) as [c|] eqn:Hc.
    + pose proof (Server2_init_served w req s c Hc) as Hrun. cbv zeta in Hrun.
      destruct (groq_create w _) as [[raw|]|e]; rewrite Hrun; eexists; by left.
    + rewrite (Server2_init_invalid w req s Hc). exists []. by right.
Qed.

(** X4.  Sessions are isolated.  A [/chat] or [/init] request leaves the
    entry of every other session untouched, and the answer to a [/chat]
    request is the same on any two servers that store the same history for
    the request's session, whatever they store for the others. *)
Theorem sessions_isolated w req ireq s :
  (∀ sid, sid ≠ sessionId req →
     chatHistory (run (Server1.post_chat w req) s).2 !! sid = chatHistory s !! sid
     ∧ chatHistory (run (Server2.post_chat w req) s).2 !! sid = chatHistory s !! sid
     ∧ chatHistory (run (Part001.post_chat w req) s).2 !! sid = chatHistory s !! sid)
  ∧ (∀ sid, sid ≠ init_sessionId ireq →
       chatHistory (run (Server1.post_init w ireq) s).2 !! sid = chatHistory s !! sid
       ∧ chatHistory (run (Server2.post_init w ireq) s).2 !! sid = chatHistory s !! sid
       ∧ chatHistory (run (Part001.post_init w ireq) s).2 !! sid = chatHistory s !! sid)
  ∧ (∀ s', stored s (sessionId req) = stored s' (sessionId req) →
       (run (Server1.post_chat w req) s).1 = (run (Server1.post_chat w req) s').1
       ∧ (run (Server2.post_chat w req) s).1 = (run (Server2.post_chat w req) s').1
       ∧ (run (Part001.post_chat w req) s).1 = (run (Part001.post_chat w req) s').1).
Proof.
  split_and!.
  - intros sid Hne.
    destruct (chat_history_update w req s) as ([h1 [-> | ->]] & [h2 [-> | ->]] & [h3 [-> | ->]]);
      by rewrite ?lookup_insert_ne.
  - intros sid Hne. unfold Part001.post_init.
    destruct (init_history_update w ireq s) as ([h1 [-> | ->]] & [h2 [-> | ->]]);
      by rewrite ?lookup_insert_ne.
  - intros s'. apply chat_response_local.
Qed.

Lemma sessions_isolated_witness :
  let w := answering "Sure." in
  let s := (run (Part001.post_chat w (ask "s1" "Hi")) empty_server).2 in
  chatHistory (run (Part001.post_chat w (ask "s2" "Hello")) s).2 !! Some "s1"
  = chatHistory s !! Some "s1"
  ∧ (run (Server1.post_chat w (ask "s2" "Hello")) s).1
    = (run (Server1.post_chat w (ask "s2" "Hello")) empty_server).1.
Proof.
  cbv zeta.
  set (w := answering "Sure.").
  set (s := (run (Part001.post_chat w (ask "s1" "Hi")) empty_server).2).
  destruct (sessions_isolated w (ask "s2" "Hello")
              {| init_role := None; init_sessionId := None |} s)
    as (H1 & _ & H3).
  split.
  - assert (Some "s1" ≠ sessionId (ask "s2" "Hello")) as Hne by done.
    exact (proj2 (proj2 (H1 _ Hne))).
  - assert (stored s (sessionId (ask "s2" "Hello"))
            = stored empty_server (sessionId (ask "s2" "Hello"))) as Hst
      by (by vm_compute).
    exact (proj1 (H3 empty_server Hst)).
Defined.

(** X5.  After [/clear-history] a session with a non-empty id starts
    afresh: the next [/chat] on it is answered as on a server that never saw
    the session, and what is stored afterwards is the exchange of that
    request alone. *)
Theorem chat_after_clear_is_fresh w req s :
  sessionId req ≠ None →
  sessionId req ≠ Some "" →
  let cleared := (run (post_clear_history (sessionId req)) s).2 in
  (run (Server1.post_chat w req) cleared).1
  = (run (Server1.post_chat w req) empty_server).1
  ∧ (run (Server2.post_chat w req) cleared).1
    = (run (Server2.post_chat w req) empty_server).1
  ∧ (run (Part001.post_chat w req) cleared).1
    = (run (Part001.post_chat w req) empty_server).1
  ∧ stored (run (Server1.post_chat w req) cleared).2 (sessionId req)
    = exchange req (run (Server1.post_chat w req) cleared).1
  ∧ stored (run (Server2.post_chat w req) cleared).2 (sessionId req)
    = exchange req (run (Server2.post_chat w req) cleared).1
  ∧ stored (run (Part001.post_chat w req) cleared).2 (sessionId req)
    = exchange req (run (Part001.post_chat w req) cleared).1.
Proof.
  intros Hsid Hempty cleared.
  assert (stored cleared (sessionId req) = []) as Hfresh.
  { unfold stored, cleared, post_clear_history, delete_history. step_handler.
    destruct (sessionId req) as [[|c k]|]; [done| |done].
    change (Js.truthy (Some (String c k))) with true. cbn.
    by rewrite lookup_delete_eq. }
  assert (∀ x : list entry, length x ≤ 2 → Js.slice_last 6 x = x) as Hsix
    by (intros x Hx; apply slice_last_short; lia).
  assert (∀ x : list entry, length x ≤ 2 → Js.slice_last 10 x = x) as Hten
    by (intros x Hx; apply slice_last_short; lia).
  assert (∀ r, length (exchange req r) ≤ 2) as Hex.
  { intros r. unfold exchange. destruct (body r); cbn; lia. }
  destruct (chat_response_local w req cleared empty_server) as (H1 & H2 & H3);
    [by rewrite Hfresh|].
  split_and!; [done..| | |].
  - rewrite (chat_stored _ _ Server1_chat_effect)
      by (rewrite Hfresh; reflexivity).
    rewrite Hfresh, decide_True by done. apply Hsix, Hex.
  - rewrite (chat_stored (fun h => h) _ Server2_chat_effect) by done.
    by rewrite Hfresh, decide_True.
  - rewrite (chat_stored _ _ Part001_chat_effect)
      by (rewrite Hfresh; reflexivity).
    rewrite Hfresh, decide_True by done. apply Hten, Hex.
Qed.

Lemma chat_after_clear_is_fresh_witness :
  let w := answering "Sure." in
  let s := (run (Part001.post_chat w (ask "s1" "Hi")) empty_server).2 in
  let cleared := (run (post_clear_history (Some "s1")) s).2 in
  (run (Part001.post_chat w (ask "s1" "Hi")) cleared).1
  = (run (Part001.post_chat w (ask "s1" "Hi")) empty_server).1.
Proof.
  cbv zeta.
  assert (sessionId (ask "s1" "Hi") ≠ None) as Hsid by done.
  assert (sessionId (ask "s1" "Hi") ≠ Some "") as Hempty by done.
  exact (proj1 (proj2 (proj2 (chat_after_clear_is_fresh
                                (answering "Sure.") (ask "s1" "Hi") _
                                Hsid Hempty)))).
Defined.

(** ** The outbound calls of a request *)

Lemma completion_calls_app cs rs :
  completion_calls (cs ++ map speech_call rs) = completion_calls cs.
Proof.
  unfold completion_calls. rewrite omap_app.
  fold (completion_calls (map speech_call rs)).
  by rewrite completion_calls_map, app_nil_r.
Qed.

Lemma speech_calls_app r0 rs :
  speech_calls (completion_call r0 :: map speech_call rs) = rs.
Proof. cbn. apply speech_calls_map. Qed.

Lemma Server1_completion_failed_body w e s :
  ∃ code err retry details,
    run (Server1.completion_failed w e) s
    = ({| status := code; body := json_error err retry details |}, s)
    ∧ code ≠ 200.
Proof.
  unfold Server1.completion_failed.
  destruct (match error_message e with Some _ => _ | None => _ end);
    by eexists _, _, _, _.
Qed.

Lemma Server2_completion_failed_body w e s :
  ∃ code err retry details,
    run (Server2.completion_failed w e) s
    = ({| status := code; body := json_error err retry details |}, s)
    ∧ code ≠ 200.
Proof.
  unfold Server2.completion_failed.
  destruct (match error_message e with Some _ => _ | None => _ end);
    by eexists _, _, _, _.
Qed.

(** The speech requests a [/chat] request of each variant issues, read off
    its answer. *)
Lemma Server1_chat_trace w req s :
  let r := (run (Server1.post_chat w req) s).1 in
  let speech :=
    match body r with
    | json_reply reply _ =>
        if ttsEnabled req && Js.truthy (voiceId req)
           && negb (is_null (voiceSettings req))
        then [speech_of_Server1 (Js.or_else (voiceId req) "") reply
                (settings_value (voiceSettings req))]
        else []
    | _ => []
    end in
  new_calls s (run (Server1.post_chat w req) s).2
  = (if decide (message req = "") then []
     else [completion_call (completion_of_Server1 (stored s (sessionId req)) req)])
    ++ map speech_call speech
  ∧ audio_of r = omap (fun q => data_url <$> elevenlabs w q) speech.
Proof.
  cbv zeta. destruct (decide (message req = "")) as [Hm|Hm].
  { rewrite (Server1_chat_missing w req s Hm). by rewrite new_calls_same. }
  pose proof (Server1_chat_full w req s Hm) as H. cbv zeta in H.
  destruct (groq_create w _) as [c|e]; rewrite H.
  - rewrite Server1_chat_audio_eq.
    destruct (_ && _); cbn -[new_calls with_history].
    + unfold with_calls, with_history, new_calls. cbn.
      rewrite <- app_assoc, drop_app_length. split; [done|].
      by destruct (elevenlabs w _).
    + by rewrite new_calls_with_history.
  - destruct (Server1_completion_failed_body w e (with_calls s [completion_call
      (completion_of_Server1 (stored s (sessionId req)) req)]))
      as (code & err & retry & details & -> & _).
    cbn -[new_calls]. by rewrite new_calls_with_calls.
Qed.

Lemma Server2_chat_trace w req s :
  let r := (run (Server2.post_chat w req) s).1 in
  let voice := Server2.selectedVoiceId_of w (voiceId req) in
  let speech :=
    match body r with
    | json_reply reply _ =>
        if ttsEnabled req && Js.truthy voice && negb (is_null (voiceSettings req))
        then [Server2.speech_fetch voice reply (settings_value (voiceSettings req))]
        else []
    | _ => []
    end in
  new_calls s (run (Server2.post_chat w req) s).2
  = (if decide (message req = "") then []
     else [completion_call (completion_of_Server2 (stored s (sessionId req)) req)])
    ++ map speech_call speech
  ∧ audio_of r = omap (fun q => buffer <$> elevenlabs w q) speech.
Proof.
  cbv zeta. destruct (decide (message req = "")) as [Hm|Hm].
  { rewrite (Server2_chat_missing w req s Hm). by rewrite new_calls_same. }
  pose proof (Server2_chat_full w req s Hm) as H. cbv zeta in H.
  destruct (groq_create w _) as [c|e]; rewrite H.
  - rewrite Server2_chat_audio_eq. cbv zeta.
    destruct (_ && _); cbn -[new_calls with_history].
    + unfold with_calls, with_history, new_calls. cbn.
      rewrite <- app_assoc, drop_app_length. split; [done|].
      by destruct (elevenlabs w _).
    + by rewrite new_calls_with_history.
  - destruct (Server2_completion_failed_body w e (with_calls s [completion_call
      (completion_of_Server2 (stored s (sessionId req)) req)]))
      as (code & err & retry & details & -> & _).
    cbn -[new_calls]. by rewrite new_calls_with_calls.
Qed.

Lemma Part001_chat_trace w req s :
  let r := (run (Part001.post_chat w req) s).1 in
  let speech :=
    match body r with
    | json_text text _ =>
        if ttsEnabled req && Js.truthy (Server2.selectedVoiceId_of w (voiceId req))
           && negb (is_null (voiceSettings req))
        then speech_of_Part001 w req text
        else []
    | _ => []
    end in
  new_calls s (run (Part001.post_chat w req) s).2
  = (if decide (message req = "") then []
     else [completion_call (completion_of_Part001 (stored s (sessionId req)) req)])
    ++ map speech_call speech
  ∧ audio_of r
    = match mapM (elevenlabs w) speech with
      | Some l => map data_url l
      | None => []
      end.
Proof.
  cbv zeta. destruct (decide (message req = "")) as [Hm|Hm].
  { rewrite (Part001_chat_missing w req s Hm). by rewrite new_calls_same. }
  pose proof (Part001_chat_full w req s Hm) as H. cbv zeta in H.
  destruct (groq_create w _) as [[raw|]|e]; rewrite H;
    [|cbn -[new_calls]; by rewrite new_calls_with_calls..].
  rewrite Part001_chat_audio_eq.
  destruct (_ && _); cbn -[new_calls with_history].
  - unfold with_calls, with_history, new_calls. cbn.
    by rewrite <- app_assoc, drop_app_length.
  - by rewrite new_calls_with_history.
Qed.

(** ** The chunks of a reply, in general *)

Lemma split_app_sep sep (a b : string) :
  Js.split sep (a +:+ String sep b) = Js.split sep a ++ Js.split sep b.
Proof.
  induction a as [|c a IH].
  - change (EmptyString +:+ String sep b) with (String sep b).
    unfold Js.split at 1 3. fold (Js.split sep b). by rewrite Ascii.eqb_refl.
  - change (String c a +:+ String sep b) with (String c (a +:+ String sep b)).
    unfold Js.split at 1 2. fold (Js.split sep (a +:+ String sep b)).
    fold (Js.split sep a). rewrite IH.
    pose proof (split_nonempty sep a) as Hne.
    destruct (Ascii.eqb c sep); [done|].
    by destruct (Js.split sep a).
Qed.

Lemma split_join_concat sep (chunks : list string) :
  chunks ≠ [] →
  Js.split sep (Js.join (String sep EmptyString) chunks)
  = concat (map (Js.split sep) chunks).
Proof.
  induction chunks as [|c chunks IH]; [done|]. intros _.
  destruct chunks as [|c' chunks].
  - cbn. by rewrite app_nil_r.
  - rewrite join_cons, split_app_sep, IH by done. done.
Qed.

Lemma length_concat_full (full : list string) :
  Forall (fun c => word_count c = 50) full →
  length (concat (map (Js.split " ") full)) = 50 * length full.
Proof.
  induction 1 as [|c full Hc _ IH]; [done|].
  cbn [map concat length]. rewrite length_app, IH.
  unfold word_count in Hc. lia.
Qed.

(** The loop closes a chunk at every fiftieth word and loses none. *)
Lemma chunk_loop_general (ws : list string) : ∀ chunks cur,
  length cur < 50 →
  Forall (free_of " ") (cur ++ ws) →
  ∃ full rest,
    fold_left Part001.chunk_step ws (chunks, cur) = (chunks ++ full, rest)
    ∧ length rest < 50
    ∧ concat (map (Js.split " ") full) ++ rest = cur ++ ws
    ∧ Forall (fun c => word_count c = 50) full.
Proof.
  induction ws as [|w ws IH]; intros chunks cur Hcur Hfree.
  - exists [], cur. by rewrite !app_nil_r.
  - cbn [fold_left].
    destruct (decide (length cur + 1 < 50)) as [Hopen|Hclose].
    + rewrite chunk_step_open by done.
      destruct (IH chunks (cur ++ [w])) as (full & rest & -> & Hrest & Hcat & Hfull).
      * rewrite length_app. cbn. lia.
      * by rewrite <- app_assoc.
      * exists full, rest. by rewrite Hcat, <- app_assoc.
    + rewrite chunk_step_close by lia.
      assert (Forall (free_of " ") (cur ++ [w]) ∧ Forall (free_of " ") ws)
        as [Hcw Hws].
      { apply Forall_app. by rewrite <- app_assoc. }
      assert (Js.split " " (Js.join " " (cur ++ [w])) = cur ++ [w]) as Hsplit.
      { apply split_join; [by destruct cur|done]. }
      destruct (IH (chunks ++ [Js.join " " (cur ++ [w])]) [])
        as (full & rest & -> & Hrest & Hcat & Hfull); [cbn; lia|done|].
      exists (Js.join " " (cur ++ [w]) :: full), rest.
      split_and!; [by rewrite <- app_assoc|done| |].
      * cbn [map concat]. rewrite Hsplit, <- !app_assoc.
        cbn [app] in *. by rewrite Hcat.
      * constructor; [|done]. unfold word_count. rewrite Hsplit, length_app.
        cbn. lia.
Qed.

Lemma chunk_words_general (ws : list string) :
  Forall (free_of " ") ws →
  concat (map (Js.split " ") (Part001.chunk_words ws)) = ws
  ∧ (∃ full last,
       Part001.chunk_words ws = full ++ last
       ∧ Forall (fun c => word_count c = 50) full
       ∧ (last = [] ∨ ∃ c, last = [c] ∧ 0 < word_count c < 50))
  ∧ length ws ≤ 50 * length (Part001.chunk_words ws) < length ws + 50
  ∧ (∀ text, ws = Js.split " " text →
       Part001.chunk_words ws ≠ []
       ∧ Js.join " " (Part001.chunk_words ws) = text).
Proof.
  intros Hfree.
  destruct (chunk_loop_general ws [] []) as (full & rest & Hloop & Hrest & Hcat & Hfull);
    [cbn; lia|done|].
  cbn [app] in Hloop, Hcat.
  assert (Forall (free_of " ") rest) as Hfree_rest.
  { rewrite <- Hcat in Hfree. by apply Forall_app in Hfree as [_ ?]. }
  assert (length ws = 50 * length full + length rest) as Hlen.
  { rewrite <- Hcat, length_app. by rewrite length_concat_full. }
  assert (Part001.chunk_words ws
          = full ++ if 0 <? length rest then [Js.join " " rest] else []) as Hchunks.
  { unfold Part001.chunk_words. rewrite Hloop.
    destruct (0 <? length rest); [done|by rewrite app_nil_r]. }
  assert (concat (map (Js.split " ") (Part001.chunk_words ws)) = ws) as Hwords.
  { rewrite Hchunks, map_app, concat_app.
    destruct rest as [|w rest]; cbn [length Nat.ltb Nat.leb map concat].
    - by rewrite app_nil_r in Hcat |- *.
    - rewrite split_join by done. by rewrite app_nil_r. }
  assert (length ws ≤ 50 * length (Part001.chunk_words ws) < length ws + 50) as Hcount.
  { rewrite Hchunks, length_app, Hlen.
    destruct rest as [|w rest]; cbn [length Nat.ltb Nat.leb] in *; lia. }
  split; [done|]. split; [|split; [done|]].
  - exists full, (if 0 <? length rest then [Js.join " " rest] else []).
    split_and!; [done..|].
    destruct rest as [|w rest]; [by left|right].
    cbn [length Nat.ltb Nat.leb]. eexists. split; [done|].
    unfold word_count. rewrite split_join by done. cbn [length] in *. lia.
  - intros text ->.
    assert (Part001.chunk_words (Js.split " " text) ≠ []) as Hne.
    { intros Hnil. rewrite Hnil in Hcount. cbn in Hcount.
      pose proof (split_nonempty " " text).
      destruct (Js.split " " text); [done|cbn in Hcount; lia]. }
    split; [done|].
    rewrite <- (join_split " " (Js.join " " _)), split_join_concat, Hwords by done.
    apply join_split.
Qed.

(** X6.  The chunking of [part_001] loses and reorders nothing: for words
    free of spaces, the words of the chunks, taken in order, are the words
    given; every chunk but the last has exactly 50 words and the last has
    between 1 and 50; so [n] words make [n/50] chunks, rounded up.  For a
    reply text, the chunks joined by single spaces give the text back, and
    there is always at least one chunk. *)
Theorem chunk_words_partition (ws : list string) :
  Forall (free_of " ") ws →
  concat (map (Js.split " ") (Part001.chunk_words ws)) = ws
  ∧ (∃ full last,
       Part001.chunk_words ws = full ++ last
       ∧ Forall (fun c => word_count c = 50) full
       ∧ (last = [] ∨ ∃ c, last = [c] ∧ 0 < word_count c < 50))
  ∧ length ws ≤ 50 * length (Part001.chunk_words ws) < length ws + 50
  ∧ (∀ text, ws = Js.split " " text →
       Part001.chunk_words ws ≠ []
       ∧ Js.join " " (Part001.chunk_words ws) = text).
Proof. apply chunk_words_general. Qed.

Lemma chunk_words_partition_witness :
  concat (map (Js.split " ") (Part001.chunk_words (Js.split " " many_words)))
  = Js.split " " many_words
  ∧ Js.join " " (Part001.chunk_words (Js.split " " many_words)) = many_words.
Proof.
  destruct (chunk_words_partition (Js.split " " many_words) (split_free " " many_words))
    as (Hwords & _ & _ & Htext).
  split; [exact Hwords|]. by destruct (Htext many_words eq_refl).
Defined.

(** ** When speech is attempted *)

Lemma Server1_status_body w req s :
  status (run (Server1.post_chat w req) s).1 = 200
  ↔ ∃ reply a, body (run (Server1.post_chat w req) s).1 = json_reply reply a.
Proof.
  destruct (decide (message req = "")) as [Hm|Hm].
  { rewrite (Server1_chat_missing w req s Hm). split; [done|]. by intros (? & ? & ?). }
  pose proof (Server1_chat_full w req s Hm) as H. cbv zeta in H.
  destruct (groq_create w _) as [c|e]; rewrite H.
  - split; [|done]. intros _. by eexists _, _.
  - destruct (Server1_completion_failed_body w e (with_calls s [completion_call
      (completion_of_Server1 (stored s (sessionId req)) req)]))
      as (code & err & retry & details & -> & Hcode).
    split; [done|]. by intros (? & ? & ?).
Qed.

Lemma Server2_status_body w req s :
  status (run (Server2.post_chat w req) s).1 = 200
  ↔ ∃ reply a, body (run (Server2.post_chat w req) s).1 = json_reply reply a.
Proof.
  destruct (decide (message req = "")) as [Hm|Hm].
  { rewrite (Server2_chat_missing w req s Hm). split; [done|]. by intros (? & ? & ?). }
  pose proof (Server2_chat_full w req s Hm) as H. cbv zeta in H.
  destruct (groq_create w _) as [c|e]; rewrite H.
  - split; [|done]. intros _. by eexists _, _.
  - destruct (Server2_completion_failed_body w e (with_calls s [completion_call
      (completion_of_Server2 (stored s (sessionId req)) req)]))
      as (code & err & retry & details & -> & Hcode).
    split; [done|]. by intros (? & ? & ?).
Qed.

Lemma Part001_status_body w req s :
  status (run (Part001.post_chat w req) s).1 = 200
  ↔ ∃ text a, body (run (Part001.post_chat w req) s).1 = json_text text a.
Proof.
  destruct (decide (message req = "")) as [Hm|Hm].
  { rewrite (Part001_chat_missing w req s Hm). split; [done|]. by intros (? & ? & ?). }
  pose proof (Part001_chat_full w req s Hm) as H. cbv zeta in H.
  destruct (groq_create w _) as [[raw|]|e]; rewrite H;
    [|split; [done|by intros (? & ? & ?)]..].
  split; [|done]. intros _. by eexists _, _.
Qed.

Lemma is_null_false (a : voice_arg) : is_null a = false ↔ a ≠ null_settings.
Proof. by destruct a. Qed.

Lemma speech_of_Part001_nonempty w req text : speech_of_Part001 w req text ≠ [].
Proof.
  unfold speech_of_Part001. intros H. apply map_eq_nil in H.
  by destruct (proj2 (proj2 (proj2 (chunk_words_general _ (split_free " " text))))
                 text eq_refl) as [Hne _].
Qed.

Lemma speech_calls_of_trace (prefix : list call) (speech : list speech_request) :
  (prefix = [] ∨ ∃ r0, prefix = [completion_call r0]) →
  speech_calls (prefix ++ map speech_call speech) = speech.
Proof. intros [->|[r0 ->]]; cbn; apply speech_calls_map. Qed.

Lemma chat_prefix (m : string) (r0 : completion_request) :
  let prefix := if decide (m = "") then [] else [completion_call r0] in
  prefix = [] ∨ ∃ r, prefix = [completion_call r].
Proof. cbv zeta. destruct (decide _); [by left|right; by eexists]. Qed.

(** X7.  A [/chat] request issues a speech call exactly when it is answered
    with status 200, [ttsEnabled] is set, a voice id is at hand (the
    [voiceId] of the request in the first copy of [src/server.js], that or
    [ELEVENLABS_VOICE_ID] in the other variants) and the voice settings of
    the request are not [null].  A response carries audio only if a speech
    call was issued. *)
Theorem speech_attempted_iff w req s :
  (speech_calls (new_calls s (run (Server1.post_chat w req) s).2) ≠ []
   ↔ status (run (Server1.post_chat w req) s).1 = 200
     ∧ ttsEnabled req = true ∧ Js.truthy (voiceId req) = true
     ∧ voiceSettings req ≠ null_settings)
  ∧ (speech_calls (new_calls s (run (Server2.post_chat w req) s).2) ≠ []
     ↔ status (run (Server2.post_chat w req) s).1 = 200
       ∧ ttsEnabled req = true
       ∧ Js.truthy (Server2.selectedVoiceId_of w (voiceId req)) = true
       ∧ voiceSettings req ≠ null_settings)
  ∧ (speech_calls (new_calls s (run (Part001.post_chat w req) s).2) ≠ []
     ↔ status (run (Part001.post_chat w req) s).1 = 200
       ∧ ttsEnabled req = true
       ∧ Js.truthy (Server2.selectedVoiceId_of w (voiceId req)) = true
       ∧ voiceSettings req ≠ null_settings)
  ∧ (audio_of (run (Server1.post_chat w req) s).1 ≠ [] →
     speech_calls (new_calls s (run (Server1.post_chat w req) s).2) ≠ [])
  ∧ (audio_of (run (Server2.post_chat w req) s).1 ≠ [] →
     speech_calls (new_calls s (run (Server2.post_chat w req) s).2) ≠ [])
  ∧ (audio_of (run (Part001.post_chat w req) s).1 ≠ [] →
     speech_calls (new_calls s (run (Part001.post_chat w req) s).2) ≠ []).
Proof.
  destruct (Server1_chat_trace w req s) as [T1 A1].
  destruct (Server2_chat_trace w req s) as [T2 A2].
  destruct (Part001_chat_trace w req s) as [T3 A3].
  cbv zeta in *.
  rewrite T1, T2, T3, A1, A2, A3.
  rewrite !speech_calls_of_trace by apply chat_prefix.
  rewrite Server1_status_body, Server2_status_body, Part001_status_body.
  rewrite <- !is_null_false.
  assert (∀ (tts voice null : bool) (l : list speech_request) (P : Prop),
            P → l ≠ [] →
            (if tts && voice && negb null then l else []) ≠ []
            ↔ P ∧ tts = true ∧ voice = true ∧ null = false) as Hcase.
  { intros [] [] [] l P HP Hl; cbn; split; try done;
      first [by intros (_ & ? & ? & ?)|intros H; by destruct H]. }
  clear T1 T2 T3 A1 A2 A3. split_and!.
  - destruct (body (run (Server1.post_chat w req) s).1) as [| | |reply a| |];
      try (split; [intros H; by destruct H|by intros [(? & ? & ?) _]]).
    apply Hcase; [by eexists _, _|done].
  - destruct (body (run (Server2.post_chat w req) s).1) as [| | |reply a| |];
      try (split; [intros H; by destruct H|by intros [(? & ? & ?) _]]).
    apply Hcase; [by eexists _, _|done].
  - destruct (body (run (Part001.post_chat w req) s).1) as [| | | |text a|];
      try (split; [intros H; by destruct H|by intros [(? & ? & ?) _]]).
    apply Hcase; [by eexists _, _|apply speech_of_Part001_nonempty].
  - intros H Hnil. by rewrite Hnil in H.
  - intros H Hnil. by rewrite Hnil in H.
  - intros H Hnil. by rewrite Hnil in H.
Qed.

Lemma speech_attempted_iff_witness :
  let w := talking "Sure." in
  let req := aloud "21m00Tcm4TlvDq8ikWAM" (ask "s1" "Hi") in
  speech_calls (new_calls empty_server (run (Part001.post_chat w req) empty_server).2) ≠ [].
Proof.
  cbv zeta.
  apply (proj2 (proj2 (proj2 (proj2 (proj2 (speech_attempted_iff _ _ _)))))).
  by vm_compute.
Defined.

(** X8.  In [part_001], for an answered request with [ttsEnabled] set, a
    voice at hand and voice settings that are not [null], whatever the
    length of the reply: one speech call is
    issued per chunk of the reply, in chunk order, the texts of the calls
    joined by single spaces are the reply, and their number is the number of
    words divided by 50, rounded up.  The audio returned is all or nothing:
    one entry per call, in order, when every call succeeds, and empty as soon
    as one call fails. *)
Theorem speech_per_chunk w req s text audioChunks :
  body (run (Part001.post_chat w req) s).1 = json_text text audioChunks →
  ttsEnabled req = true →
  Js.truthy (Server2.selectedVoiceId_of w (voiceId req)) = true →
  voiceSettings req ≠ null_settings →
  let calls := speech_calls (new_calls s (run (Part001.post_chat w req) s).2) in
  map speech_text calls = Part001.chunk_words (Js.split " " text)
  ∧ Js.join " " (map speech_text calls) = text
  ∧ word_count text ≤ 50 * length calls < word_count text + 50
  ∧ (∀ results, Forall2 (fun q a => elevenlabs w q = Some a) calls results →
       audioChunks = map data_url results)
  ∧ (Exists (fun q => elevenlabs w q = None) calls → audioChunks = [])
  ∧ (audioChunks = [] ∨ length audioChunks = length calls).
Proof.
  intros Hbody Htts Hvoice Hnull. cbv zeta. apply is_null_false in Hnull.
  destruct (Part001_chat_trace w req s) as [T A]. cbv zeta in T, A.
  unfold audio_of in A. rewrite Hbody, Htts, Hvoice, Hnull in T, A.
  cbn [andb negb] in T, A.
  rewrite T, speech_calls_of_trace by apply chat_prefix.
  destruct (chunk_words_general _ (split_free " " text)) as (_ & _ & Hcount & Htext).
  destruct (Htext text eq_refl) as [_ Hjoin].
  assert (map speech_text (speech_of_Part001 w req text)
          = Part001.chunk_words (Js.split " " text)) as Htexts.
  { unfold speech_of_Part001. rewrite map_map. cbn. apply map_id. }
  split_and!.
  - done.
  - by rewrite Htexts.
  - unfold speech_of_Part001. rewrite length_map. apply Hcount.
  - unfold speech_of_Part001. rewrite length_map. apply Hcount.
  - intros results Hall. apply mapM_Some_2 in Hall. by rewrite Hall in A.
  - intros Hone. apply mapM_None_2 in Hone. by rewrite Hone in A.
  - destruct (mapM _ _) as [l|] eqn:Hl; [right|by left].
    rewrite A, length_map. symmetry. by apply length_mapM in Hl.
Qed.

Lemma speech_per_chunk_witness :
  let w := talking many_words in
  let req := aloud "21m00Tcm4TlvDq8ikWAM" (ask "s1" "Hi") in
  let calls :=
    speech_calls (new_calls empty_server (run (Part001.post_chat w req) empty_server).2) in
  Js.join " " (map speech_text calls) = many_words
  ∧ word_count many_words ≤ 50 * length calls < word_count many_words + 50.
Proof.
  cbv zeta.
  destruct (speech_per_chunk (talking many_words)
              (aloud "21m00Tcm4TlvDq8ikWAM" (ask "s1" "Hi")) empty_server many_words
              (map data_url
                 (map (fun c => "mpeg of " +:+ c)
                    (Part001.chunk_words (Js.split " " many_words)))))
    as (_ & Hjoin & Hcount & _); [by vm_compute..|].
  by split.
Defined.

(** X9.  The speech subsystem cannot fail a [/chat] request: replacing the
    speech API and the default voice of the world by any others changes
    neither the status of the answer, nor the reply text it carries, nor any
    stored history. *)
Theorem speech_cannot_fail_chat w api voice req s :
  let w' := with_speech w api voice in
  (status (run (Server1.post_chat w' req) s).1 = status (run (Server1.post_chat w req) s).1
   ∧ exchange req (run (Server1.post_chat w' req) s).1
     = exchange req (run (Server1.post_chat w req) s).1
   ∧ chatHistory (run (Server1.post_chat w' req) s).2
     = chatHistory (run (Server1.post_chat w req) s).2)
  ∧ (status (run (Server2.post_chat w' req) s).1 = status (run (Server2.post_chat w req) s).1
     ∧ exchange req (run (Server2.post_chat w' req) s).1
       = exchange req (run (Server2.post_chat w req) s).1
     ∧ chatHistory (run (Server2.post_chat w' req) s).2
       = chatHistory (run (Server2.post_chat w req) s).2)
  ∧ (status (run (Part001.post_chat w' req) s).1 = status (run (Part001.post_chat w req) s).1
     ∧ exchange req (run (Part001.post_chat w' req) s).1
       = exchange req (run (Part001.post_chat w req) s).1
     ∧ chatHistory (run (Part001.post_chat w' req) s).2
       = chatHistory (run (Part001.post_chat w req) s).2).
Proof.
  cbv zeta. destruct (decide (message req = "")) as [Hm|Hm].
  { by rewrite !Server1_chat_missing, !Server2_chat_missing, !Part001_chat_missing. }
  split_and!.
  1-3: pose proof (Server1_chat_full w req s Hm) as H;
       pose proof (Server1_chat_full (with_speech w api voice) req s Hm) as H';
       cbv zeta in H, H'; cbn [with_speech groq_create] in H';
       destruct (groq_create w _) as [c|e]; rewrite H, H';
       [rewrite !Server1_chat_audio_eq; by repeat destruct (_ && _)
       |unfold Server1.completion_failed; cbn [with_speech NODE_ENV];
        by destruct (match error_message e with Some _ => _ | None => _ end)].
  1-3: pose proof (Server2_chat_full w req s Hm) as H;
       pose proof (Server2_chat_full (with_speech w api voice) req s Hm) as H';
       cbv zeta in H, H'; cbn [with_speech groq_create] in H';
       destruct (groq_create w _) as [c|e]; rewrite H, H';
       [rewrite !Server2_chat_audio_eq; cbv zeta; by repeat destruct (_ && _)
       |unfold Server2.completion_failed; cbn [with_speech NODE_ENV];
        by destruct (match error_message e with Some _ => _ | None => _ end)].
  1-3: pose proof (Part001_chat_full w req s Hm) as H;
       pose proof (Part001_chat_full (with_speech w api voice) req s Hm) as H';
       cbv zeta in H, H'; cbn [with_speech groq_create] in H';
       destruct (groq_create w _) as [[raw|]|e]; rewrite H, H'; [|done..];
       rewrite !Part001_chat_audio_eq; by repeat destruct (_ && _).
Qed.

(** ** Role keys that name inherited members *)

(** A name [Object.prototype] has is no key of the tables. *)
Lemma inherited_not_persona key m :
  lookup_role Object_prototype key = Some m →
  lookup_role Server1.presetPrompts key = None
  ∧ lookup_role Server2.presetPrompts key = None
  ∧ lookup_role Server1.roleToVoice key = None.
Proof.
  unfold lookup_role. destruct key as [k|]; [|done].
  destruct (Js.truthy (Some k)); [|done]. intros Hm.
  apply elem_of_list_to_map_2 in Hm.
  repeat (apply elem_of_cons in Hm as [[= -> ->]|Hm]; [by vm_compute|]).
  by apply elem_of_nil in Hm.
Qed.

Lemma inherited_config {V} (table : gmap string V) key m :
  lookup_role table key = None →
  lookup_role Object_prototype key = Some m →
  lookup_key table key = Some (inherited m).
Proof. intros Hno Hm. by rewrite (lookup_key_inherited _ _ Hno), Hm. Qed.

(** X10.  A role key that names a member the registry object inherits
    ([constructor], [toString], [__proto__], ...) passes the role test of
    [/init] and of [/chat] although it names no persona.  [/init] does not
    answer 400: it sends a completion request whose system message has no
    content and, when answered, stores that message at the head of the
    session.  [/chat] does not fall back to the default persona: the system
    message reads [undefined Always be concise and direct.] in the first
    copy of [src/server.js] and has no content in the other variants, and
    [part_001] takes the member's own name, if it has one, as the display
    name. *)
Theorem inherited_role_key_served w req ireq s m :
  (lookup_role Object_prototype (init_role ireq) = Some m →
   let r0 :=
     {| messages :=
          [ {| role := Role.system; content := None |};
            turn Role.user greeting_request ];
        completion_model := "llama-3.1-70b-versatile";
        max_tokens := 1024 |} in
   status (run (Server1.post_init w ireq) s).1 ≠ 400
   ∧ status (run (Server2.post_init w ireq) s).1 ≠ 400
   ∧ status (run (Part001.post_init w ireq) s).1 ≠ 400
   ∧ (∀ raw, groq_create w r0 = Resolved (Some raw) →
        let h :=
          [ {| role := Role.system; content := None |};
            turn Role.user greeting_request;
            turn Role.assistant (without_stars raw) ] in
        status (run (Server1.post_init w ireq) s).1 = 200
        ∧ stored (run (Server1.post_init w ireq) s).2 (init_sessionId ireq) = h
        ∧ run (Server2.post_init w ireq) s
          = ({| status := 200; body := json_init_chunks (without_stars raw) [] |},
             with_history s (init_sessionId ireq) h [completion_call r0])))
  ∧ (lookup_role Object_prototype (selectedRole req) = Some m →
     message req ≠ "" →
     head (new_calls s (run (Server1.post_chat w req) s).2)
     = Some (completion_call
               {| messages :=
                    turn Role.system "undefined Always be concise and direct."
                    :: Js.slice_last 4 (stored s (sessionId req))
                    ++ [turn Role.user (message req)];
                  completion_model := "mixtral-8x7b-32768";
                  max_tokens := 100 |})
     ∧ head (new_calls s (run (Server2.post_chat w req) s).2)
       = Some (completion_call
                 {| messages :=
                      {| role := Role.system; content := None |}
                      :: stored s (sessionId req) ++ [turn Role.user (message req)];
                    completion_model := Js.or_else (model req) "mixtral-8x7b-32768";
                    max_tokens := 1024 |})
     ∧ head (new_calls s (run (Part001.post_chat w req) s).2)
       = Some (completion_call
                 {| messages :=
                      {| role := Role.system; content := None |}
                      :: stored s (sessionId req) ++ [turn Role.user (message req)];
                    completion_model := Js.or_else (model req) "llama-3.1-70b-versatile";
                    max_tokens := 1024 |})
     ∧ name_of (Part001.roleConfig_of (selectedRole req)) = as_text (member_name m)).
Proof.
  split.
  - intros Hm. cbv zeta.
    destruct (inherited_not_persona _ _ Hm) as (N1 & N2 & _).
    pose proof (Server1_init_served w ireq s _ (inherited_config _ _ _ N1 Hm)) as R1.
    pose proof (Server2_init_served w ireq s _ (inherited_config _ _ _ N2 Hm)) as R2.
    cbv zeta in R1, R2. unfold completion_of_config, seed_of in R1, R2.
    cbn [system_of] in R1, R2.
    match type of R1 with context [groq_create w ?r] =>
      destruct (groq_create w r) as [[raw|]|e] end.
    2,3: rewrite R1; unfold Part001.post_init; rewrite R2; by split_and!.
    match type of R1 with context [Server1.init_audio w ?a ?b ?s1] =>
      destruct (Server1_init_audio_speech w a b s1) as (x & rs & Ha) end.
    rewrite Ha in R1. rewrite R1. unfold Part001.post_init. rewrite R2.
    split_and!; [done..|].
    intros raw0 [= <-]. rewrite clean_markdown_without_stars.
    split_and!; [done| |done].
    unfold stored, with_calls, with_history. cbn. by rewrite lookup_insert_eq.
  - intros Hm Hmsg.
    destruct (inherited_not_persona _ _ Hm) as (N1 & N2 & _).
    pose proof (Server1_chat_first_call w req s Hmsg) as F1.
    pose proof (Server2_chat_first_call w req s Hmsg) as F2.
    pose proof (Part001_chat_first_call w req s Hmsg) as F3.
    unfold completion_of_Server1, Server1.roleConfig_of in F1.
    unfold completion_of_Server2, Server2.roleConfig_of in F2.
    unfold completion_of_Part001 in F3. unfold Part001.roleConfig_of in F3 |- *.
    rewrite (inherited_config _ _ _ N1 Hm) in F1.
    unfold Part001.presetPrompts in *.
    rewrite (inherited_config _ _ _ N2 Hm) in F2, F3 |- *.
    by split_and!.
Qed.

Lemma inherited_role_key_served_witness :
  let w := answering "Sure." in
  let ireq := {| init_role := Some "constructor"; init_sessionId := Some "s1" |} in
  let req := with_role (Some "constructor") (ask "s1" "Hi") in
  status (run (Server1.post_init w ireq) empty_server).1 ≠ 400
  ∧ name_of (Part001.roleConfig_of (selectedRole req)) = "Object".
Proof.
  cbv zeta.
  assert (lookup_role Object_prototype (Some "constructor") = Some (native "Object"))
    as Hm by (by vm_compute).
  assert (message (with_role (Some "constructor") (ask "s1" "Hi")) ≠ "") as Hmsg
    by done.
  destruct (inherited_role_key_served (answering "Sure.")
              (with_role (Some "constructor") (ask "s1" "Hi"))
              {| init_role := Some "constructor"; init_sessionId := Some "s1" |}
              empty_server (native "Object")) as [Hinit Hchat].
  split.
  - exact (proj1 (Hinit Hm)).
  - exact (proj2 (proj2 (proj2 (Hchat Hm Hmsg)))).
Defined.

Example inherited_role_key_example :
  let w := answering "Sure." in
  (run (Part001.post_chat w (with_role (Some "constructor") (ask "s1" "Hi")))
     empty_server).1
  = {| status := 200; body := json_text "Hello! I'm Object. Sure." [] |}
  ∧ (run (Part001.post_chat w (with_role (Some "__proto__") (ask "s1" "Hi")))
       empty_server).1
    = {| status := 200; body := json_text "Hello! I'm undefined. Sure." [] |}
  ∧ (run (Part001.post_init w
            {| init_role := Some "toString"; init_sessionId := Some "s1" |})
       empty_server).1
    = {| status := 200; body := json_init_chunks "Sure." [] |}.
Proof. by vm_compute. Qed.

(** ** Speech at [/init] *)

Lemma Server1_init_audio_eq w role voice text s :
  lookup_role Server1.roleToVoice role = Some voice →
  Server1.init_audio w role text s
  = let q := speech_of_Server1 voice text empty_settings in
    (Resolved (data_url <$> elevenlabs w q), with_calls s [speech_call q]).
Proof.
  intros Hv. unfold Server1.init_audio. rewrite (lookup_key_own _ _ _ Hv).
  cbn [voice_of]. by rewrite Server1_generateSpeech_eq.
Qed.

(** Every persona key of the first copy has a voice. *)
Lemma persona_has_voice key p :
  lookup_role Server1.presetPrompts key = Some p →
  is_Some (lookup_role Server1.roleToVoice key).
Proof.
  unfold lookup_role. destruct key as [k|]; [|done].
  destruct (Js.truthy (Some k)); [|done]. intros Hp.
  apply elem_of_list_to_map_2 in Hp.
  repeat (apply elem_of_cons in Hp as [[= -> ->]|Hp];
          [eexists; vm_compute; reflexivity|]).
  by apply elem_of_nil in Hp.
Qed.

(** X11.  Speech at [/init].  In the first copy of [src/server.js] an
    [/init] for a persona key whose completion call is answered issues
    exactly one speech call after it, for the cleaned greeting, with the
    voice the role has in [roleToVoice] and both settings at 0.5, and
    returns its result (or [null] when it fails).  In the second copy and in
    [part_001], where no [roleToVoice] is declared, [/init] never issues a
    speech call and never returns audio, whatever the role key and the
    world. *)
Theorem init_speech w req s :
  speech_calls (new_calls s (run (Server2.post_init w req) s).2) = []
  ∧ audio_of (run (Server2.post_init w req) s).1 = []
  ∧ speech_calls (new_calls s (run (Part001.post_init w req) s).2) = []
  ∧ audio_of (run (Part001.post_init w req) s).1 = []
  ∧ (∀ p raw,
       lookup_role Server1.presetPrompts (init_role req) = Some p →
       groq_create w (completion_of_init p) = Resolved (Some raw) →
       ∃ voice,
         lookup_role Server1.roleToVoice (init_role req) = Some voice
         ∧ let q :=
             {| speech_voice := voice;
                speech_text := without_stars raw;
                model_id := "eleven_monolingual_v1";
                speech_stability := 1 # 2;
                speech_similarity_boost := 1 # 2 |} in
           run (Server1.post_init w req) s
           = ({| status := 200;
                 body := json_init_data (without_stars raw)
                           (data_url <$> elevenlabs w q) |},
              with_history s (init_sessionId req) (seed p (without_stars raw))
                [completion_call (completion_of_init p); speech_call q])).
Proof.
  assert (speech_calls (new_calls s (run (Server2.post_init w req) s).2) = []
          ∧ audio_of (run (Server2.post_init w req) s).1 = []) as [H2 A2].
  { destruct (lookup_key Server2.presetPrompts (init_role req)) as [c|] eqn:Hc.
    - pose proof (Server2_init_served w req s c Hc) as Hrun. cbv zeta in Hrun.
      destruct (groq_create w _) as [[raw|]|e]; rewrite Hrun; cbn [fst snd];
        by rewrite new_calls_with_history.
    - rewrite (Server2_init_invalid w req s Hc). cbn [fst snd].
      by rewrite new_calls_same. }
  split_and!; [done..|].
  intros p raw Hp Hraw.
  destruct (persona_has_voice _ _ Hp) as [voice Hvoice].
  exists voice. split; [done|]. cbv zeta.
  pose proof (Server1_init_full w req s p Hp) as Hrun.
  rewrite Hraw in Hrun. cbv zeta in Hrun.
  rewrite (Server1_init_audio_eq _ _ _ _ _ Hvoice) in Hrun. cbv zeta in Hrun.
  rewrite Hrun, clean_markdown_without_stars.
  unfold with_calls, with_history. cbn. by rewrite <- app_assoc.
Qed.

Example init_speech_example :
  audio_of (run (Server1.post_init (talking "I'm **Saul**.")
                   {| init_role := Some "lawyer"; init_sessionId := Some "s1" |})
              empty_server).1
  = [data_url "mpeg of I'm Saul."]
  ∧ audio_of (run (Part001.post_init (talking "I'm **Saul**.")
                     {| init_role := Some "lawyer"; init_sessionId := Some "s1" |})
                empty_server).1
    = [].
Proof. by vm_compute. Qed.

(** ** The first [/chat] after [/init] *)

(** X12.  In [part_001], after an [/init] that succeeded for a persona, a
    [/chat] on the same session is a later turn: its completion request
    carries the system message of the request's role followed by the three
    stored turns, whose first is the system prompt of [/init] again, and the
    user's message; when answered, the text returned is the cleaned
    completion with no introduction before it, and the session then holds
    the three turns of [/init] followed by the exchange. *)
Theorem chat_after_init w w' ireq req s p raw :
  lookup_role Part001.presetPrompts (init_role ireq) = Some p →
  groq_create w (completion_of_init p) = Resolved (Some raw) →
  sessionId req = init_sessionId ireq →
  message req ≠ "" →
  let s1 := (run (Part001.post_init w ireq) s).2 in
  let r :=
    {| messages :=
         {| role := Role.system;
            content := system_of (Part001.roleConfig_of (selectedRole req)) |}
         :: seed p (without_stars raw) ++ [turn Role.user (message req)];
       completion_model := Js.or_else (model req) "llama-3.1-70b-versatile";
       max_tokens := 1024 |} in
  stored s1 (sessionId req) = seed p (without_stars raw)
  ∧ head (new_calls s1 (run (Part001.post_chat w' req) s1).2)
    = Some (completion_call r)
  ∧ (∀ raw', groq_create w' r = Resolved (Some raw') →
       ∃ audioChunks,
         (run (Part001.post_chat w' req) s1).1
         = {| status := 200; body := json_text (without_stars raw') audioChunks |}
         ∧ stored (run (Part001.post_chat w' req) s1).2 (sessionId req)
           = seed p (without_stars raw)
             ++ [turn Role.user (message req);
                 turn Role.assistant (without_stars raw')]).
Proof.
  intros Hp Hraw Hsid Hm. cbv zeta.
  pose proof (Server2_init_full w ireq s p Hp) as Hinit.
  rewrite Hraw in Hinit. unfold Part001.post_init. rewrite Hinit. cbn [snd].
  rewrite clean_markdown_without_stars.
  set (s1 := with_history s (init_sessionId ireq) (seed p (without_stars raw))
               [completion_call (completion_of_init p)]).
  assert (stored s1 (sessionId req) = seed p (without_stars raw)) as Hst.
  { unfold s1. by rewrite stored_with_history, Hsid, decide_True. }
  pose proof (Part001_chat_first_call w' req s1 Hm) as Hfirst.
  pose proof (Part001_chat_full w' req s1 Hm) as Hrun. cbv zeta in Hrun.
  unfold completion_of_Part001 in Hfirst, Hrun. rewrite Hst in Hfirst, Hrun.
  split_and!; [done..|].
  intros raw' Hraw'. rewrite Hraw' in Hrun.
  change (length (seed p (without_stars raw)) =? 0) with false in Hrun.
  unfold Part001.ensure_introduction in Hrun. cbn [andb] in Hrun.
  rewrite clean_markdown_without_stars in Hrun.
  match type of Hrun with context [Part001.chat_audio w' req ?b ?s2] =>
    destruct (Part001_chat_audio_speech w' req b s2) as (a & rs & Ha) end.
  rewrite Ha in Hrun. rewrite Hrun. exists a. split; [done|]. cbn [snd].
  rewrite stored_with_calls, stored_with_history, decide_True by done.
  apply slice_last_short. cbn. lia.
Qed.

Lemma chat_after_init_witness :
  let w := answering "I'm Dr. Chen." in
  let w' := answering "Rest." in
  let ireq := {| init_role := Some "doctor"; init_sessionId := Some "s1" |} in
  let req := with_role (Some "doctor") (ask "s1" "Hi") in
  let s1 := (run (Part001.post_init w ireq) empty_server).2 in
  ∃ audioChunks,
    (run (Part001.post_chat w' req) s1).1
    = {| status := 200; body := json_text "Rest." audioChunks |}.
Proof.
  cbv zeta.
  assert (∃ p, lookup_role Part001.presetPrompts (Some "doctor") = Some p)
    as [p Hp] by (by eexists).
  assert (message (with_role (Some "doctor") (ask "s1" "Hi")) ≠ "") as Hm by done.
  destruct (chat_after_init (answering "I'm Dr. Chen.") (answering "Rest.")
              {| init_role := Some "doctor"; init_sessionId := Some "s1" |}
              (with_role (Some "doctor") (ask "s1" "Hi")) empty_server p
              "I'm Dr. Chen." Hp eq_refl eq_refl Hm) as (_ & _ & Hans).
  destruct (Hans "Rest." eq_refl) as (audioChunks & Hbody & _).
  by exists audioChunks.
Defined.

(** ** The context sent to the completion API *)

(** X13.  The completion request of a [/chat] with a message.  The first
    copy of [src/server.js] sends the system message, at most the last four
    stored turns and the user's message, always to the model
    [mixtral-8x7b-32768] with at most 100 tokens, whatever [model] the
    request names.  The other variants send the whole stored history and
    honour the [model] of the request, with their own default. *)
Theorem context_window w req s :
  message req ≠ "" →
  (∃ r0, head (new_calls s (run (Server1.post_chat w req) s).2)
         = Some (completion_call r0)
         ∧ drop 1 (messages r0)
           = Js.slice_last 4 (stored s (sessionId req))
             ++ [turn Role.user (message req)]
         ∧ length (messages r0) = 2 + min 4 (length (stored s (sessionId req)))
         ∧ completion_model r0 = "mixtral-8x7b-32768"
         ∧ max_tokens r0 = 100)
  ∧ (∃ r0, head (new_calls s (run (Server2.post_chat w req) s).2)
           = Some (completion_call r0)
           ∧ drop 1 (messages r0)
             = stored s (sessionId req) ++ [turn Role.user (message req)]
           ∧ completion_model r0 = Js.or_else (model req) "mixtral-8x7b-32768"
           ∧ max_tokens r0 = 1024)
  ∧ (∃ r0, head (new_calls s (run (Part001.post_chat w req) s).2)
           = Some (completion_call r0)
           ∧ drop 1 (messages r0)
             = stored s (sessionId req) ++ [turn Role.user (message req)]
           ∧ completion_model r0 = Js.or_else (model req) "llama-3.1-70b-versatile"
           ∧ max_tokens r0 = 1024).
Proof.
  intros Hm. split_and!.
  - eexists. split; [by apply Server1_chat_first_call|].
    cbn [completion_of_Server1 messages completion_model max_tokens].
    rewrite length_cons, length_app, length_slice_last. cbn [length].
    split_and!; [done|lia|done..].
  - eexists. split; [by apply Server2_chat_first_call|done].
  - eexists. split; [by apply Part001_chat_first_call|done].
Qed.

Lemma context_window_witness :
  let w := answering "Sure." in
  let calls := replicate 3 (w, ask "s1" "Hi") in
  let s := (serve Server1.post_chat calls empty_server).2 in
  ∃ r0, head (new_calls s (run (Server1.post_chat w (ask "s1" "Hi")) s).2)
        = Some (completion_call r0)
        ∧ length (messages r0) = 6.
Proof.
  cbv zeta.
  set (s := (serve Server1.post_chat
               (replicate 3 (answering "Sure.", ask "s1" "Hi")) empty_server).2).
  assert (message (ask "s1" "Hi") ≠ "") as Hm by done.
  destruct (context_window (answering "Sure.") (ask "s1" "Hi") s Hm)
    as ((r0 & Hfirst & _ & Hlen & _) & _).
  exists r0. split; [done|]. rewrite Hlen. by vm_compute.
Defined.
